(** * The auth client connection handler (src/auth/auth-client-connection.c)

    A shallow embedding of the per-connection protocol handler of the
    authentication service: the handshake, the command dispatch, reply
    delivery with backpressure, the reference-counted teardown and the
    listener's timeout sweep.

    The heap of connection objects is a finite map from addresses to
    records, and a connection pointer is an address.  The stream library,
    the event loop and the request engine are external collaborators: what
    they return is read from environment scripts held in the state, and
    what is asked of them is logged in a trace of events.  Lines are C
    strings: the characters up to the terminating NUL.  [refcount] is an
    [int] that stays far from its bounds; the unsigned pid and connect uid
    wrap at 2^32. *)

From Stdlib Require Import ZArith Ascii String List Bool Lia DecimalString.
From stdpp Require Import base option list gmap.
Import ListNotations.

Local Open Scope Z_scope.

(** ** C library routines used by the handler *)

Module CLib.

Definition TAB : ascii := ascii_of_nat 9.
Definition NL : ascii := ascii_of_nat 10.

(** [isspace] in the C locale: space and the control characters 9 to 13. *)
Definition isspace (a : ascii) : bool :=
  let n := nat_of_ascii a in
  Nat.eqb n 32 || (Nat.leb 9 n && Nat.leb n 13).

Definition digit_val (a : ascii) : option Z :=
  let n := Z.of_nat (nat_of_ascii a) in
  if (48 <=? n) && (n <=? 57) then Some (n - 48) else None.

Fixpoint skip_space (s : string) : string :=
  match s with
  | String a s' => if isspace a then skip_space s' else s
  | EmptyString => EmptyString
  end.

(** The optional sign of the subject sequence: [true] for a minus. *)
Definition parse_sign (s : string) : bool * string :=
  match s with
  | String a s' =>
      if Ascii.eqb a "-"%char then (true, s')
      else if Ascii.eqb a "+"%char then (false, s')
      else (false, s)
  | EmptyString => (false, s)
  end.

(** The value of the longest prefix of decimal digits, 0 when there is
    none (no conversion is performed). *)
Fixpoint digits_value (acc : Z) (s : string) : Z :=
  match s with
  | String a s' =>
      match digit_val a with
      | Some d => digits_value (10 * acc + d) s'
      | None => acc
      end
  | EmptyString => acc
  end.

Definition ULONG_MAX : Z := 2 ^ 64 - 1.
Definition LONG_MAX : Z := 2 ^ 63 - 1.
Definition LONG_MIN : Z := - 2 ^ 63.

(** [strtoul(s, NULL, 10)] with a 64-bit [unsigned long]: white space,
    an optional sign, digits; the value saturates at [ULONG_MAX] and a
    minus sign negates it in the unsigned type. *)
Definition strtoul (s : string) : Z :=
  let '(neg, r) := parse_sign (skip_space s) in
  let v := digits_value 0 r in
  if v >? ULONG_MAX then ULONG_MAX
  else if neg then (- v) mod 2 ^ 64 else v.

(** [strtol(s, NULL, 10)] with a 64-bit [long]: saturating. *)
Definition strtol (s : string) : Z :=
  let '(neg, r) := parse_sign (skip_space s) in
  let v := digits_value 0 r in
  let x := if neg then - v else v in
  if x >? LONG_MAX then LONG_MAX
  else if x <? LONG_MIN then LONG_MIN else x.

(** Conversions to the 32-bit types. *)
Definition to_uint (z : Z) : Z := z mod 2 ^ 32.
Definition to_int (z : Z) : Z := (z + 2 ^ 31) mod 2 ^ 32 - 2 ^ 31.

(** [atoi(s)] is [(int) strtol(s, NULL, 10)]. *)
Definition atoi (s : string) : Z := to_int (strtol s).

(** [strncmp(line, lit, strlen(lit)) == 0]: [line] starts with [lit]. *)
Definition starts_with (lit line : string) : bool := String.prefix lit line.

(** [line + n] once [n] characters are known to be there. *)
Fixpoint skip (n : nat) (s : string) : string :=
  match n, s with
  | O, _ => s
  | S n', String _ s' => skip n' s'
  | S _, EmptyString => EmptyString
  end.

(** [t_strcut(s, c)]: the part of [s] before the first [c]. *)
Fixpoint t_strcut (s : string) (c : ascii) : string :=
  match s with
  | String a s' => if Ascii.eqb a c then EmptyString else String a (t_strcut s' c)
  | EmptyString => EmptyString
  end.

(** The bytes [safe_memset(p, 0, n)] leaves behind. *)
Fixpoint zeros (n : nat) : string :=
  match n with
  | O => EmptyString
  | S n' => String zero (zeros n')
  end.

Fixpoint all_zero (s : string) : bool :=
  match s with
  | String a s' => Ascii.eqb a zero && all_zero s'
  | EmptyString => true
  end.

End CLib.

Import CLib.

Definition VERSION_KW : string := "VERSION" ++ String TAB "".
Definition CPID_KW : string := "CPID" ++ String TAB "".
Definition AUTH_KW : string := "AUTH" ++ String TAB "".
Definition CONT_KW : string := "CONT" ++ String TAB "".

(** [#define OUTBUF_THROTTLE_SIZE (1024*50)] *)
Definition OUTBUF_THROTTLE_SIZE : Z := 1024 * 50.

(** ** Data model *)

(** A request engine instance as seen from this file: the callback context
    it was created with and whether it got the master relay callback. *)
Record handler := Handler {
  h_id : nat;
  h_ctx : nat;
  h_master : bool
}.

(** The input stream of a connection.  [i_lines] are the complete lines
    buffered and not yet handed out, [i_mem] the buffer memory of the lines
    handed out by [i_stream_next_line], most recent first.  [i_feed] is the
    environment: what the coming calls of [i_stream_read] return and the
    lines they complete. *)
Record istream := IStream {
  i_lines : list string;
  i_mem : list string;
  i_closed : bool;
  i_feed : list (Z * list string)
}.

(** The output stream.  [o_used] is what [o_stream_get_buffer_used_size]
    reports.  [o_feed] is the environment: for each coming send or flush,
    its return value and the unsent byte count it leaves. *)
Record ostream := OStream {
  o_used : Z;
  o_closed : bool;
  o_feed : list (Z * Z)
}.

(** [struct auth_client_connection].  [io] is [conn->io != NULL]. *)
Record conn := Conn {
  fd : Z;
  io : bool;
  refcount : Z;
  pid : Z;
  connect_uid : Z;
  version_received : bool;
  request_handler : option handler;
  input : istream;
  output : ostream
}.

Inductive event :=
| EvIoAdd (c : nat) (f : Z)
| EvIoRemove (c : nat)
| EvRead (c : nat) (ret : Z)
| EvIStreamClose (c : nat)
| EvOStreamClose (c : nat)
| EvNetDisconnect (f : Z)
| EvIStreamUnref (c : nat)
| EvOStreamUnref (c : nat)
| EvFree (c : nat)
| EvSend (c : nat) (data : string)
| EvFlush (c : nat)
| EvHandlerCreate (h : handler)
| EvHandlerSet (h : handler) (uid p : Z)
| EvHandlerUnref (h : handler)
| EvAuthBegin (h : handler) (args : string)
| EvAuthContinue (h : handler) (args : string)
| EvCheckTimeouts (c : nat) (h : handler)
| EvSafeMemset (c : nat) (n : nat)
| EvError (msg : string)
| EvTimeoutAdd (msecs : Z)
| EvTimeoutRemove.

(** The listener, the heap of connection objects and the environment.
    [clients] is [listener->clients], an array of connection addresses.
    The three engine feeds script the request engine: what each coming
    begin/continue call returns and the replies it delivers synchronously
    through the reply callback; whether each coming release of the engine
    invokes the null-sentinel callback synchronously; and which connections
    each coming timeout check destroys synchronously. *)
Record world := World {
  heap : gmap nat conn;
  clients : list nat;
  masters : nat;
  listener_pid : Z;
  mech_handshake : string;
  to_clients : bool;
  connect_uid_counter : Z;
  next_ptr : nat;
  next_hid : nat;
  trace : list event;
  auth_feed : list (bool * list string);
  unref_feed : list bool;
  timeout_feed : list (list nat)
}.

(** ** The state and fault monad *)

(** What stops the program: a failed [i_assert], a read or write through a
    pointer to a freed connection, a call on a NULL engine, and a read of
    an array slot that is no longer inside the array.  [OutOfFuel] is the
    model's own: a loop was given fewer steps than it has lines. *)

Inductive fault :=
| AssertFailed (what : string)
| UseAfterFree (c : nat)
| NullHandler (c : nat)
| StaleSlot (i : nat)
| OutOfFuel.

Inductive result (A : Type) :=
| Ok (a : A) (w : world)
| Fault (f : fault) (w : world).
Arguments Ok {A} a w.
Arguments Fault {A} f w.

Definition M (A : Type) : Type := world -> result A.

Definition ret {A} (a : A) : M A := fun w => Ok a w.

Definition bind {A B} (m : M A) (k : A -> M B) : M B :=
  fun w => match m w with
           | Ok a w' => k a w'
           | Fault f w' => Fault f w'
           end.

Definition raise {A} (f : fault) : M A := fun w => Fault f w.

Declare Scope conn_scope.
Delimit Scope conn_scope with conn.
Notation "'do' x <- m ; k" := (bind m (fun x => k))
  (at level 10, x name, m at level 100, k at level 200) : conn_scope.
Notation "m ;; k" := (bind m (fun _ => k))
  (at level 100, k at level 200, right associativity) : conn_scope.
Local Open Scope conn_scope.

Definition is_ok {A} (r : result A) : bool :=
  match r with Ok _ _ => true | Fault _ _ => false end.

(** ** Field updates *)

Definition set_fd (v : Z) (x : conn) : conn :=
  let 'Conn _ xi xr xp xu xv xh xin xout := x in
  Conn v xi xr xp xu xv xh xin xout.
Definition set_io (v : bool) (x : conn) : conn :=
  let 'Conn xf _ xr xp xu xv xh xin xout := x in
  Conn xf v xr xp xu xv xh xin xout.
Definition set_refcount (v : Z) (x : conn) : conn :=
  let 'Conn xf xi _ xp xu xv xh xin xout := x in
  Conn xf xi v xp xu xv xh xin xout.
Definition set_pid (v : Z) (x : conn) : conn :=
  let 'Conn xf xi xr _ xu xv xh xin xout := x in
  Conn xf xi xr v xu xv xh xin xout.
Definition set_version_received (v : bool) (x : conn) : conn :=
  let 'Conn xf xi xr xp xu _ xh xin xout := x in
  Conn xf xi xr xp xu v xh xin xout.
Definition set_request_handler (v : option handler) (x : conn) : conn :=
  let 'Conn xf xi xr xp xu xv _ xin xout := x in
  Conn xf xi xr xp xu xv v xin xout.
Definition set_input (v : istream) (x : conn) : conn :=
  let 'Conn xf xi xr xp xu xv xh _ xout := x in
  Conn xf xi xr xp xu xv xh v xout.
Definition set_output (v : ostream) (x : conn) : conn :=
  let 'Conn xf xi xr xp xu xv xh xin _ := x in
  Conn xf xi xr xp xu xv xh xin v.

Definition set_heap (v : gmap nat conn) (w : world) : world :=
  let 'World _ cl ms lp mh tc cu np nh tr af uf tf := w in
  World v cl ms lp mh tc cu np nh tr af uf tf.
Definition set_clients (v : list nat) (w : world) : world :=
  let 'World hp _ ms lp mh tc cu np nh tr af uf tf := w in
  World hp v ms lp mh tc cu np nh tr af uf tf.
Definition set_to_clients (v : bool) (w : world) : world :=
  let 'World hp cl ms lp mh _ cu np nh tr af uf tf := w in
  World hp cl ms lp mh v cu np nh tr af uf tf.
Definition set_trace (v : list event) (w : world) : world :=
  let 'World hp cl ms lp mh tc cu np nh _ af uf tf := w in
  World hp cl ms lp mh tc cu np nh v af uf tf.
Definition set_auth_feed (v : list (bool * list string)) (w : world) : world :=
  let 'World hp cl ms lp mh tc cu np nh tr _ uf tf := w in
  World hp cl ms lp mh tc cu np nh tr v uf tf.
Definition set_unref_feed (v : list bool) (w : world) : world :=
  let 'World hp cl ms lp mh tc cu np nh tr af _ tf := w in
  World hp cl ms lp mh tc cu np nh tr af v tf.
Definition set_timeout_feed (v : list (list nat)) (w : world) : world :=
  let 'World hp cl ms lp mh tc cu np nh tr af uf _ := w in
  World hp cl ms lp mh tc cu np nh tr af uf v.

(** ** Primitive operations on the state *)

(** Reading through a connection pointer; a freed object is a fault. *)
Definition deref (c : nat) : M conn :=
  fun w => match heap w !! c with
           | Some x => Ok x w
           | None => Fault (UseAfterFree c) w
           end.

(** Writing fields through a connection pointer. *)
Definition modify (c : nat) (f : conn -> conn) : M unit :=
  fun w => match heap w !! c with
           | Some x => Ok tt (set_heap (<[c := f x]> (heap w)) w)
           | None => Fault (UseAfterFree c) w
           end.

Definition emit (e : event) : M unit :=
  fun w => Ok tt (set_trace (trace w ++ [e]) w).

(** [i_assert] *)
Definition i_assert (b : bool) (what : string) : M unit :=
  if b then ret tt else raise (AssertFailed what).

(** [i_free(conn)] *)
Definition i_free (c : nat) : M unit :=
  fun w => Ok tt (set_trace (trace w ++ [EvFree c])
                    (set_heap (delete c (heap w)) w)).

Fixpoint iter {A} (f : A -> M unit) (l : list A) : M unit :=
  match l with
  | [] => ret tt
  | a :: l' => f a ;; iter f l'
  end.

(** ** The stream library and the event loop, at their interface *)

(** Modelled from the spec: the readable half of the line stream pair
    (istream.h is not under src/).  A read returns what the stream's
    environment script says, 0 for nothing new, -1 for a disconnected
    peer, -2 for a full buffer and the number of bytes read otherwise, and
    completes the lines that come with it; once the script is exhausted
    nothing arrives any more. *)
Definition i_stream_read (c : nat) : M Z :=
  do x <- deref c;
  match i_feed (input x) with
  | [] => emit (EvRead c 0) ;; ret 0
  | (r, ls) :: feed' =>
      modify c (set_input (IStream (i_lines (input x) ++ ls)
                             (i_mem (input x)) (i_closed (input x)) feed')) ;;
      emit (EvRead c r) ;;
      ret r
  end.

(** Modelled from the spec: the next complete line of the buffer, [None]
    for NULL.  The line handed out stays where it is in the buffer. *)
Definition i_stream_next_line (c : nat) : M (option string) :=
  do x <- deref c;
  match i_lines (input x) with
  | [] => ret None
  | l :: ls =>
      modify c (set_input (IStream ls (l :: i_mem (input x))
                             (i_closed (input x)) (i_feed (input x)))) ;;
      ret (Some l)
  end.

(** [safe_memset(line, 0, strlen(line))] where [line] is the line handed
    out last: its bytes in the stream's buffer are overwritten in place. *)
Definition safe_memset_line (c : nat) : M unit :=
  do x <- deref c;
  match i_mem (input x) with
  | [] => ret tt
  | l :: m =>
      modify c (set_input (IStream (i_lines (input x))
                             (zeros (String.length l) :: m)
                             (i_closed (input x)) (i_feed (input x)))) ;;
      emit (EvSafeMemset c (String.length l))
  end.

Definition i_stream_close (c : nat) : M unit :=
  do x <- deref c;
  modify c (set_input (IStream (i_lines (input x)) (i_mem (input x)) true
                         (i_feed (input x)))) ;;
  emit (EvIStreamClose c).

Definition o_stream_close (c : nat) : M unit :=
  do x <- deref c;
  modify c (set_output (OStream (o_used (output x)) true
                          (o_feed (output x)))) ;;
  emit (EvOStreamClose c).

(** Modelled from the spec: the writable half of the line stream pair
    (ostream.h is not under src/), which queues bytes and reports its
    backlog.  One step of the output environment: the call's return value,
    and the unsent byte count it leaves behind. *)
Definition o_stream_step (c : nat) : M Z :=
  do x <- deref c;
  match o_feed (output x) with
  | [] => ret 0
  | (r, u) :: feed' =>
      modify c (set_output (OStream u (o_closed (output x)) feed')) ;;
      ret r
  end.

Definition o_stream_send (c : nat) (data : string) : M Z :=
  emit (EvSend c data) ;; o_stream_step c.

Definition o_stream_flush (c : nat) : M Z :=
  emit (EvFlush c) ;; o_stream_step c.

Definition o_stream_get_buffer_used_size (c : nat) : M Z :=
  do x <- deref c; ret (o_used (output x)).

Definition io_remove (c : nat) : M unit := emit (EvIoRemove c).

Definition io_add (c : nat) (f : Z) : M unit := emit (EvIoAdd c f).

Definition net_disconnect (f : Z) : M unit := emit (EvNetDisconnect f).

(** Taking the next entry of an environment script. *)
Definition next_auth : M (bool * list string) :=
  fun w => match auth_feed w with
           | [] => Ok (true, []) w
           | r :: l => Ok r (set_auth_feed l w)
           end.

Definition next_unref : M bool :=
  fun w => match unref_feed w with
           | [] => Ok false w
           | r :: l => Ok r (set_unref_feed l w)
           end.

Definition next_timeout : M (list nat) :=
  fun w => match timeout_feed w with
           | [] => Ok [] w
           | r :: l => Ok r (set_timeout_feed l w)
           end.

(** ** The connection handler *)

(** [auth_client_connection_unref]: [--conn->refcount > 0] keeps the
    object, anything else releases the streams and the storage. *)
Definition auth_client_connection_unref (c : nat) : M unit :=
  do x <- deref c;
  let n := refcount x - 1 in
  modify c (set_refcount n) ;;
  if n >? 0 then ret tt
  else
    emit (EvIStreamUnref c) ;;
    emit (EvOStreamUnref c) ;;
    i_free c.

(** [auth_client_send]: the formatted reply and a newline go to the output
    stream; at the throttle size the read subscription is dropped. *)
Definition auth_client_send (c : nat) (reply : string) : M unit :=
  do x <- deref c;
  i_assert (refcount x >? 1) "conn->refcount > 1" ;;
  o_stream_send c (reply ++ String NL "") ;;
  do used <- o_stream_get_buffer_used_size c;
  if used >=? OUTBUF_THROTTLE_SIZE then
    do x <- deref c;
    if io x then io_remove c ;; modify c (set_io false) else ret tt
  else ret tt.

(** [auth_callback]: [None] is the null sentinel (handler destroyed). *)
Definition auth_callback (reply : option string) (c : nat) : M unit :=
  match reply with
  | None => auth_client_connection_unref c
  | Some r => auth_client_send c r
  end.

(** Modelled from the spec: the request engine at its interface
    (auth-request-handler.c is not under src/).  Begin and continue return
    a boolean and may deliver replies through the reply callback before
    they return; releasing the engine may bring the null-sentinel callback
    at once or later.  Callbacks go to the context the engine was created
    with. *)
Definition auth_request_handler_create (c : nat) (master : bool) : M handler :=
  fun w =>
    let h := Handler (next_hid w) c master in
    Ok h (World (heap w) (clients w) (masters w) (listener_pid w)
            (mech_handshake w) (to_clients w) (connect_uid_counter w)
            (next_ptr w) (S (next_hid w)) (trace w ++ [EvHandlerCreate h])
            (auth_feed w) (unref_feed w) (timeout_feed w)).

Definition auth_request_handler_set (h : handler) (uid p : Z) : M unit :=
  emit (EvHandlerSet h uid p).

Definition engine_auth (h : handler) : M bool :=
  do r <- next_auth;
  iter (fun s => auth_callback (Some s) (h_ctx h)) (snd r) ;;
  ret (fst r).

Definition auth_request_handler_auth_begin (h : handler) (args : string) : M bool :=
  emit (EvAuthBegin h args) ;; engine_auth h.

Definition auth_request_handler_auth_continue (h : handler) (args : string) : M bool :=
  emit (EvAuthContinue h args) ;; engine_auth h.

Definition auth_request_handler_unref (h : handler) : M unit :=
  emit (EvHandlerUnref h) ;;
  do now <- next_unref;
  if now then auth_callback None (h_ctx h) else ret tt.

(** The scan of [listener->clients] in destroy: the first slot holding
    [c] is deleted and the scan stops. *)
Fixpoint array_delete_first (c : nat) (l : list nat) : list nat :=
  match l with
  | [] => []
  | p :: l' => if Nat.eqb p c then l' else p :: array_delete_first c l'
  end.

(** [auth_client_connection_destroy] *)
Definition auth_client_connection_destroy (c : nat) : M unit :=
  do x <- deref c;
  if fd x =? -1 then ret tt
  else
    (fun w => Ok tt (set_clients (array_delete_first c (clients w)) w)) ;;
    i_stream_close c ;;
    o_stream_close c ;;
    (if io x then io_remove c ;; modify c (set_io false) else ret tt) ;;
    net_disconnect (fd x) ;;
    modify c (set_fd (-1)) ;;
    match request_handler x with
    | Some h => auth_request_handler_unref h
    | None => ret tt
    end ;;
    auth_client_connection_unref c.

(** [auth_client_connection_lookup]: the first registered connection
    whose pid is [p]. *)
Fixpoint lookup_from (l : list nat) (p : Z) : M (option nat) :=
  match l with
  | [] => ret None
  | c :: l' =>
      do x <- deref c;
      if pid x =? p then ret (Some c) else lookup_from l' p
  end.

Definition auth_client_connection_lookup (p : Z) : M (option nat) :=
  fun w => lookup_from (clients w) p w.

(** [auth_client_input_cpid] *)
Definition auth_client_input_cpid (c : nat) (args : string) : M bool :=
  do x <- deref c;
  i_assert (pid x =? 0) "conn->pid == 0" ;;
  let p := to_uint (strtoul args) in
  if p =? 0 then
    emit (EvError "BUG: Authentication client said it's PID 0") ;;
    ret false
  else
    do old <- auth_client_connection_lookup p;
    do old <-
      match old with
      | Some o =>
          i_assert (negb (Nat.eqb o c)) "old != conn" ;;
          do r <- i_stream_read o;
          if r =? -1 then auth_client_connection_destroy o ;; ret None
          else ret (Some o)
      | None => ret None
      end;
    match old with
    | Some _ =>
        emit (EvError "BUG: Authentication client gave a PID of existing connection") ;;
        ret false
    | None =>
        do x <- deref c;
        modify c (set_refcount (refcount x + 1)) ;;
        do m <- (fun w => Ok (negb (Nat.eqb (masters w) 0)) w);
        do h <- auth_request_handler_create c m;
        modify c (set_request_handler (Some h)) ;;
        auth_request_handler_set h (connect_uid x) p ;;
        modify c (set_pid p) ;;
        ret true
    end.

(** [auth_client_output], the flush callback. *)
Definition auth_client_output (c : nat) : M Z :=
  do r <- o_stream_flush c;
  if r <? 0 then auth_client_connection_destroy c ;; ret 1
  else
    do used <- o_stream_get_buffer_used_size c;
    do x <- deref c;
    (if (used <=? OUTBUF_THROTTLE_SIZE / 3) && negb (io x) then
       io_add c (fd x) ;; modify c (set_io true)
     else ret tt) ;;
    ret 1.

(** [auth_client_handle_line] *)
Definition auth_client_handle_line (c : nat) (line : string) : M bool :=
  do x <- deref c;
  if starts_with AUTH_KW line then
    match request_handler x with
    | Some h => auth_request_handler_auth_begin h (skip 5 line)
    | None => raise (NullHandler c)
    end
  else if starts_with CONT_KW line then
    match request_handler x with
    | Some h => auth_request_handler_auth_continue h (skip 5 line)
    | None => raise (NullHandler c)
    end
  else ret true.

(** One line of the second loop of [auth_client_input]: dispatch, scrub,
    and destroy when the handler failed.  The result tells whether the
    loop goes on. *)
Definition dispatch_line (c : nat) (line : string) : M bool :=
  do r <- auth_client_handle_line c line;
  safe_memset_line c ;;
  if r then ret true
  else auth_client_connection_destroy c ;; ret false.

(** [while ((line = i_stream_next_line(conn->input)) != NULL) ...] *)
Fixpoint dispatch_loop (n : nat) (c : nat) : M unit :=
  match n with
  | O => raise OutOfFuel
  | S n' =>
      do line <- i_stream_next_line c;
      match line with
      | None => ret tt
      | Some l =>
          do go <- dispatch_line c l;
          if go then dispatch_loop n' c else ret tt
      end
  end.

Section Protocol.

(** [AUTH_CLIENT_PROTOCOL_MAJOR_VERSION] and the minor version; their
    header, auth-client-interface.h, is not under src/. *)
Variable MAJOR MINOR : Z.

(** The test on the first line of a session. *)
Definition version_mismatch (line : string) : bool :=
  negb (starts_with VERSION_KW line)
  || negb (atoi (t_strcut (skip 8 line) TAB) =? MAJOR).

(** One line of the handshake loop of [auth_client_input].  The result
    tells whether the loop goes on ([false]: the function returned). *)
Definition handshake_line (c : nat) (line : string) : M bool :=
  do x <- deref c;
  if negb (version_received x) then
    if version_mismatch line then
      emit (EvError "Authentication client not compatible with this server (mixed old and new binaries?)") ;;
      auth_client_connection_destroy c ;;
      ret false
    else
      modify c (set_version_received true) ;;
      ret true
  else if starts_with CPID_KW line then
    do ok <- auth_client_input_cpid c (skip 5 line);
    if ok then ret true
    else auth_client_connection_destroy c ;; ret false
  else ret true.

(** [while (conn->request_handler == NULL) ...]: [true] when the loop
    is left with an engine bound, [false] when the function returned. *)
Fixpoint handshake_loop (n : nat) (c : nat) : M bool :=
  do x <- deref c;
  match request_handler x with
  | Some _ => ret true
  | None =>
      match n with
      | O => raise OutOfFuel
      | S n' =>
          do line <- i_stream_next_line c;
          match line with
          | None => ret false
          | Some l =>
              do go <- handshake_line c l;
              if go then handshake_loop n' c else ret false
          end
      end
  end.

Definition buffered_lines (c : nat) : M nat :=
  do x <- deref c; ret (length (i_lines (input x))).

(** [auth_client_input], the read callback. *)
Definition auth_client_input (c : nat) : M unit :=
  do r <- i_stream_read c;
  if r =? 0 then ret tt
  else if r =? -1 then auth_client_connection_destroy c
  else if r =? -2 then
    emit (EvError "BUG: Auth client sent us more than AUTH_CLIENT_MAX_LINE_LENGTH bytes") ;;
    auth_client_connection_destroy c
  else
    do n <- buffered_lines c;
    do go <- handshake_loop (S n) c;
    if go then
      do x <- deref c;
      modify c (set_refcount (refcount x + 1)) ;;
      do n <- buffered_lines c;
      dispatch_loop (S n) c ;;
      auth_client_connection_unref c
    else ret tt.

Definition dec (z : Z) : string :=
  DecimalString.NilZero.string_of_uint (N.to_uint (Z.to_N z)).

Definition handshake_text (uid : Z) (spid : Z) : string :=
  VERSION_KW ++ dec MAJOR ++ String TAB (dec MINOR) ++ String NL
    ("SPID" ++ String TAB (dec spid) ++ String NL
    ("CUID" ++ String TAB (dec uid) ++ String NL
    ("DONE" ++ String NL ""))).

(** [auth_client_connection_create].  [ifeed] and [ofeed] are what the
    accepted socket will do; the result is the new connection, or [None]
    for the NULL returned when the handshake could not be written. *)
Definition auth_client_connection_create (f : Z)
    (ifeed : list (Z * list string)) (ofeed : list (Z * Z)) : M (option nat) :=
  do cu <- (fun w =>
    let c := next_ptr w in
    let uid := to_uint (connect_uid_counter w + 1) in
    let x := Conn f false 1 0 uid false None
               (IStream [] [] false ifeed) (OStream 0 false ofeed) in
    Ok (c, uid)
       (World (<[c := x]> (heap w)) (clients w) (masters w) (listener_pid w)
          (mech_handshake w) (to_clients w) uid (S (next_ptr w))
          (next_hid w) (trace w) (auth_feed w) (unref_feed w)
          (timeout_feed w)));
  let c := fst cu in
  io_add c f ;;
  modify c (set_io true) ;;
  (fun w => Ok tt (set_clients (clients w ++ [c]) w)) ;;
  do spid <- (fun w => Ok (listener_pid w) w);
  do mech <- (fun w => Ok (mech_handshake w) w);
  do r <- o_stream_send c (mech ++ handshake_text (snd cu) spid);
  if r <? 0 then auth_client_connection_destroy c ;; ret None
  else ret (Some c).

End Protocol.

(** ** The listener's timeout sweep *)

(** Modelled from the spec: the engine's timeout check.  What it expires
    is the engine's business; the script tells which connections it
    destroys before it returns. *)
Definition auth_request_handler_check_timeouts (c : nat) (h : handler) : M unit :=
  emit (EvCheckTimeouts c h) ;;
  do ds <- next_timeout;
  iter auth_client_connection_destroy ds.

(** [clients[i]] through the pointer taken before the loop: a slot at or
    beyond the array's current count is no longer part of the array. *)
Definition read_slot (i : nat) : M nat :=
  fun w => match clients w !! i with
           | Some p => Ok p w
           | None => Fault (StaleSlot i) w
           end.

(** [for (i = 0; i < count; i++)] with [count] read before the loop;
    [n] is [count - i]. *)
Fixpoint sweep (n : nat) (i : nat) : M unit :=
  match n with
  | O => ret tt
  | S n' =>
      do p <- read_slot i;
      do x <- deref p;
      match request_handler x with
      | Some h => auth_request_handler_check_timeouts p h
      | None => ret tt
      end ;;
      sweep n' (S i)
  end.

(** [request_timeout], the timer callback. *)
Definition request_timeout : M unit :=
  fun w => sweep (length (clients w)) 0%nat w.

(** [auth_client_connections_init] and [auth_client_connections_deinit] *)
Definition auth_client_connections_init : M unit :=
  emit (EvTimeoutAdd 5000) ;;
  (fun w => Ok tt (set_to_clients true w)).

Definition auth_client_connections_deinit : M unit :=
  fun w => if to_clients w
           then (emit EvTimeoutRemove ;; (fun w => Ok tt (set_to_clients false w))) w
           else Ok tt w.


(** ** What the teardown leaves behind *)

(** The connection object once destroy has closed it (the count is still
    what it was). *)
Definition closed_conn (x : conn) : conn :=
  Conn (-1) false (refcount x) (pid x) (connect_uid x) (version_received x)
       (request_handler x)
       (IStream (i_lines (input x)) (i_mem (input x)) true (i_feed (input x)))
       (OStream (o_used (output x)) true (o_feed (output x))).

Definition teardown_events (c : nat) (x : conn) : list event :=
  [EvIStreamClose c; EvOStreamClose c]
  ++ (if io x then [EvIoRemove c] else [])
  ++ [EvNetDisconnect (fd x)].

Definition engine_release_events (x : conn) : list event :=
  match request_handler x with
  | Some h => [EvHandlerUnref h]
  | None => []
  end.

Definition release_events (c : nat) : list event :=
  [EvIStreamUnref c; EvOStreamUnref c; EvFree c].

(** Whether releasing the engine of [x] in [w] brings the null-sentinel
    callback synchronously. *)
Definition sync_teardown (x : conn) (w : world) : bool :=
  match request_handler x, unref_feed w with
  | Some _, true :: _ => true
  | _, _ => false
  end.

(** The count once destroy has returned. *)
Definition count_after_destroy (x : conn) (w : world) : Z :=
  refcount x - (if sync_teardown x w then 1 else 0) - 1.

Definition destroy_events (c : nat) (x : conn) (w : world) : list event :=
  teardown_events c x ++ engine_release_events x
  ++ (if count_after_destroy x w >? 0 then [] else release_events c).

(** The state a first destroy of [c] leaves. *)
Definition destroyed (c : nat) (x : conn) (w : world) : world :=
  World (if count_after_destroy x w >? 0
         then <[c := set_refcount (count_after_destroy x w) (closed_conn x)]> (heap w)
         else delete c (heap w))
        (array_delete_first c (clients w)) (masters w) (listener_pid w)
        (mech_handshake w) (to_clients w) (connect_uid_counter w)
        (next_ptr w) (next_hid w)
        (trace w ++ destroy_events c x w)
        (auth_feed w)
        (match request_handler x with
         | Some _ => tail (unref_feed w)
         | None => unref_feed w
         end)
        (timeout_feed w).

(** The engine's callback context is the connection that created it. *)
Definition own_ctx (c : nat) (x : conn) : bool :=
  match request_handler x with
  | Some h => Nat.eqb (h_ctx h) c
  | None => true
  end.

(** Event classes. *)
Definition is_release_of (c : nat) (e : event) : bool :=
  match e with
  | EvIStreamUnref c' | EvOStreamUnref c' | EvFree c' => Nat.eqb c' c
  | _ => false
  end.

Definition is_read_of (c : nat) (e : event) : bool :=
  match e with
  | EvRead c' _ => Nat.eqb c' c
  | _ => false
  end.

Definition is_handler_create (e : event) : bool :=
  match e with
  | EvHandlerCreate _ => true
  | _ => false
  end.

Definition is_send (e : event) : bool :=
  match e with
  | EvSend _ _ => true
  | _ => false
  end.

Definition is_check_of (c : nat) (e : event) : bool :=
  match e with
  | EvCheckTimeouts c' _ => Nat.eqb c' c
  | _ => false
  end.

Fixpoint count_ev (p : event -> bool) (t : list event) : nat :=
  match t with
  | [] => O
  | e :: t' => ((if p e then 1 else 0) + count_ev p t')%nat
  end.

(** The state after the synchronous part of destroy, before any release. *)
Definition torn_down (c : nat) (x : conn) (w : world) : world :=
  set_trace (trace w ++ teardown_events c x)
    (set_heap (<[c := closed_conn x]> (heap w))
       (set_clients (array_delete_first c (clients w)) w)).


(** ** Example states *)

Definition tabbed (a b : string) : string := a ++ String TAB b.

(** A connection past the handshake, with its engine bound. *)
Definition ex_active (c : nat) (f : Z) (rc : Z) (p : Z) (lines : list string)
    (ifeed : list (Z * list string)) : conn :=
  Conn f true rc p (Z.of_nat c) true (Some (Handler c c false))
       (IStream lines [] false ifeed) (OStream 0 false []).

(** A connection waiting for its [CPID] line. *)
Definition ex_waiting (f : Z) (lines : list string) : conn :=
  Conn f true 1 0 9 true None (IStream lines [] false []) (OStream 0 false []).

(** A connection that has not sent its [VERSION] line yet. *)
Definition ex_fresh (f : Z) (lines : list string)
    (ifeed : list (Z * list string)) : conn :=
  Conn f true 1 0 9 false None (IStream lines [] false ifeed) (OStream 0 false []).

Definition ex_world (objs : list (nat * conn)) (cl : list nat)
    (af : list (bool * list string)) (uf : list bool)
    (tf : list (list nat)) : world :=
  World (list_to_map objs) cl 0 77 "" true 9 200 50 [] af uf tf.

(** What the output environment says about the coming send or flush on
    [x]: the unsent byte count it leaves, and its return value. *)
Definition used_after (x : conn) : Z :=
  match o_feed (output x) with
  | [] => o_used (output x)
  | (_, u) :: _ => u
  end.

Definition ret_after (x : conn) : Z :=
  match o_feed (output x) with
  | [] => 0
  | (r, _) :: _ => r
  end.

(** Whether the subject sequence of [strtoul] (after white space and an
    optional sign) starts with a decimal digit. *)
Definition begins_with_number (s : string) : bool :=
  match snd (parse_sign (skip_space s)) with
  | String a _ => match digit_val a with Some _ => true | None => false end
  | EmptyString => false
  end.

Fixpoint has_char (c : ascii) (s : string) : bool :=
  match s with
  | String a s' => Ascii.eqb a c || has_char c s'
  | EmptyString => false
  end.

(** What the coming read on [y] returns. *)
Definition read_ret (y : conn) : Z :=
  match i_feed (input y) with
  | [] => 0
  | (r, _) :: _ => r
  end.

(** In the registry of [w], [o] is the only connection that may hold pid
    [p]: every other entry is an allocated object with another pid. *)
Definition sole_claimant (w : world) (o : nat) (p : Z) : bool :=
  forallb (fun q => Nat.eqb q o ||
             match heap w !! q with
             | Some z => negb (pid z =? p)
             | None => false
             end) (clients w).

Definition error_incompatible : event :=
  EvError "Authentication client not compatible with this server (mixed old and new binaries?)".

Definition error_pid_zero : event :=
  EvError "BUG: Authentication client said it's PID 0".

Definition error_pid_taken : event :=
  EvError "BUG: Authentication client gave a PID of existing connection".

(** The connection object after the coming read on it. *)
Definition read_conn (y : conn) : conn :=
  match i_feed (input y) with
  | [] => y
  | (_, ls) :: feed' =>
      set_input (IStream (i_lines (input y) ++ ls) (i_mem (input y))
                   (i_closed (input y)) feed') y
  end.

(** The state after the coming read on [o]. *)
Definition after_read (o : nat) (y : conn) (w : world) : world :=
  set_trace (trace w ++ [EvRead o (read_ret y)])
    (set_heap (<[o := read_conn y]> (heap w)) w).

(** The state once the handshake of [c] (object [x]) has completed with
    pid [p]: one more reference, a new engine bound to the connection. *)
Definition bound (c : nat) (x : conn) (p : Z) (w : world) : world :=
  let h := Handler (next_hid w) c (negb (Nat.eqb (masters w) 0)) in
  World (<[c := set_pid p (set_request_handler (Some h)
                             (set_refcount (refcount x + 1) x))]> (heap w))
        (clients w) (masters w) (listener_pid w) (mech_handshake w)
        (to_clients w) (connect_uid_counter w) (next_ptr w)
        (S (next_hid w))
        (trace w ++ [EvHandlerCreate h; EvHandlerSet h (connect_uid x) p])
        (auth_feed w) (unref_feed w) (timeout_feed w).

(** Two views of a connection object that differ at most in the read
    subscription and the output stream. *)
Definition same_but_output (x x1 : conn) : Prop :=
  fd x1 = fd x /\ refcount x1 = refcount x /\ pid x1 = pid x /\
  connect_uid x1 = connect_uid x /\
  version_received x1 = version_received x /\
  request_handler x1 = request_handler x /\ input x1 = input x.

(** What a reply delivery may change. *)
Definition reply_frame (c : nat) (x : conn) (w w1 : world) : Prop :=
  (exists x1, heap w1 !! c = Some x1 /\ same_but_output x x1) /\
  clients w1 = clients w /\ unref_feed w1 = unref_feed w /\
  (forall q, q <> c -> heap w1 !! q = heap w !! q) /\
  exists evs, trace w1 = trace w ++ evs.

(** The object once the line handed out last has been scrubbed. *)
Definition scrub_conn (x : conn) : conn :=
  match i_mem (input x) with
  | [] => x
  | l :: m =>
      set_input (IStream (i_lines (input x)) (zeros (String.length l) :: m)
                   (i_closed (input x)) (i_feed (input x))) x
  end.

Definition scrub_events (c : nat) (x : conn) : list event :=
  match i_mem (input x) with
  | [] => []
  | l :: _ => [EvSafeMemset c (String.length l)]
  end.

Definition scrubbed (c : nat) (x : conn) (w : world) : world :=
  set_trace (trace w ++ scrub_events c x)
    (set_heap (<[c := scrub_conn x]> (heap w)) w).

(** No timeout check of the environment destroys a connection. *)
Definition quiet_timeouts (w : world) : bool :=
  forallb (fun ds => match ds with [] => true | _ :: _ => false end)
          (timeout_feed w).

(** Every registered connection is an allocated object. *)
Definition registered_alive (w : world) : bool :=
  forallb (fun c => match heap w !! c with Some _ => true | None => false end)
          (clients w).

(** The timeout checks a sweep over the slots [l] asks for. *)
Definition checks (w : world) (l : list nat) : list event :=
  flat_map (fun c => match heap w !! c with
                     | Some x => match request_handler x with
                                 | Some h => [EvCheckTimeouts c h]
                                 | None => []
                                 end
                     | None => []
                     end) l.

(** ** A session that ends while the engine is still busy *)

(** A listener with nothing registered.  The engine will answer the one
    request asynchronously, and will tear down later than the release. *)
Definition idle_listener : world :=
  World ∅ [] 0 77 "" true 0 100 0 [] [(true, [])] [false] [].

(** What the socket of the session delivers: a first read with the
    handshake and one AUTH command, then the end of the stream. *)
Definition session_reads : list (Z * list string) :=
  [(40, [tabbed "VERSION" (tabbed "1" "0"); tabbed "CPID" "555";
         tabbed "AUTH" (tabbed "1" "PLAIN")]);
   (-1, [])].

(** The session up to the peer's disconnect: accept, handshake and
    command, then the read that reports the disconnect. *)
Definition session_until_disconnect : M (option nat) :=
  do c <- auth_client_connection_create 1 0 5 session_reads [];
  match c with
  | Some p => auth_client_input 1 p ;; auth_client_input 1 p ;; ret (Some p)
  | None => ret None
  end.

(** The engine then completes the request and delivers its reply. *)
Definition reply_after_disconnect : M unit :=
  do c <- session_until_disconnect;
  match c with
  | Some p => auth_callback (Some (tabbed "OK" "1")) p
  | None => ret tt
  end.

(** ** The outcome of a fatal handshake line *)

(** The connection [c] (object [x] in [w]) has been destroyed without an
    engine ever being created: it has left the registry, no engine handle
    was allocated, the events since [w] are [pre], then [err], then events
    that create no engine and send nothing, and what is left of the object
    is closed and unbound (nothing is left when only the registry held
    it). *)
Definition destroyed_unbound (c : nat) (x : conn) (w w' : world)
    (pre : list event) (err : event) : Prop :=
  clients w' = array_delete_first c (clients w) /\
  (NoDup (clients w) -> c ∉ clients w') /\
  next_hid w' = next_hid w /\
  (exists evs, trace w' = trace w ++ pre ++ err :: evs /\
     count_ev is_handler_create evs = 0%nat /\
     count_ev is_send evs = 0%nat) /\
  (refcount x = 1 -> heap w' !! c = None) /\
  (forall x', heap w' !! c = Some x' ->
     fd x' = -1 /\ request_handler x' = None).

(** The object once its first buffered line has been handed out. *)
Definition line_taken (x : conn) : conn :=
  match i_lines (input x) with
  | [] => x
  | l :: ls =>
      set_input (IStream ls (l :: i_mem (input x)) (i_closed (input x))
                   (i_feed (input x))) x
  end.

(** The state in which the read callback looks at the first buffered line:
    after its read and the first [i_stream_next_line]. *)
Definition first_line_state (c : nat) (x : conn) (w : world) : world :=
  set_heap (<[c := line_taken (read_conn x)]> (heap (after_read c x w)))
           (after_read c x w).

(** The state in which the read callback of a bound connection enters its
    dispatch loop: after the read, with the reference of the batch taken. *)
Definition batch_state (c : nat) (x : conn) (w : world) : world :=
  set_heap (<[c := set_refcount (refcount x + 1) (read_conn x)]>
              (heap (after_read c x w)))
           (after_read c x w).

(** ** The first line as the claim reads it *)

Fixpoint all_digits (s : string) : bool :=
  match s with
  | String a s' =>
      match digit_val a with
      | Some _ => all_digits s'
      | None => false
      end
  | EmptyString => true
  end.

(** The major version number a first line states: the line is the VERSION
    keyword, a tab, and a number, the decimal digits up to the next tab or
    the end of the line.  [None] when the line is not of this form. *)
Definition stated_major (line : string) : option Z :=
  if starts_with VERSION_KW line then
    match t_strcut (skip 8 line) TAB with
    | EmptyString => None
    | String a s =>
        if all_digits (String a s) then Some (digits_value 0 (String a s))
        else None
    end
  else None.

(** The claim's test: the line states the required major version. *)
Definition stated_match (major : Z) (line : string) : bool :=
  match stated_major line with
  | Some v => v =? major
  | None => false
  end.

(** ** Accepting a connection *)

(** What the first send or flush on a stream with script [ofeed] returns,
    and the output stream it leaves. *)
Definition feed_ret (ofeed : list (Z * Z)) : Z :=
  match ofeed with
  | [] => 0
  | (r, _) :: _ => r
  end.

Definition first_output (ofeed : list (Z * Z)) : ostream :=
  match ofeed with
  | [] => OStream 0 false []
  | (_, u) :: feed' => OStream u false feed'
  end.

(** The object a successful create leaves behind. *)
Definition accepted (f uid : Z) (ifeed : list (Z * list string))
    (ofeed : list (Z * Z)) : conn :=
  Conn f true 1 0 uid false None (IStream [] [] false ifeed)
       (first_output ofeed).

(** ** Commands and handshake lines that are passed over *)

(** A line that is neither an AUTH nor a CONT command. *)
Definition unknown_command (line : string) : bool :=
  negb (starts_with AUTH_KW line) && negb (starts_with CONT_KW line).

(** The buffer of a handed-out line once it has been scrubbed. *)
Definition scrub_of (line : string) : string := zeros (String.length line).

(** The input stream once the lines [ls] have been handed out and left in
    the buffer as [left]. *)
Definition drained (x : conn) (left : list string) : conn :=
  set_input (IStream [] (rev left ++ i_mem (input x)) (i_closed (input x))
               (i_feed (input x))) x.

(** The [EvSend] events of a trace, in order. *)
Definition sends (evs : list event) : list event := List.filter is_send evs.

(** No registered connection holds pid [p]; all of them are allocated. *)
Definition no_claimant (w : world) (p : Z) : bool :=
  forallb (fun q => match heap w !! q with
                    | Some z => negb (pid z =? p)
                    | None => false
                    end) (clients w).

(** What the engine answers to the coming begin or continue call: its
    return value and the replies it delivers before returning. *)
Definition engine_answer (w : world) : bool * list string :=
  match auth_feed w with
  | [] => (true, [])
  | r :: _ => r
  end.

(** A reply as it is written: the text and a newline. *)
Definition reply_sent (c : nat) (s : string) : event :=
  EvSend c (s ++ String NL "").

(** ** The read callback and the flush callback *)

Definition error_too_long : event :=
  EvError "BUG: Auth client sent us more than AUTH_CLIENT_MAX_LINE_LENGTH bytes".

(** The object after the coming send or flush on its output stream. *)
Definition stepped (x : conn) : conn :=
  match o_feed (output x) with
  | [] => x
  | (_, u) :: feed' => set_output (OStream u (o_closed (output x)) feed') x
  end.

(** The state after a flush on [c]. *)
Definition after_flush (c : nat) (x : conn) (w : world) : world :=
  set_trace (trace w ++ [EvFlush c])
    (set_heap (<[c := stepped x]> (heap w)) w).

Definition is_error (e : event) : bool :=
  match e with
  | EvError _ => true
  | _ => false
  end.

Definition is_io_add (e : event) : bool :=
  match e with
  | EvIoAdd _ _ => true
  | _ => false
  end.

Definition is_free_of (c : nat) (e : event) : bool :=
  match e with
  | EvFree c' => Nat.eqb c' c
  | _ => false
  end.

(** ** The registry invariant *)

(** The fields of a connection the registry's consistency depends on. *)
Definition core (x : conn) : Z * Z * Z * option handler :=
  (fd x, refcount x, pid x, request_handler x).

(** A registered connection: open, counted by the registry, and either
    waiting (no engine, no pid) or serving (an engine that calls back to
    it and holds a reference, and a pid). *)
Definition conn_ok (c : nat) (x : conn) : bool :=
  negb (fd x =? -1) && own_ctx c x &&
  match request_handler x with
  | Some _ => (1 <? refcount x) && negb (pid x =? 0)
  | None => (0 <? refcount x) && (pid x =? 0)
  end.

(** The registry of a listener: no connection twice, every entry an
    allocated connection in order, allocated before the next object, and
    no pid held by two entries. *)
Record registry_ok (w : world) : Prop := RegistryOk {
  reg_nodup : NoDup (clients w);
  reg_conn : forall c, c ∈ clients w ->
    exists x, heap w !! c = Some x /\ conn_ok c x = true;
  reg_fresh : forall c, c ∈ clients w -> (c < next_ptr w)%nat;
  reg_pids : forall c1 c2 x1 x2,
    c1 ∈ clients w -> c2 ∈ clients w ->
    heap w !! c1 = Some x1 -> heap w !! c2 = Some x2 ->
    pid x1 = pid x2 -> pid x1 <> 0 -> c1 = c2
}.

(** The invariant as a test. *)
Definition registry_check (w : world) : bool :=
  bool_decide (NoDup (clients w)) &&
  forallb (fun c =>
    match heap w !! c with
    | Some x =>
        conn_ok c x && (c <? next_ptr w)%nat &&
        forallb (fun c' =>
          match heap w !! c' with
          | Some x' => (pid x =? 0) || negb (pid x =? pid x') || Nat.eqb c c'
          | None => true
          end) (clients w)
    | None => false
    end) (clients w).

(** What an operation on [c] leaves alone: the registry, every other
    object, and the core and the buffered lines of [c]. *)
Definition touches (c : nat) (w w1 : world) : Prop :=
  clients w1 = clients w /\ next_ptr w1 = next_ptr w /\
  (forall q, q <> c -> heap w1 !! q = heap w !! q) /\
  (forall x, heap w !! c = Some x ->
     exists x1, heap w1 !! c = Some x1 /\ core x1 = core x /\
       i_lines (input x1) = i_lines (input x)).

(** The number of lines buffered on [c]. *)
Definition lines_of (c : nat) (w : world) : nat :=
  match heap w !! c with
  | Some x => length (i_lines (input x))
  | None => 0
  end.
(** * Properties *)

(** ** Running the monad *)

Lemma bind_ok {A B} (m : M A) (k : A -> M B) w a w' :
  m w = Ok a w' -> bind m k w = k a w'.
Proof. intros H. unfold bind. now rewrite H. Qed.

Lemma deref_ok w c x : heap w !! c = Some x -> deref c w = Ok x w.
Proof. intros H. unfold deref. now rewrite H. Qed.

Lemma modify_ok w c x f :
  heap w !! c = Some x ->
  modify c f w = Ok tt (set_heap (<[c := f x]> (heap w)) w).
Proof. intros H. unfold modify. now rewrite H. Qed.

Lemma count_ev_app p t1 t2 :
  count_ev p (t1 ++ t2) = (count_ev p t1 + count_ev p t2)%nat.
Proof. induction t1 as [|e t1 IH]; simpl; [reflexivity|]. rewrite IH. lia. Qed.

(** Stepping through a sequence of operations on a known object. *)
Ltac step_deref H := rewrite (bind_ok _ _ _ _ _ (deref_ok _ _ _ H)).

Tactic Notation "norm" :=
  cbn [heap clients masters listener_pid mech_handshake to_clients
       connect_uid_counter next_ptr next_hid trace auth_feed unref_feed
       timeout_feed set_heap set_clients set_trace set_unref_feed
       set_auth_feed set_timeout_feed set_to_clients
       fd io refcount pid connect_uid version_received request_handler
       input output set_fd set_io set_refcount set_pid set_version_received
       set_request_handler set_input set_output
       i_lines i_mem i_closed i_feed o_used o_closed o_feed fst snd].
Tactic Notation "norm" "in" hyp(H) :=
  cbn [heap clients masters listener_pid mech_handshake to_clients
       connect_uid_counter next_ptr next_hid trace auth_feed unref_feed
       timeout_feed set_heap set_clients set_trace set_unref_feed
       set_auth_feed set_timeout_feed set_to_clients
       fd io refcount pid connect_uid version_received request_handler
       input output set_fd set_io set_refcount set_pid set_version_received
       set_request_handler set_input set_output
       i_lines i_mem i_closed i_feed o_used o_closed o_feed fst snd] in H.

Ltac run_prims H :=
  unfold i_stream_close, o_stream_close, io_remove, io_add, net_disconnect,
    bind, deref, modify, emit, ret, i_free;
  repeat first
    [ rewrite H
    | rewrite lookup_insert_eq
    | progress norm ].

Ltac heap_eq :=
  repeat first
    [ rewrite insert_insert_eq
    | rewrite delete_insert_eq
    | rewrite <- app_assoc
    | rewrite app_nil_r
    | progress cbn [app] ].

(** ** Reference counting *)

Lemma unref_spec w c x :
  heap w !! c = Some x ->
  auth_client_connection_unref c w =
  Ok tt (if refcount x - 1 >? 0
         then set_heap (<[c := set_refcount (refcount x - 1) x]> (heap w)) w
         else set_trace (trace w ++ release_events c)
                (set_heap (delete c (heap w)) w)).
Proof.
  intros H. unfold auth_client_connection_unref.
  destruct w as [hp cl ms lp mh tc cu np nh tr af uf tf]. norm. norm in H.
  run_prims H. cbv zeta.
  destruct (refcount x - 1 >? 0); run_prims H; [reflexivity|].
  unfold release_events. now heap_eq.
Qed.

Lemma handler_unref_spec w h :
  auth_request_handler_unref h w =
  match unref_feed w with
  | true :: l =>
      auth_client_connection_unref (h_ctx h)
        (set_unref_feed l (set_trace (trace w ++ [EvHandlerUnref h]) w))
  | false :: l =>
      Ok tt (set_unref_feed l (set_trace (trace w ++ [EvHandlerUnref h]) w))
  | [] => Ok tt (set_trace (trace w ++ [EvHandlerUnref h]) w)
  end.
Proof.
  unfold auth_request_handler_unref, bind, emit, next_unref.
  destruct w as [hp cl ms lp mh tc cu np nh tr af uf tf]. norm.
  destruct uf as [|[] l]; reflexivity.
Qed.

Lemma destroy_closed w c x :
  heap w !! c = Some x -> fd x = -1 ->
  auth_client_connection_destroy c w = Ok tt w.
Proof.
  intros H Hfd. unfold auth_client_connection_destroy.
  step_deref H. now rewrite Hfd.
Qed.

Lemma destroy_unfold w c x :
  heap w !! c = Some x ->
  fd x <> -1 ->
  auth_client_connection_destroy c w =
  (match request_handler x with
   | Some h => auth_request_handler_unref h
   | None => ret tt
   end ;; auth_client_connection_unref c) (torn_down c x w).
Proof.
  intros H Hfd. unfold auth_client_connection_destroy.
  step_deref H.
  destruct (fd x =? -1) eqn:E; [lia|].
  set (K := (match request_handler x with
   | Some h => auth_request_handler_unref h
   | None => ret tt
   end ;; auth_client_connection_unref c)).
  unfold torn_down, teardown_events, closed_conn.
  destruct w as [hp cl ms lp mh tc cu np nh tr af uf tf].
  destruct x as [xfd xio xrc xpid xuid xv xh [il im ic ife] [ou oc ofe]].
  norm in H. norm.
  destruct xio; run_prims H; f_equal; heap_eq; reflexivity.
Qed.

Lemma destroy_spec w c x :
  heap w !! c = Some x ->
  fd x <> -1 ->
  own_ctx c x = true ->
  (sync_teardown x w = true -> 1 < refcount x) ->
  auth_client_connection_destroy c w = Ok tt (destroyed c x w).
Proof.
  intros H Hfd Hctx Hrc. rewrite (destroy_unfold _ _ _ H Hfd).
  unfold destroyed, destroy_events, count_after_destroy, sync_teardown,
    engine_release_events, own_ctx, torn_down in *.
  destruct w as [hp cl ms lp mh tc cu np nh tr af uf tf].
  norm in H. norm in Hrc. norm.
  destruct (request_handler x) as [h|] eqn:Eh.
  - apply Nat.eqb_eq in Hctx. unfold bind at 1. rewrite handler_unref_spec.
    norm.
    destruct uf as [|[] l].
    + erewrite unref_spec by (norm; apply lookup_insert_eq).
      f_equal. replace (refcount x - 0 - 1) with (refcount x - 1) by lia.
      destruct x; norm. cbn [closed_conn refcount].
      destruct (_ >? 0); norm; heap_eq; reflexivity.
    + rewrite Hctx. specialize (Hrc eq_refl).
      erewrite unref_spec by (norm; apply lookup_insert_eq).
      replace (refcount (closed_conn x) - 1 >? 0) with true
        by (destruct x; cbn [closed_conn refcount] in *; lia).
      erewrite unref_spec by (norm; apply lookup_insert_eq).
      f_equal. destruct x; cbn [closed_conn refcount set_refcount] in *.
      destruct (_ >? 0); norm; heap_eq; reflexivity.
    + erewrite unref_spec by (norm; apply lookup_insert_eq).
      f_equal. replace (refcount x - 0 - 1) with (refcount x - 1) by lia.
      destruct x; norm. cbn [closed_conn refcount].
      destruct (_ >? 0); norm; heap_eq; reflexivity.
  - unfold bind at 1. unfold ret at 1.
    erewrite unref_spec by (norm; apply lookup_insert_eq).
    f_equal. replace (refcount x - 0 - 1) with (refcount x - 1) by lia.
    destruct x; norm. cbn [closed_conn refcount].
    destruct (_ >? 0); norm; heap_eq; reflexivity.
Qed.

Lemma delete_first_not_in c (l : list nat) :
  NoDup l -> c ∉ array_delete_first c l.
Proof.
  induction 1 as [|p l Hp Hnd IH]; cbn [array_delete_first].
  - apply not_elem_of_nil.
  - destruct (Nat.eqb p c) eqn:E.
    + apply Nat.eqb_eq in E. now subst.
    + apply Nat.eqb_neq in E. intros [->|Hin]%elem_of_cons; [now apply E|].
      now apply IH.
Qed.

(** ** The registry and the streams *)

(** ** The registry *)

Lemma delete_first_subset c q (l : list nat) :
  q ∈ array_delete_first c l -> q ∈ l.
Proof.
  induction l as [|p l IH]; cbn [array_delete_first]; [easy|].
  destruct (Nat.eqb p c).
  - intros Hq. now apply list_elem_of_further.
  - intros [->|Hq]%elem_of_cons.
    + apply list_elem_of_here.
    + apply list_elem_of_further. now apply IH.
Qed.

Lemma delete_first_keeps c q (l : list nat) :
  q ∈ l -> q <> c -> q ∈ array_delete_first c l.
Proof.
  induction l as [|p l IH]; cbn [array_delete_first]; [easy|].
  intros [->|Hq]%elem_of_cons Hne.
  - destruct (Nat.eqb p c) eqn:E.
    + apply Nat.eqb_eq in E. congruence.
    + apply list_elem_of_here.
  - destruct (Nat.eqb p c); [exact Hq|].
    apply list_elem_of_further. now apply IH.
Qed.

Lemma delete_first_other c q (l : list nat) :
  NoDup l -> q ∈ array_delete_first c l -> q <> c.
Proof.
  intros Hnd Hq ->. now apply (delete_first_not_in c l Hnd).
Qed.

(** The lookup returns [o] when [o] is registered with pid [p] and every
    other registered connection is an allocated object with another pid. *)
Lemma lookup_from_found l p w o y :
  heap w !! o = Some y ->
  pid y = p ->
  o ∈ l ->
  Forall (fun q => q = o \/ exists z, heap w !! q = Some z /\ pid z <> p) l ->
  lookup_from l p w = Ok (Some o) w.
Proof.
  intros Ho Hp. induction l as [|q l IH]; intros Hin Hall.
  - now apply elem_of_nil in Hin.
  - apply Forall_cons in Hall as [Hq Hall]. cbn [lookup_from].
    destruct Hq as [->|(z & Hz & Hne)].
    + step_deref Ho. replace (pid y =? p) with true by lia. reflexivity.
    + step_deref Hz. replace (pid z =? p) with false by lia.
      apply IH; [|exact Hall].
      apply elem_of_cons in Hin as [->|Hin]; [|exact Hin].
      congruence.
Qed.

Lemma sole_claimant_Forall w o p :
  sole_claimant w o p = true ->
  Forall (fun q => q = o \/ exists z, heap w !! q = Some z /\ pid z <> p)
         (clients w).
Proof.
  unfold sole_claimant. intros Hall. apply Forall_forall. intros q Hq.
  apply list_elem_of_In in Hq.
  pose proof (proj1 (forallb_forall _ _) Hall q Hq) as Hb. cbv beta in Hb.
  apply orb_true_iff in Hb as [Hb|Hb].
  - left. now apply Nat.eqb_eq.
  - right. destruct (heap w !! q) as [z|]; [|discriminate].
    exists z. split; [reflexivity|]. apply negb_true_iff in Hb. lia.
Qed.

Lemma i_stream_read_spec w o y :
  heap w !! o = Some y ->
  i_stream_read o w = Ok (read_ret y) (after_read o y w).
Proof.
  intros H. unfold i_stream_read, after_read, read_ret, read_conn.
  destruct w as [hp cl ms lp mh tc cu np nh tr af uf tf]. norm in H.
  destruct y as [yfd yio yrc ypid yuid yv yh [il im ic ife] yout]. norm.
  destruct ife as [|[r ls] ife]; run_prims H.
  - now rewrite (insert_id _ _ _ H).
  - reflexivity.
Qed.

(** ** The client pid line *)

Lemma read_conn_fields y :
  fd (read_conn y) = fd y /\ refcount (read_conn y) = refcount y /\
  pid (read_conn y) = pid y /\
  request_handler (read_conn y) = request_handler y.
Proof.
  unfold read_conn. destruct y as [? ? ? ? ? ? ? [? ? ? [|[r ls] f]] ?];
    repeat split.
Qed.

Lemma after_read_lookup_ne w o y q :
  q <> o -> heap (after_read o y w) !! q = heap w !! q.
Proof.
  intros Hq. destruct w. unfold after_read. norm.
  now apply lookup_insert_ne.
Qed.

Lemma after_read_lookup w o y :
  heap (after_read o y w) !! o = Some (read_conn y).
Proof. destruct w. unfold after_read. norm. apply lookup_insert_eq. Qed.

Lemma next_line_spec w c x l ls :
  heap w !! c = Some x ->
  i_lines (input x) = l :: ls ->
  i_stream_next_line c w =
  Ok (Some l)
     (set_heap (<[c := set_input (IStream ls (l :: i_mem (input x))
                                    (i_closed (input x)) (i_feed (input x))) x]>
                  (heap w)) w).
Proof.
  intros H Hl. unfold i_stream_next_line. step_deref H. rewrite Hl.
  now rewrite (bind_ok _ _ _ _ _ (modify_ok _ _ _ _ H)).
Qed.

Lemma next_line_none w c x :
  heap w !! c = Some x ->
  i_lines (input x) = [] ->
  i_stream_next_line c w = Ok None w.
Proof.
  intros H Hl. unfold i_stream_next_line. step_deref H. now rewrite Hl.
Qed.

(** Destroying a connection that has no engine. *)
Lemma destroy_unbound w c x :
  heap w !! c = Some x ->
  request_handler x = None ->
  fd x <> -1 ->
  exists w', auth_client_connection_destroy c w = Ok tt w' /\
    clients w' = array_delete_first c (clients w) /\
    next_hid w' = next_hid w /\
    (exists evs, trace w' = trace w ++ evs /\
       count_ev is_handler_create evs = 0%nat /\
       count_ev is_send evs = 0%nat /\
       forall o, o <> c -> count_ev (is_read_of o) evs = 0%nat) /\
    (refcount x = 1 -> heap w' !! c = None) /\
    (forall x', heap w' !! c = Some x' ->
       fd x' = -1 /\ request_handler x' = None) /\
    (forall q, q <> c -> heap w' !! q = heap w !! q).
Proof.
  intros H Hh Hfd.
  assert (Hs : sync_teardown x w = false)
    by (unfold sync_teardown; now rewrite Hh).
  assert (Hctx : own_ctx c x = true) by (unfold own_ctx; now rewrite Hh).
  eexists. split.
  { apply (destroy_spec _ _ _ H Hfd Hctx). rewrite Hs. discriminate. }
  unfold destroyed, destroy_events, count_after_destroy,
    engine_release_events, teardown_events.
  rewrite Hs, Hh.
  destruct w as [hp cl ms lp mh tc cu np nh tr af uf tf]. norm.
  split; [reflexivity|]. split; [reflexivity|].
  split; [|split; [|split]].
  - eexists. split; [reflexivity|].
    destruct (io x), (refcount x - 0 - 1 >? 0); repeat split; reflexivity.
  - intros ->. cbn. apply lookup_delete_eq.
  - intros x'. destruct (refcount x - 0 - 1 >? 0).
    + rewrite lookup_insert_eq. intros [= <-].
      destruct x; cbn in *. now split.
    + now rewrite lookup_delete_eq.
  - intros q Hq. destruct (refcount x - 0 - 1 >? 0).
    + now apply lookup_insert_ne.
    + now apply lookup_delete_ne.
Qed.

(** ** Teardown and release (C2, C3) *)

Lemma teardown_events_no_release c x :
  count_ev (is_release_of c) (teardown_events c x) = 0%nat.
Proof. unfold teardown_events. destruct (io x); reflexivity. Qed.

Lemma engine_release_events_no_release c x :
  count_ev (is_release_of c) (engine_release_events x) = 0%nat.
Proof. unfold engine_release_events. destruct (request_handler x); reflexivity. Qed.

(** C2: destroy never frees the connection itself.  Its synchronous part
    leaves the object allocated with its count untouched and asks for no
    release of the streams or the storage; what follows is the release of
    the engine and one call of unref.  A call of unref on a count [n >= 1]
    frees the input stream, the output stream and the storage exactly when
    [n - 1 = 0]; while the decremented count is positive the object stays
    and nothing is released.  Hence after destroy the object is gone
    exactly when the count reached zero. *)
Theorem destroy_frees_only_through_unref w c x :
  heap w !! c = Some x ->
  0 < refcount x ->
  (exists w1, auth_client_connection_unref c w = Ok tt w1 /\
     if refcount x - 1 =? 0
     then heap w1 !! c = None /\ trace w1 = trace w ++ release_events c
     else heap w1 !! c = Some (set_refcount (refcount x - 1) x) /\
          trace w1 = trace w) /\
  (fd x <> -1 -> own_ctx c x = true ->
   (sync_teardown x w = true -> 1 < refcount x) ->
   heap (torn_down c x w) !! c = Some (closed_conn x) /\
   refcount (closed_conn x) = refcount x /\
   trace (torn_down c x w) = trace w ++ teardown_events c x /\
   count_ev (is_release_of c) (teardown_events c x ++ engine_release_events x) = 0%nat /\
   auth_client_connection_destroy c w =
     (match request_handler x with
      | Some h => auth_request_handler_unref h
      | None => ret tt
      end ;; auth_client_connection_unref c) (torn_down c x w) /\
   exists w', auth_client_connection_destroy c w = Ok tt w' /\
     if count_after_destroy x w =? 0
     then heap w' !! c = None /\
          trace w' = trace w ++ teardown_events c x
                       ++ engine_release_events x ++ release_events c
     else (exists x', heap w' !! c = Some x' /\
             refcount x' = count_after_destroy x w /\ 0 < refcount x') /\
          trace w' = trace w ++ teardown_events c x ++ engine_release_events x).
Proof.
  intros H Hpos. split.
  - eexists. split; [apply (unref_spec _ _ _ H)|].
    destruct w as [hp cl ms lp mh tc cu np nh tr af uf tf]. norm in H.
    destruct (refcount x - 1 =? 0) eqn:E.
    + replace (refcount x - 1 >? 0) with false by lia. norm.
      split; [apply lookup_delete_eq | reflexivity].
    + replace (refcount x - 1 >? 0) with true by lia. norm.
      split; [apply lookup_insert_eq | reflexivity].
  - intros Hfd Hctx Hrc.
    split; [|split; [|split; [|split; [|split]]]].
    + destruct w; unfold torn_down; norm. apply lookup_insert_eq.
    + destruct x; reflexivity.
    + destruct w; unfold torn_down; norm. reflexivity.
    + rewrite count_ev_app, teardown_events_no_release,
        engine_release_events_no_release. reflexivity.
    + apply (destroy_unfold _ _ _ H Hfd).
    + eexists. split; [apply (destroy_spec _ _ _ H Hfd Hctx Hrc)|].
      assert (Hge : 0 <= count_after_destroy x w).
      { unfold count_after_destroy in *.
        destruct (sync_teardown x w); [specialize (Hrc eq_refl)|]; lia. }
      unfold destroyed, destroy_events. norm.
      destruct (count_after_destroy x w =? 0) eqn:E.
      * replace (count_after_destroy x w >? 0) with false by lia.
        split; [apply lookup_delete_eq | reflexivity].
      * replace (count_after_destroy x w >? 0) with true by lia.
        split.
        -- eexists. split; [apply lookup_insert_eq|].
           destruct x; cbn [closed_conn set_refcount refcount]. lia.
        -- now rewrite app_nil_r.
Qed.

(** A bound connection held by the registry and its engine, destroyed
    while the engine tears down at once: the two unrefs take the count
    from 2 to 0 and the second one frees the object. *)
Lemma destroy_frees_only_through_unref_witness :
  let x := ex_active 100 5 2 555 [] [] in
  let w := ex_world [(100%nat, x)] [100%nat] [] [true] [] in
  exists w', auth_client_connection_destroy 100 w = Ok tt w' /\
    heap w' !! 100%nat = None.
Proof.
  intros x w.
  destruct (destroy_frees_only_through_unref w 100%nat x) as [_ Hd];
    [reflexivity | reflexivity |].
  destruct Hd as (_ & _ & _ & _ & _ & w' & Hw' & Hres);
    [discriminate | reflexivity | intros _; reflexivity |].
  exists w'. split; [exact Hw'|].
  change (count_after_destroy x w =? 0) with true in Hres. apply Hres.
Defined.

(** C3: a second destroy of a closed connection changes nothing (no
    further unref, no event).  A first destroy, synchronously: deletes the
    connection from the registry, closes both streams, drops the read
    subscription when there is one, disconnects the socket and marks it
    closed, and releases the engine if and only if one is bound. *)
Theorem destroy_idempotent_and_synchronous w c x :
  heap w !! c = Some x ->
  (fd x = -1 -> auth_client_connection_destroy c w = Ok tt w) /\
  (fd x <> -1 -> own_ctx c x = true ->
   (sync_teardown x w = true -> 1 < refcount x) ->
   exists w', auth_client_connection_destroy c w = Ok tt w' /\
     clients w' = array_delete_first c (clients w) /\
     (NoDup (clients w) -> c ∉ clients w') /\
     trace w' = trace w
       ++ [EvIStreamClose c; EvOStreamClose c]
       ++ (if io x then [EvIoRemove c] else [])
       ++ [EvNetDisconnect (fd x)]
       ++ match request_handler x with
          | Some h => [EvHandlerUnref h]
          | None => []
          end
       ++ (if count_after_destroy x w >? 0 then [] else release_events c) /\
     (forall x', heap w' !! c = Some x' ->
        fd x' = -1 /\ io x' = false /\
        i_closed (input x') = true /\ o_closed (output x') = true /\
        auth_client_connection_destroy c w' = Ok tt w')).
Proof.
  intros H. split; [apply (destroy_closed _ _ _ H)|].
  intros Hfd Hctx Hrc. eexists.
  split; [apply (destroy_spec _ _ _ H Hfd Hctx Hrc)|].
  split; [reflexivity|]. split; [|split].
  - intros Hnd. unfold destroyed. norm. now apply delete_first_not_in.
  - unfold destroyed, destroy_events, teardown_events, engine_release_events.
    norm. now rewrite <- !app_assoc.
  - intros x' Hx'.
    assert (Hx : x' = set_refcount (count_after_destroy x w) (closed_conn x)).
    { unfold destroyed in Hx'. norm in Hx'.
      destruct (count_after_destroy x w >? 0).
      - rewrite lookup_insert_eq in Hx'. congruence.
      - rewrite lookup_delete_eq in Hx'. discriminate. }
    subst x'. destruct x; cbn [closed_conn set_refcount fd io input output
                                 i_closed o_closed].
    repeat split. eapply destroy_closed; [exact Hx'|reflexivity].
Qed.

(** A bound connection with an input batch in progress (count 3) is
    destroyed; the engine tears down later.  The object survives, closed,
    and a second destroy leaves the state as it is. *)
Lemma destroy_idempotent_and_synchronous_witness :
  let x := ex_active 100 5 3 555 [] [] in
  let w := ex_world [(100%nat, x)] [100%nat; 101%nat] [] [false] [] in
  exists w', auth_client_connection_destroy 100 w = Ok tt w' /\
    clients w' = [101%nat] /\
    auth_client_connection_destroy 100 w' = Ok tt w'.
Proof.
  intros x w.
  destruct (destroy_idempotent_and_synchronous w 100%nat x) as [_ Hd];
    [reflexivity|].
  destruct Hd as (w' & Hw' & Hcl & _ & _ & Hx');
    [discriminate | reflexivity | discriminate |].
  exists w'. split; [exact Hw'|]. split; [exact Hcl|].
  assert (Hl : heap w' !! 100%nat
               = Some (set_refcount 2 (closed_conn x))).
  { pose proof (destroy_spec w 100%nat x) as Hs.
    rewrite Hs in Hw'; [|reflexivity|discriminate|reflexivity|discriminate].
    injection Hw' as <-. unfold destroyed. norm.
    change (count_after_destroy x w >? 0) with true.
    cbv iota. apply lookup_insert_eq. }
  apply (Hx' _ Hl).
Defined.

(** ** Backpressure (C5) *)

(** C5: after a reply write, an unsent byte count of 50 KiB or more
    removes the read subscription when there is one (and a smaller count
    leaves it alone); when a flush made progress, an unsent byte count of
    at most a third of 50 KiB (integer division, 17066) with no read
    subscription adds one (and otherwise the subscription is left as it
    is). *)
Theorem backpressure_thresholds w c x :
  heap w !! c = Some x ->
  OUTBUF_THROTTLE_SIZE = 51200 /\ OUTBUF_THROTTLE_SIZE / 3 = 17066 /\
  (forall reply, 1 < refcount x ->
   exists w' x', auth_client_send c reply w = Ok tt w' /\
     heap w' !! c = Some x' /\
     o_used (output x') = used_after x /\
     if used_after x >=? OUTBUF_THROTTLE_SIZE
     then io x' = false /\
          trace w' = trace w ++ [EvSend c (reply ++ String NL "")]
                       ++ (if io x then [EvIoRemove c] else [])
     else io x' = io x /\
          trace w' = trace w ++ [EvSend c (reply ++ String NL "")]) /\
  (0 <= ret_after x ->
   exists w' x', auth_client_output c w = Ok 1 w' /\
     heap w' !! c = Some x' /\
     o_used (output x') = used_after x /\
     if (used_after x <=? OUTBUF_THROTTLE_SIZE / 3) && negb (io x)
     then io x' = true /\
          trace w' = trace w ++ [EvFlush c; EvIoAdd c (fd x)]
     else io x' = io x /\
          trace w' = trace w ++ [EvFlush c]).
Proof.
  intros H. split; [reflexivity|]. split; [reflexivity|].
  destruct w as [hp cl ms lp mh tc cu np nh tr af uf tf].
  destruct x as [xfd xio xrc xpid xuid xv xh xin [ou oc ofe]].
  norm in H. unfold used_after, ret_after. norm. split.
  - intros reply Hrc.
    unfold auth_client_send, i_assert, o_stream_send, o_stream_step,
      o_stream_get_buffer_used_size.
    run_prims H. replace (xrc >? 1) with true by lia. run_prims H.
    destruct ofe as [|[r u] ofe]; run_prims H.
    + destruct (ou >=? OUTBUF_THROTTLE_SIZE); run_prims H.
      * destruct xio; run_prims H; do 2 eexists;
          (split; [reflexivity|]); norm;
          rewrite ?lookup_insert_eq, ?H; (split; [reflexivity|]); norm;
          repeat split; now heap_eq.
      * do 2 eexists. split; [reflexivity|]. norm.
        rewrite H. split; [reflexivity|]. now norm.
    + destruct (u >=? OUTBUF_THROTTLE_SIZE); run_prims H.
      * destruct xio; run_prims H; do 2 eexists;
          (split; [reflexivity|]); norm;
          rewrite ?lookup_insert_eq; (split; [reflexivity|]); norm;
          repeat split; now heap_eq.
      * do 2 eexists. split; [reflexivity|]. norm.
        rewrite lookup_insert_eq. split; [reflexivity|]. now norm.
  - intros Hret.
    unfold auth_client_output, o_stream_flush, o_stream_step,
      o_stream_get_buffer_used_size.
    run_prims H.
    destruct ofe as [|[r u] ofe]; run_prims H.
    + change (0 <? 0) with false. cbv iota. run_prims H.
      destruct ((ou <=? OUTBUF_THROTTLE_SIZE / 3) && negb xio);
        run_prims H; do 2 eexists; (split; [reflexivity|]); norm;
        rewrite ?lookup_insert_eq, ?H; (split; [reflexivity|]); norm;
        repeat split; now heap_eq.
    + replace (r <? 0) with false by lia. run_prims H.
      destruct ((u <=? OUTBUF_THROTTLE_SIZE / 3) && negb xio);
        run_prims H; do 2 eexists; (split; [reflexivity|]); norm;
        rewrite ?lookup_insert_eq; (split; [reflexivity|]); norm;
        repeat split; now heap_eq.
Qed.

(** A reply that leaves exactly 51200 unsent bytes on a subscribed
    connection: the subscription goes. *)
Lemma backpressure_thresholds_witness :
  let x := Conn 5 true 2 555 1 true (Some (Handler 0 100 false))
             (IStream [] [] false []) (OStream 0 false [(3, 51200)]) in
  let w := ex_world [(100%nat, x)] [100%nat] [] [] [] in
  exists w' x', auth_client_send 100 "OK" w = Ok tt w' /\
    heap w' !! 100%nat = Some x' /\ io x' = false.
Proof.
  intros x w.
  destruct (backpressure_thresholds w 100%nat x) as (_ & _ & Hs & _);
    [reflexivity|].
  destruct (Hs "OK"%string) as (w' & x' & Hw' & Hx' & _ & Hio);
    [reflexivity|].
  exists w', x'. split; [exact Hw'|]. split; [exact Hx'|].
  change (used_after x >=? OUTBUF_THROTTLE_SIZE) with true in Hio.
  apply Hio.
Defined.

(** ** Strings *)

Lemma starts_with_app lit rest : starts_with lit (lit ++ rest) = true.
Proof.
  unfold starts_with. induction lit as [|a lit IH]; simpl.
  - now destruct rest.
  - destruct (ascii_dec a a); [exact IH | congruence].
Qed.

Lemma starts_with_inv lit line :
  starts_with lit line = true -> line = (lit ++ skip (String.length lit) line)%string.
Proof.
  unfold starts_with. revert line.
  induction lit as [|a lit IH]; intros line.
  - reflexivity.
  - destruct line as [|b line]; simpl; [discriminate|].
    destruct (ascii_dec a b) as [->|]; [|discriminate].
    intros Hp. change (String b line = String b (lit ++ skip (String.length lit) line)).
    f_equal. now apply IH.
Qed.

Lemma skip_app lit rest : skip (String.length lit) (lit ++ rest) = rest.
Proof. induction lit as [|a lit IH]; cbn; [reflexivity | exact IH]. Qed.

Lemma t_strcut_field s c rest :
  has_char c s = false -> t_strcut (s ++ String c rest) c = s.
Proof.
  induction s as [|a s IH]; cbn [has_char].
  - intros _. change (t_strcut (String c rest) c = EmptyString).
    cbn [t_strcut]. now rewrite Ascii.eqb_refl.
  - intros [Ha Hs]%orb_false_elim.
    change (t_strcut (String a (s ++ String c rest)) c = String a s).
    cbn [t_strcut]. rewrite Ha. f_equal. now apply IH.
Qed.

(** ** Plain decimal numbers *)

Lemma digit_val_range a d :
  digit_val a = Some d ->
  48 <= Z.of_nat (nat_of_ascii a) <= 57 /\ 0 <= d <= 9.
Proof.
  unfold digit_val.
  destruct ((48 <=? Z.of_nat (nat_of_ascii a))
            && (Z.of_nat (nat_of_ascii a) <=? 57)) eqn:E; [|discriminate].
  intros [= <-]. apply andb_prop in E as [E1 E2]. lia.
Qed.

Lemma digits_value_ge s : forall acc, 0 <= acc -> acc <= digits_value acc s.
Proof.
  induction s as [|a s IH]; intros acc Hacc; cbn [digits_value]; [lia|].
  destruct (digit_val a) as [d|] eqn:Ed; [|lia].
  apply digit_val_range in Ed as [_ Hd].
  specialize (IH (10 * acc + d)). lia.
Qed.

(** A digit is neither white space nor a sign. *)
Lemma digit_starts_subject a s d :
  digit_val a = Some d ->
  parse_sign (skip_space (String a s)) = (false, String a s).
Proof.
  intros Hd. apply digit_val_range in Hd as [Hn _].
  assert (Hsp : isspace a = false).
  { unfold isspace. cbv zeta.
    destruct (Nat.eqb_spec (nat_of_ascii a) 32) as [E|_]; [lia|].
    destruct (Nat.leb_spec 9 (nat_of_ascii a)),
             (Nat.leb_spec (nat_of_ascii a) 13); cbn; try reflexivity; lia. }
  cbn [skip_space]. rewrite Hsp. cbn [parse_sign].
  destruct (Ascii.eqb_spec a "-"%char) as [->|_].
  { change (Z.of_nat (nat_of_ascii "-"%char)) with 45 in Hn. lia. }
  destruct (Ascii.eqb_spec a "+"%char) as [->|_].
  { change (Z.of_nat (nat_of_ascii "+"%char)) with 43 in Hn. lia. }
  reflexivity.
Qed.

(** On a plain decimal number that fits an [int], [atoi] returns the
    number. *)
Lemma atoi_plain_decimal a s :
  all_digits (String a s) = true ->
  digits_value 0 (String a s) < 2 ^ 31 ->
  atoi (String a s) = digits_value 0 (String a s).
Proof.
  intros Hall Hv.
  assert (Hd : exists d, digit_val a = Some d).
  { cbn [all_digits] in Hall. destruct (digit_val a) as [d|]; [|discriminate].
    now exists d. }
  destruct Hd as (d & Hd).
  pose proof (digits_value_ge (String a s) 0 ltac:(lia)) as Hge.
  unfold atoi, strtol. rewrite (digit_starts_subject a s d Hd).
  set (v := digits_value 0 (String a s)) in *.
  unfold LONG_MAX, LONG_MIN, to_int.
  replace (v >? 2 ^ 63 - 1) with false by lia.
  replace (v <? - 2 ^ 63) with false by lia.
  rewrite Z.mod_small by lia. lia.
Qed.

Section Handshake.

Variable MAJOR : Z.

(** Where the line states a major version that fits an [int], the test of
    the code is the comparison of that number with the required one. *)
Lemma stated_major_decides line v :
  stated_major line = Some v ->
  v < 2 ^ 31 ->
  (version_mismatch MAJOR line = false <-> v = MAJOR).
Proof.
  unfold stated_major, version_mismatch.
  destruct (starts_with VERSION_KW line); [|discriminate].
  destruct (t_strcut (skip 8 line) TAB) as [|a s]; [discriminate|].
  destruct (all_digits (String a s)) eqn:Hall; [|discriminate].
  intros [= <-] Hv. rewrite (atoi_plain_decimal a s Hall Hv).
  cbn [negb orb]. rewrite negb_false_iff. apply Z.eqb_eq.
Qed.

(** The first line passes the test exactly when it is the keyword, a
    tab, and a field (up to the next tab) that [atoi] reads as the
    required major version. *)
Lemma version_mismatch_iff line :
  version_mismatch MAJOR line = false <->
  exists rest, line = (VERSION_KW ++ rest)%string /\ atoi (t_strcut rest TAB) = MAJOR.
Proof.
  unfold version_mismatch. split.
  - intros [Hk Ha]%orb_false_elim.
    apply negb_false_iff in Hk. apply negb_false_iff in Ha.
    exists (skip 8 line). split; [|lia].
    exact (starts_with_inv VERSION_KW line Hk).
  - intros (rest & -> & Ha).
    rewrite starts_with_app.
    change 8%nat with (String.length VERSION_KW). rewrite skip_app.
    cbn [negb orb]. apply negb_false_iff. lia.
Qed.

Lemma version_line_minor_free major rest :
  has_char TAB major = false ->
  version_mismatch MAJOR (VERSION_KW ++ major ++ String TAB rest)
  = negb (atoi major =? MAJOR).
Proof.
  intros Hm. unfold version_mismatch.
  rewrite starts_with_app.
  change 8%nat with (String.length VERSION_KW). rewrite skip_app.
  now rewrite t_strcut_field.
Qed.

Lemma buffered_lines_spec w c x :
  heap w !! c = Some x ->
  buffered_lines c w = Ok (length (i_lines (input x))) w.
Proof. intros H. unfold buffered_lines. now step_deref H. Qed.

(** The handshake loop stops at a line that ends it. *)
Lemma handshake_loop_stops n w c x line rest w' :
  heap w !! c = Some x ->
  request_handler x = None ->
  i_lines (input x) = line :: rest ->
  handshake_line MAJOR c line
    (set_heap (<[c := line_taken x]> (heap w)) w) = Ok false w' ->
  handshake_loop MAJOR (S n) c w = Ok false w'.
Proof.
  intros H Hh Hl Hline. cbn [handshake_loop]. step_deref H. rewrite Hh.
  rewrite (bind_ok _ _ _ _ _ (next_line_spec _ _ _ _ _ H Hl)).
  unfold line_taken in Hline. rewrite Hl in Hline.
  now rewrite (bind_ok _ _ _ _ _ Hline).
Qed.

(** The read callback of a connection that is still handshaking, when
    its read completes lines and the first of them ends the handshake
    loop: nothing else of the batch is looked at. *)
Lemma input_first_line_stops w c x line rest w' :
  heap w !! c = Some x ->
  request_handler x = None ->
  read_ret x <> 0 -> read_ret x <> -1 -> read_ret x <> -2 ->
  i_lines (input (read_conn x)) = line :: rest ->
  handshake_line MAJOR c line (first_line_state c x w) = Ok false w' ->
  auth_client_input MAJOR c w = Ok tt w'.
Proof.
  intros H Hh H0 H1 H2 Hl Hline. unfold auth_client_input.
  rewrite (bind_ok _ _ _ _ _ (i_stream_read_spec _ _ _ H)).
  replace (read_ret x =? 0) with false by lia.
  replace (read_ret x =? -1) with false by lia.
  replace (read_ret x =? -2) with false by lia.
  pose proof (after_read_lookup w c x) as Hr.
  rewrite (bind_ok _ _ _ _ _ (buffered_lines_spec _ _ _ Hr)).
  pose proof (read_conn_fields x) as (_ & _ & _ & Hf4).
  rewrite (bind_ok _ _ _ false w'); [reflexivity|].
  apply (handshake_loop_stops _ _ _ (read_conn x) line rest);
    [exact Hr | congruence | exact Hl | exact Hline].
Qed.

Lemma first_line_state_fields c x w line rest :
  i_lines (input (read_conn x)) = line :: rest ->
  heap (first_line_state c x w) !! c = Some (line_taken (read_conn x)) /\
  clients (first_line_state c x w) = clients w /\
  next_hid (first_line_state c x w) = next_hid w /\
  trace (first_line_state c x w) = trace w ++ [EvRead c (read_ret x)] /\
  fd (line_taken (read_conn x)) = fd x /\
  refcount (line_taken (read_conn x)) = refcount x /\
  pid (line_taken (read_conn x)) = pid x /\
  version_received (line_taken (read_conn x)) = version_received x /\
  request_handler (line_taken (read_conn x)) = request_handler x.
Proof.
  intros Hl. unfold first_line_state, after_read.
  destruct w as [hp cl ms lp mh tc cu np nh tr af uf tf]. norm.
  rewrite lookup_insert_eq. unfold line_taken. rewrite Hl.
  unfold read_conn.
  destruct x as [? ? ? ? ? ? ? [? ? ? [|[r ls] f]] ?]; now repeat split.
Qed.

Lemma destroyed_unbound_after_read c x w w' line rest pre err :
  i_lines (input (read_conn x)) = line :: rest ->
  destroyed_unbound c (line_taken (read_conn x)) (first_line_state c x w) w'
    pre err ->
  destroyed_unbound c x w w' (EvRead c (read_ret x) :: pre) err.
Proof.
  intros Hl (Hcl & Hnd & Hnh & (evs & Htr & Hc1 & Hc2) & Hfree & Hx').
  destruct (first_line_state_fields c x w line rest Hl)
    as (_ & Fcl & Fnh & Ftr & _ & Frc & _).
  rewrite Fcl in *. rewrite Fnh in *. rewrite Ftr in *. rewrite Frc in *.
  split; [exact Hcl|]. split; [exact Hnd|]. split; [exact Hnh|].
  split; [|split; [exact Hfree | exact Hx']].
  exists evs. split; [|now split].
  rewrite Htr, <- app_assoc. reflexivity.
Qed.

(** A handshake line that logs [err] and destroys the connection. *)
Lemma fatal_line w c x err :
  heap w !! c = Some x ->
  request_handler x = None ->
  fd x <> -1 ->
  exists w',
    (auth_client_connection_destroy c ;; ret false)
      (set_trace (trace w ++ [err]) w) = Ok false w' /\
    destroyed_unbound c x w w' [] err.
Proof.
  intros H Hh Hfd.
  set (w1 := set_trace (trace w ++ [err]) w).
  assert (H1 : heap w1 !! c = Some x) by (destruct w; exact H).
  destruct (destroy_unbound _ _ _ H1 Hh Hfd)
    as (w' & Hw' & Hcl & Hnh & (evs & Htr & Hc1 & Hc2 & _) & Hfree & Hx' & _).
  exists w'. split; [now rewrite (bind_ok _ _ _ _ _ Hw')|].
  subst w1. destruct w as [hp cl ms lp mh tc cu np nh tr af uf tf].
  norm in Hcl. norm in Hnh. norm in Htr. unfold destroyed_unbound. norm.
  split; [exact Hcl|]. split.
  { intros Hnd. rewrite Hcl. now apply delete_first_not_in. }
  split; [exact Hnh|]. split; [|split; [exact Hfree | exact Hx']].
  exists evs. rewrite Htr, <- app_assoc. now repeat split.
Qed.

Lemma version_mismatch_fatal w c x line :
  heap w !! c = Some x ->
  version_received x = false ->
  request_handler x = None ->
  fd x <> -1 ->
  version_mismatch MAJOR line = true ->
  exists w', handshake_line MAJOR c line w = Ok false w' /\
    destroyed_unbound c x w w' [] error_incompatible.
Proof.
  intros H Hv Hh Hfd Hm.
  destruct (fatal_line w c x error_incompatible H Hh Hfd) as (w' & Hw' & Hd).
  exists w'. split; [|exact Hd].
  unfold handshake_line. step_deref H. rewrite Hv, Hm. cbn [negb].
  unfold bind at 1. unfold emit at 1. exact Hw'.
Qed.

(** C4: on the first line of a session (no version received yet), a
    line that is not the VERSION keyword, a tab and a field that [atoi]
    reads as the required major version gets the connection destroyed at
    once: the handshake loop stops, the connection leaves the registry,
    what remains of the object is closed and has no engine, and no engine
    is created; the read callback that found the line returns with that
    done.  On a match the only change to the state is that
    [version_received] is set, whatever follows the major version.  Where
    the field is a plain decimal number below 2^31, what [atoi] reads is
    that number, and the test is the comparison of the stated major
    version with the required one. *)
Theorem first_line_version_check w c x line :
  heap w !! c = Some x ->
  version_received x = false ->
  request_handler x = None ->
  fd x <> -1 ->
  (version_mismatch MAJOR line = false <->
   exists rest, line = (VERSION_KW ++ rest)%string /\
                atoi (t_strcut rest TAB) = MAJOR) /\
  (version_mismatch MAJOR line = true ->
   exists w', handshake_line MAJOR c line w = Ok false w' /\
     destroyed_unbound c x w w' [] error_incompatible) /\
  (version_mismatch MAJOR line = true ->
   forall rest,
     read_ret x <> 0 -> read_ret x <> -1 -> read_ret x <> -2 ->
     i_lines (input (read_conn x)) = line :: rest ->
     exists w', auth_client_input MAJOR c w = Ok tt w' /\
       destroyed_unbound c x w w' [EvRead c (read_ret x)] error_incompatible) /\
  (version_mismatch MAJOR line = false ->
   handshake_line MAJOR c line w =
     Ok true (set_heap (<[c := set_version_received true x]> (heap w)) w)) /\
  (forall major minor,
     has_char TAB major = false -> atoi major = MAJOR ->
     handshake_line MAJOR c (VERSION_KW ++ major ++ String TAB minor) w =
       Ok true (set_heap (<[c := set_version_received true x]> (heap w)) w)) /\
  (forall v, stated_major line = Some v -> v < 2 ^ 31 ->
     (version_mismatch MAJOR line = false <-> v = MAJOR)).
Proof.
  intros H Hv Hh Hfd.
  assert (Hmatch : forall l, version_mismatch MAJOR l = false ->
    handshake_line MAJOR c l w =
      Ok true (set_heap (<[c := set_version_received true x]> (heap w)) w)).
  { intros l Hl. unfold handshake_line. step_deref H.
    rewrite Hv, Hl. cbn [negb].
    now rewrite (bind_ok _ _ _ _ _ (modify_ok _ _ _ _ H)). }
  split; [apply version_mismatch_iff|]. split; [|split; [|split; [|split]]].
  - intros Hm. now apply version_mismatch_fatal.
  - intros Hm rest H0 H1 H2 Hl.
    destruct (first_line_state_fields c x w line rest Hl)
      as (Fh & _ & _ & _ & Ffd & _ & _ & Fv & Fh').
    destruct (version_mismatch_fatal _ c _ line Fh) as (w' & Hw' & Hd);
      [congruence | congruence | congruence | exact Hm |].
    exists w'. split.
    + now apply (input_first_line_stops w c x line rest).
    + eapply destroyed_unbound_after_read; [exact Hl | exact Hd].
  - apply Hmatch.
  - intros major minor Hm Ha. apply Hmatch.
    rewrite version_line_minor_free by exact Hm.
    apply negb_false_iff. lia.
  - intros v. apply stated_major_decides.
Qed.

End Handshake.

(** A fresh connection whose first line announces major version 2 to a
    server that requires 1. *)
Lemma first_line_version_check_witness :
  let line := tabbed "VERSION" (tabbed "2" "0") in
  let x := ex_fresh 5 [] [(12, [line])] in
  let w := ex_world [(100%nat, x)] [100%nat] [] [] [] in
  exists w', auth_client_input 1 100 w = Ok tt w' /\
    clients w' = [] /\ heap w' !! 100%nat = None.
Proof.
  intros line x w.
  destruct (first_line_version_check 1 w 100%nat x line)
    as (_ & _ & Hbad & _); [reflexivity | reflexivity | reflexivity | discriminate |].
  destruct (Hbad eq_refl []) as (w' & Hw' & Hcl & _ & _ & _ & Hfree & _);
    [discriminate | discriminate | discriminate | reflexivity |].
  exists w'. split; [exact Hw'|]. split; [exact Hcl|].
  apply Hfree. reflexivity.
Defined.

(** A first line that states major version 4294967297 to a server that
    requires 1.  The line does not state the required major version, but
    [atoi] reads the field as 1: the line passes, the connection stays
    registered and open, and goes on to wait for its pid. *)
Lemma version_check_accepts_wrapped_major :
  let line := tabbed "VERSION" (tabbed "4294967297" "0") in
  let x := ex_fresh 5 [] [(22, [line])] in
  let w := ex_world [(100%nat, x)] [100%nat] [] [] [] in
  stated_major line = Some 4294967297 /\
  stated_match 1 line = false /\
  exists w' x',
    auth_client_input 1 100 w = Ok tt w' /\
    clients w' = [100%nat] /\
    heap w' !! 100%nat = Some x' /\
    fd x' = 5 /\ i_closed (input x') = false /\
    version_received x' = true /\
    trace w' = [EvRead 100 22].
Proof.
  intros line x w. split; [reflexivity|]. split; [reflexivity|].
  eexists. eexists. split; [vm_compute; reflexivity|].
  split; [reflexivity|]. split; [reflexivity|]. repeat split.
Qed.

(** ** Fatal handshake lines *)

Lemma strtoul_no_number args :
  begins_with_number args = false -> strtoul args = 0.
Proof.
  unfold begins_with_number, strtoul.
  destruct (parse_sign (skip_space args)) as [neg r]. cbn [snd].
  destruct r as [|a r]; cbn [digits_value].
  - intros _. now destruct neg.
  - destruct (digit_val a); [discriminate|]. intros _. now destruct neg.
Qed.

Lemma cpid_zero w c x args :
  heap w !! c = Some x ->
  pid x = 0 ->
  to_uint (strtoul args) = 0 ->
  auth_client_input_cpid c args w
  = Ok false (set_trace (trace w ++ [error_pid_zero]) w).
Proof.
  intros H Hp Hz. unfold auth_client_input_cpid. step_deref H.
  rewrite Hp, Hz. reflexivity.
Qed.

Section Fatal.

Variable MAJOR : Z.

Lemma cpid_zero_fatal w c x args :
  heap w !! c = Some x ->
  version_received x = true ->
  request_handler x = None ->
  pid x = 0 ->
  fd x <> -1 ->
  to_uint (strtoul args) = 0 ->
  exists w', handshake_line MAJOR c (CPID_KW ++ args) w = Ok false w' /\
    destroyed_unbound c x w w' [] error_pid_zero.
Proof.
  intros H Hv Hh Hp Hfd Hz.
  destruct (fatal_line w c x error_pid_zero H Hh Hfd) as (w' & Hw' & Hd).
  exists w'. split; [|exact Hd].
  unfold handshake_line. step_deref H.
  rewrite Hv. cbn [negb]. rewrite starts_with_app.
  change 5%nat with (String.length CPID_KW). rewrite skip_app.
  rewrite (bind_ok _ _ _ _ _ (cpid_zero _ _ _ _ H Hp Hz)).
  exact Hw'.
Qed.

(** C9: for a connection waiting for its client pid, a CPID line whose
    argument [strtoul] and the conversion to [unsigned int] turn into 0
    is fatal: the handshake loop stops, the connection is destroyed
    (out of the registry, closed, freed when only the registry held
    it), no engine is created and nothing is sent; the read callback
    that found the line returns with that done.  The literal "0" is such
    an argument, and so is every argument in which [strtoul] finds no
    decimal number (after the white space and the optional sign it
    skips, no digit follows). *)
Theorem cpid_zero_is_fatal w c x args :
  heap w !! c = Some x ->
  version_received x = true ->
  request_handler x = None ->
  pid x = 0 ->
  fd x <> -1 ->
  to_uint (strtoul "0") = 0 /\
  (begins_with_number args = false -> to_uint (strtoul args) = 0) /\
  (to_uint (strtoul args) = 0 ->
   exists w', handshake_line MAJOR c (CPID_KW ++ args) w = Ok false w' /\
     destroyed_unbound c x w w' [] error_pid_zero) /\
  (to_uint (strtoul args) = 0 ->
   forall rest,
     read_ret x <> 0 -> read_ret x <> -1 -> read_ret x <> -2 ->
     i_lines (input (read_conn x)) = (CPID_KW ++ args)%string :: rest ->
     exists w', auth_client_input MAJOR c w = Ok tt w' /\
       destroyed_unbound c x w w' [EvRead c (read_ret x)] error_pid_zero).
Proof.
  intros H Hv Hh Hp Hfd. split; [reflexivity|]. split; [|split].
  - intros Hn. now rewrite strtoul_no_number.
  - intros Hz. now apply cpid_zero_fatal.
  - intros Hz rest H0 H1 H2 Hl.
    destruct (first_line_state_fields c x w _ rest Hl)
      as (Fh & _ & _ & _ & Ffd & _ & Fp & Fv & Fh').
    destruct (cpid_zero_fatal _ c _ args Fh) as (w' & Hw' & Hd);
      [congruence | congruence | congruence | congruence | exact Hz |].
    exists w'. split.
    + now apply (input_first_line_stops MAJOR w c x (CPID_KW ++ args) rest).
    + eapply destroyed_unbound_after_read; [exact Hl | exact Hd].
Qed.

End Fatal.

(** A waiting connection receives a CPID line without a number. *)
Lemma cpid_zero_is_fatal_witness :
  let x := Conn 5 true 1 0 9 true None
             (IStream [] [] false [(9, [(CPID_KW ++ "abc")%string])])
             (OStream 0 false []) in
  let w := ex_world [(100%nat, x)] [100%nat] [] [] [] in
  exists w', auth_client_input 1 100 w = Ok tt w' /\
    clients w' = [] /\ heap w' !! 100%nat = None.
Proof.
  intros x w.
  destruct (cpid_zero_is_fatal 1 w 100%nat x "abc")
    as (_ & Hn & _ & Hz);
    [reflexivity | reflexivity | reflexivity | reflexivity | discriminate |].
  destruct (Hz (Hn eq_refl) [])
    as (w' & Hw' & Hcl & _ & _ & _ & Hfree & _);
    [discriminate | discriminate | discriminate | reflexivity |].
  exists w'. split; [exact Hw'|]. split; [exact Hcl|].
  apply Hfree. reflexivity.
Defined.


(** The end of a successful [auth_client_input_cpid]. *)
Lemma cpid_binds w c x p (old : option nat) :
  heap w !! c = Some x ->
  (match old with
   | Some _ => emit error_pid_taken ;; ret false
   | None =>
       do x <- deref c;
       modify c (set_refcount (refcount x + 1)) ;;
       do m <- (fun w => Ok (negb (Nat.eqb (masters w) 0)) w);
       do h <- auth_request_handler_create c m;
       modify c (set_request_handler (Some h)) ;;
       auth_request_handler_set h (connect_uid x) p ;;
       modify c (set_pid p) ;;
       ret true
   end) w
  = match old with
    | Some _ => Ok false (set_trace (trace w ++ [error_pid_taken]) w)
    | None => Ok true (bound c x p w)
    end.
Proof.
  intros H. destruct old as [o|]; [reflexivity|].
  destruct w as [hp cl ms lp mh tc cu np nh tr af uf tf]. norm in H.
  unfold auth_request_handler_create, auth_request_handler_set, bound.
  run_prims H. f_equal. now heap_eq.
Qed.

Lemma cpid_duplicate w c x args o y :
  heap w !! c = Some x ->
  pid x = 0 ->
  to_uint (strtoul args) <> 0 ->
  auth_client_connection_lookup (to_uint (strtoul args)) w = Ok (Some o) w ->
  o <> c ->
  heap w !! o = Some y ->
  fd y <> -1 ->
  own_ctx o y = true ->
  1 < refcount y ->
  auth_client_input_cpid c args w =
  if read_ret y =? -1
  then Ok true (bound c x (to_uint (strtoul args))
                  (destroyed o (read_conn y) (after_read o y w)))
  else Ok false (set_trace (trace (after_read o y w) ++ [error_pid_taken])
                   (after_read o y w)).
Proof.
  intros H Hp Hnz Hlook Hoc Ho Hfd Hctx Hrc.
  unfold auth_client_input_cpid. step_deref H.
  rewrite Hp. cbn [Z.eqb i_assert]. unfold bind at 1. unfold ret at 1.
  cbv zeta.
  replace (to_uint (strtoul args) =? 0) with false by lia.
  rewrite (bind_ok _ _ _ _ _ Hlook).
  replace (Nat.eqb o c) with false by (symmetry; now apply Nat.eqb_neq).
  cbn [negb i_assert].
  pose proof (read_conn_fields y) as (Hf1 & Hf2 & Hf3 & Hf4).
  destruct (read_ret y =? -1) eqn:Er.
  - erewrite bind_ok; cycle 1.
    { unfold bind at 1. unfold ret at 1.
      rewrite (bind_ok _ _ _ _ _ (i_stream_read_spec _ _ _ Ho)).
      rewrite Er.
      erewrite bind_ok; [reflexivity|].
      apply destroy_spec.
      - apply after_read_lookup.
      - now rewrite Hf1.
      - unfold own_ctx in *. now rewrite Hf4.
      - intros _. now rewrite Hf2. }
    apply (cpid_binds _ c x _ None).
    destruct (decide (count_after_destroy (read_conn y) (after_read o y w) > 0)).
    + unfold destroyed. norm.
      replace (_ >? 0) with true by lia.
      rewrite lookup_insert_ne by congruence.
      now rewrite after_read_lookup_ne by congruence.
    + unfold destroyed. norm.
      replace (_ >? 0) with false by lia.
      rewrite lookup_delete_ne by congruence.
      now rewrite after_read_lookup_ne by congruence.
  - erewrite bind_ok; cycle 1.
    { unfold bind at 1. unfold ret at 1.
      rewrite (bind_ok _ _ _ _ _ (i_stream_read_spec _ _ _ Ho)).
      rewrite Er. reflexivity. }
    apply (cpid_binds _ c x (to_uint (strtoul args)) (Some o)).
    now rewrite after_read_lookup_ne by congruence.
Qed.

Lemma destroyed_lookup_ne w c x q :
  q <> c -> heap (destroyed c x w) !! q = heap w !! q.
Proof.
  intros Hq. unfold destroyed. norm.
  destruct (count_after_destroy x w >? 0).
  - now apply lookup_insert_ne.
  - now apply lookup_delete_ne.
Qed.

Lemma destroyed_lookup w c x x' :
  heap (destroyed c x w) !! c = Some x' -> fd x' = -1.
Proof.
  unfold destroyed. norm. destruct (count_after_destroy x w >? 0).
  - rewrite lookup_insert_eq. intros [= <-]. now destruct x.
  - now rewrite lookup_delete_eq.
Qed.

Lemma destroy_events_no_read o c x w :
  count_ev (is_read_of o) (destroy_events c x w) = 0%nat.
Proof.
  unfold destroy_events, teardown_events, engine_release_events.
  destruct (io x), (request_handler x), (count_after_destroy x w >? 0);
    reflexivity.
Qed.

Lemma is_read_of_refl o r : is_read_of o (EvRead o r) = true.
Proof. cbn. apply Nat.eqb_refl. Qed.

Section Duplicate.

Variable MAJOR : Z.

(** C1: a connection [c] waiting for its client pid receives a CPID
    line whose nonzero pid [p] is held by another registered, live
    connection [o].  Exactly one read is attempted on the input of [o].
    If it returns -1, [o] is destroyed and leaves the registry, and [c]
    completes the handshake: an engine is bound to it, it holds pid [p]
    and the lookup of [p] finds it.  Otherwise [c] is destroyed, no
    engine is created, and [o] stays registered, unchanged but for what
    the read brought, and the lookup of [p] still finds it. *)
Theorem duplicate_cpid_reconciliation w c x args o y :
  heap w !! c = Some x ->
  version_received x = true ->
  request_handler x = None ->
  pid x = 0 ->
  fd x <> -1 ->
  to_uint (strtoul args) <> 0 ->
  heap w !! o = Some y ->
  pid y = to_uint (strtoul args) ->
  fd y <> -1 ->
  own_ctx o y = true ->
  1 < refcount y ->
  NoDup (clients w) ->
  c ∈ clients w ->
  o ∈ clients w ->
  sole_claimant w o (to_uint (strtoul args)) = true ->
  exists w' evs,
    trace w' = trace w ++ evs /\
    count_ev (is_read_of o) evs = 1%nat /\
    if read_ret y =? -1
    then
      (handshake_line MAJOR c (CPID_KW ++ args) w = Ok true w') /\
      (o ∉ clients w') /\ (c ∈ clients w') /\
      (forall y', heap w' !! o = Some y' -> fd y' = -1) /\
      (exists x' h, heap w' !! c = Some x' /\
         pid x' = to_uint (strtoul args) /\
         request_handler x' = Some h /\ h_ctx h = c /\
         refcount x' = refcount x + 1 /\ fd x' = fd x) /\
      auth_client_connection_lookup (to_uint (strtoul args)) w'
        = Ok (Some c) w'
    else
      (handshake_line MAJOR c (CPID_KW ++ args) w = Ok false w') /\
      (c ∉ clients w') /\ (o ∈ clients w') /\
      (forall x', heap w' !! c = Some x' ->
         fd x' = -1 /\ request_handler x' = None) /\
      (refcount x = 1 -> heap w' !! c = None) /\
      count_ev is_handler_create evs = 0%nat /\
      (exists y', heap w' !! o = Some y' /\
         pid y' = to_uint (strtoul args) /\ fd y' = fd y /\
         refcount y' = refcount y /\
         request_handler y' = request_handler y) /\
      auth_client_connection_lookup (to_uint (strtoul args)) w'
        = Ok (Some o) w'.
Proof.
  intros H Hv Hh Hp Hfd Hnz Ho Hpo Hfdo Hctx Hrc Hnd Hc Hoin Hsole.
  set (p := to_uint (strtoul args)) in *.
  assert (Hoc : o <> c) by (intros ->; rewrite Ho in H; congruence).
  pose proof (sole_claimant_Forall _ _ _ Hsole) as Hall.
  rewrite Forall_forall in Hall.
  assert (Hlook : auth_client_connection_lookup p w = Ok (Some o) w).
  { unfold auth_client_connection_lookup.
    apply (lookup_from_found _ _ _ _ y Ho Hpo Hoin).
    now apply Forall_forall. }
  pose proof (cpid_duplicate w c x args o y H Hp Hnz Hlook Hoc Ho Hfdo
                Hctx Hrc) as Hcpid.
  fold p in Hcpid.
  pose proof (read_conn_fields y) as (Hf1 & Hf2 & Hf3 & Hf4).
  assert (Hline : handshake_line MAJOR c (CPID_KW ++ args) w =
    (do ok <- auth_client_input_cpid c args;
     if ok then ret true
     else (auth_client_connection_destroy c ;; ret false)) w).
  { unfold handshake_line. step_deref H. rewrite Hv. cbn [negb].
    rewrite starts_with_app.
    change 5%nat with (String.length CPID_KW). now rewrite skip_app. }
  destruct (read_ret y =? -1) eqn:Er.
  - (* the old connection is gone *)
    set (w1 := after_read o y w) in *.
    set (w2 := destroyed o (read_conn y) w1) in *.
    exists (bound c x p w2).
    exists ([EvRead o (read_ret y)] ++ destroy_events o (read_conn y) w1
            ++ [EvHandlerCreate (Handler (next_hid w2) c
                                   (negb (Nat.eqb (masters w2) 0)));
                EvHandlerSet (Handler (next_hid w2) c
                                (negb (Nat.eqb (masters w2) 0)))
                  (connect_uid x) p]).
    assert (Hcl : clients (bound c x p w2) = array_delete_first o (clients w))
      by (destruct w; reflexivity).
    assert (Hq : forall q, q <> o -> q <> c ->
              heap (bound c x p w2) !! q = heap w !! q).
    { intros q Hqo Hqc. unfold bound. norm.
      rewrite lookup_insert_ne by congruence.
      subst w2. rewrite destroyed_lookup_ne by exact Hqo.
      subst w1. now apply after_read_lookup_ne. }
    split; [destruct w; unfold bound, w2, destroyed, w1, after_read; norm;
            now rewrite <- !app_assoc|].
    split.
    { rewrite !count_ev_app, destroy_events_no_read. cbn [count_ev].
      rewrite is_read_of_refl. reflexivity. }
    split; [rewrite Hline, (bind_ok _ _ _ _ _ Hcpid); reflexivity|].
    split; [rewrite Hcl; now apply delete_first_not_in|].
    split; [rewrite Hcl; apply delete_first_keeps; [exact Hc | congruence]|].
    split.
    { intros y'. unfold bound. norm.
      rewrite lookup_insert_ne by congruence. apply destroyed_lookup. }
    split.
    { eexists. eexists. unfold bound. norm. rewrite lookup_insert_eq.
      split; [reflexivity|]. destruct x; cbn. now repeat split. }
    unfold auth_client_connection_lookup. rewrite Hcl.
    eapply lookup_from_found.
    + unfold bound. norm. apply lookup_insert_eq.
    + now destruct x.
    + apply delete_first_keeps; [exact Hc | congruence].
    + apply Forall_forall. intros q Hqin.
      pose proof (delete_first_other _ _ _ Hnd Hqin) as Hqo.
      apply delete_first_subset in Hqin.
      destruct (decide (q = c)) as [->|Hqc]; [now left|]. right.
      destruct (Hall q Hqin) as [->|(z & Hz & Hpz)]; [congruence|].
      exists z. split; [|exact Hpz]. now rewrite Hq.
  - (* the old connection wins *)
    set (w1 := after_read o y w) in *.
    set (w1e := set_trace (trace w1 ++ [error_pid_taken]) w1) in *.
    assert (H1 : heap w1e !! c = Some x).
    { subst w1e. destruct w1 eqn:E. norm.
      replace heap0 with (heap w1) by (now rewrite E).
      subst w1. now rewrite after_read_lookup_ne by congruence. }
    destruct (destroy_unbound _ _ _ H1 Hh Hfd)
      as (w' & Hw' & Hcl & _ & (evs & Htr & Hc1 & _ & Hrd) & Hfree & Hx'
          & Hother).
    assert (Hcl' : clients w' = array_delete_first c (clients w))
      by (rewrite Hcl; destruct w; reflexivity).
    assert (Ho' : heap w' !! o = Some (read_conn y)).
    { rewrite Hother by exact Hoc. subst w1e. destruct w1 eqn:E. norm.
      replace heap0 with (heap w1) by (now rewrite E).
      subst w1. apply after_read_lookup. }
    exists w', ([EvRead o (read_ret y); error_pid_taken] ++ evs).
    split.
    { rewrite Htr. subst w1e w1. destruct w; unfold after_read; norm.
      now rewrite <- !app_assoc. }
    split.
    { rewrite count_ev_app, (Hrd o Hoc). cbn [count_ev error_pid_taken].
      rewrite is_read_of_refl. reflexivity. }
    split.
    { rewrite Hline, (bind_ok _ _ _ _ _ Hcpid). cbv iota.
      now rewrite (bind_ok _ _ _ _ _ Hw'). }
    split; [rewrite Hcl'; now apply delete_first_not_in|].
    split; [rewrite Hcl'; apply delete_first_keeps; assumption|].
    split; [exact Hx'|]. split; [exact Hfree|].
    split; [rewrite count_ev_app, Hc1; reflexivity|].
    split; [exists (read_conn y); repeat split; congruence|].
    unfold auth_client_connection_lookup. rewrite Hcl'.
    eapply lookup_from_found; [exact Ho' | congruence | |].
    + apply delete_first_keeps; assumption.
    + apply Forall_forall. intros q Hqin.
      pose proof (delete_first_other _ _ _ Hnd Hqin) as Hqc.
      apply delete_first_subset in Hqin.
      destruct (Hall q Hqin) as [->|(z & Hz & Hpz)]; [now left|]. right.
      destruct (decide (q = o)) as [->|Hqo].
      * exists (read_conn y). split; [exact Ho'|]. congruence.
      * exists z. split; [|exact Hpz].
        rewrite Hother by exact Hqc. subst w1e. destruct w1 eqn:E. norm.
        replace heap0 with (heap w1) by (now rewrite E).
        subst w1. now rewrite after_read_lookup_ne.
Qed.

End Duplicate.

(** Connection 100 holds pid 555 and connection 101 sends [CPID 555]:
    once when the peer of 100 has gone (the coming read on 100 returns
    -1), once when it is still there (the read returns 0). *)
Lemma duplicate_cpid_reconciliation_witness :
  let x := ex_waiting 6 [] in
  let gone := ex_active 100 5 2 555 [] [(-1, [])] in
  let there := ex_active 100 5 2 555 [] [] in
  let w1 := ex_world [(100%nat, gone); (101%nat, x)] [100%nat; 101%nat]
              [] [] [] in
  let w2 := ex_world [(100%nat, there); (101%nat, x)] [100%nat; 101%nat]
              [] [] [] in
  (exists w', handshake_line 1 101 (CPID_KW ++ "555") w1 = Ok true w' /\
     auth_client_connection_lookup 555 w' = Ok (Some 101%nat) w') /\
  (exists w', handshake_line 1 101 (CPID_KW ++ "555") w2 = Ok false w' /\
     auth_client_connection_lookup 555 w' = Ok (Some 100%nat) w').
Proof.
  intros x gone there w1 w2.
  assert (Hnd : NoDup [100%nat; 101%nat]).
  { apply NoDup_cons. split; [|apply NoDup_singleton].
    apply not_elem_of_cons. split; [discriminate | apply not_elem_of_nil]. }
  assert (H101 : 101%nat ∈ [100%nat; 101%nat])
    by apply list_elem_of_further, list_elem_of_here.
  assert (H100 : 100%nat ∈ [100%nat; 101%nat]) by apply list_elem_of_here.
  split.
  - destruct (duplicate_cpid_reconciliation 1 w1 101%nat x "555" 100%nat gone)
      as (w' & evs & _ & _ & Hres);
      [reflexivity | reflexivity | reflexivity | reflexivity | discriminate
      | discriminate | reflexivity | reflexivity | discriminate | reflexivity
      | reflexivity | exact Hnd | exact H101 | exact H100 | reflexivity |].
    change (read_ret gone =? -1) with true in Hres.
    destruct Hres as (Hw' & _ & _ & _ & _ & Hlook).
    exists w'. split; [exact Hw' | exact Hlook].
  - destruct (duplicate_cpid_reconciliation 1 w2 101%nat x "555" 100%nat there)
      as (w' & evs & _ & _ & Hres);
      [reflexivity | reflexivity | reflexivity | reflexivity | discriminate
      | discriminate | reflexivity | reflexivity | discriminate | reflexivity
      | reflexivity | exact Hnd | exact H101 | exact H100 | reflexivity |].
    change (read_ret there =? -1) with false in Hres.
    destruct Hres as (Hw' & _ & _ & _ & _ & _ & _ & Hlook).
    exists w'. split; [exact Hw' | exact Hlook].
Defined.

(** ** Command dispatch (C6) *)

Lemma same_but_output_refl x : same_but_output x x.
Proof. now repeat split. Qed.

Lemma same_but_output_trans x y z :
  same_but_output x y -> same_but_output y z -> same_but_output x z.
Proof.
  unfold same_but_output.
  intros (?&?&?&?&?&?&?) (?&?&?&?&?&?&?). repeat split; congruence.
Qed.

Lemma send_frame w c x s :
  heap w !! c = Some x ->
  1 < refcount x ->
  exists w1, auth_client_send c s w = Ok tt w1 /\ reply_frame c x w w1.
Proof.
  intros H Hrc.
  destruct w as [hp cl ms lp mh tc cu np nh tr af uf tf].
  destruct x as [xfd xio xrc xpid xuid xv xh xin [ou oc ofe]].
  norm in H. norm in Hrc.
  unfold auth_client_send, i_assert, o_stream_send, o_stream_step,
    o_stream_get_buffer_used_size, reply_frame.
  run_prims H. replace (xrc >? 1) with true by lia. run_prims H.
  destruct ofe as [|[r u] ofe]; run_prims H;
    [destruct (ou >=? OUTBUF_THROTTLE_SIZE)
    |destruct (u >=? OUTBUF_THROTTLE_SIZE)];
    run_prims H; try (destruct xio; run_prims H);
    eexists; (split; [reflexivity|]); norm;
    rewrite ?lookup_insert_eq;
    (split; [eexists; split; [first [reflexivity | exact H]|];
             now repeat split|]);
    (split; [reflexivity|]); (split; [reflexivity|]);
    (split; [intros q Hq; now rewrite ?lookup_insert_ne by congruence|]);
    eexists; rewrite <- ?app_assoc; reflexivity.
Qed.

Lemma reply_frame_trans c x x1 w w1 w2 :
  reply_frame c x w w1 ->
  heap w1 !! c = Some x1 ->
  reply_frame c x1 w1 w2 ->
  reply_frame c x w w2.
Proof.
  intros ((x1' & Hx1 & Hs1) & Hc1 & Hu1 & Hq1 & (e1 & Ht1)) Hx1'
         ((x2 & Hx2 & Hs2) & Hc2 & Hu2 & Hq2 & (e2 & Ht2)).
  assert (x1' = x1) by congruence. subst x1'.
  split; [exists x2; split; [exact Hx2|]; eapply same_but_output_trans; eauto|].
  split; [congruence|]. split; [congruence|].
  split; [intros q Hq; rewrite Hq2, Hq1; auto|].
  exists (e1 ++ e2). rewrite Ht2, Ht1. now rewrite app_assoc.
Qed.

Lemma replies_frame c replies : forall w x,
  heap w !! c = Some x ->
  1 < refcount x ->
  exists w1, iter (fun s => auth_callback (Some s) c) replies w = Ok tt w1 /\
    reply_frame c x w w1.
Proof.
  induction replies as [|s replies IH]; intros w x H Hrc.
  - exists w. split; [reflexivity|].
    split; [exists x; split; [exact H | apply same_but_output_refl]|].
    repeat split. exists []. now rewrite app_nil_r.
  - cbn [iter auth_callback].
    destruct (send_frame w c x s H Hrc) as (w1 & Hs & Hf).
    rewrite (bind_ok _ _ _ _ _ Hs).
    pose proof Hf as ((x1 & Hx1 & Hsame) & _).
    destruct (IH w1 x1 Hx1) as (w2 & Hit & Hf2).
    { destruct Hsame as (_ & -> & _). exact Hrc. }
    exists w2. split; [exact Hit|].
    eapply reply_frame_trans; eauto.
Qed.

Lemma engine_auth_frame w c x h ev :
  heap w !! c = Some x ->
  h_ctx h = c ->
  1 < refcount x ->
  exists r w1, (emit ev ;; engine_auth h) w = Ok r w1 /\
    reply_frame c x w w1.
Proof.
  intros H Hctx Hrc. unfold engine_auth. rewrite Hctx.
  unfold bind at 1. unfold emit at 1.
  set (w0 := set_trace (trace w ++ [ev]) w).
  assert (Hf0 : reply_frame c x w w0).
  { subst w0. destruct w. unfold reply_frame. norm.
    split; [exists x; split; [exact H | apply same_but_output_refl]|].
    repeat split. eexists. reflexivity. }
  assert (Hnext : exists r wn, next_auth w0 = Ok r wn /\ reply_frame c x w wn).
  { unfold next_auth. destruct (auth_feed w0) as [|r l] eqn:E.
    - eexists. eexists. split; [reflexivity | exact Hf0].
    - eexists. eexists. split; [reflexivity|].
      destruct Hf0 as ((x0 & Hx0 & Hs0) & Hc0 & Hu0 & Hq0 & (e0 & Ht0)).
      destruct w0. unfold reply_frame. norm. norm in Hx0.
      split; [exists x0; split; assumption|].
      repeat split; try assumption. now exists e0. }
  destruct Hnext as (r & wn & Hn & Hfn).
  rewrite (bind_ok _ _ _ _ _ Hn).
  pose proof Hfn as ((xn & Hxn & Hsn) & _).
  destruct (replies_frame c (snd r) wn xn Hxn) as (w1 & Hit & Hf1).
  { destruct Hsn as (_ & -> & _). exact Hrc. }
  rewrite (bind_ok _ _ _ _ _ Hit).
  exists (fst r), w1. split; [reflexivity|].
  eapply reply_frame_trans; eauto.
Qed.

Lemma handle_line_frame w c x h line :
  heap w !! c = Some x ->
  request_handler x = Some h ->
  h_ctx h = c ->
  1 < refcount x ->
  exists r w1, auth_client_handle_line c line w = Ok r w1 /\
    reply_frame c x w w1.
Proof.
  intros H Hh Hctx Hrc. unfold auth_client_handle_line.
  step_deref H. rewrite Hh.
  destruct (starts_with AUTH_KW line).
  - apply (engine_auth_frame _ _ _ _ _ H Hctx Hrc).
  - destruct (starts_with CONT_KW line).
    + apply (engine_auth_frame _ _ _ _ _ H Hctx Hrc).
    + exists true, w. split; [reflexivity|].
      split; [exists x; split; [exact H | apply same_but_output_refl]|].
      repeat split. exists []. now rewrite app_nil_r.
Qed.

Lemma safe_memset_spec w c x :
  heap w !! c = Some x ->
  safe_memset_line c w = Ok tt (scrubbed c x w).
Proof.
  intros H. unfold safe_memset_line, scrubbed, scrub_conn, scrub_events.
  destruct w as [hp cl ms lp mh tc cu np nh tr af uf tf]. norm in H.
  destruct x as [xfd xio xrc xpid xuid xv xh [il im ic ife] xout]. norm.
  destruct im as [|l m]; run_prims H.
  - now rewrite app_nil_r, (insert_id _ _ _ H).
  - reflexivity.
Qed.

Lemma zeros_all_zero n : all_zero (zeros n) = true.
Proof. induction n as [|n IH]; [reflexivity|]. cbn. exact IH. Qed.

Lemma dispatch_line_spec w c x h line :
  heap w !! c = Some x ->
  request_handler x = Some h ->
  h_ctx h = c ->
  1 < refcount x ->
  exists r w1 x1,
    auth_client_handle_line c line w = Ok r w1 /\
    heap w1 !! c = Some x1 /\ same_but_output x x1 /\
    unref_feed w1 = unref_feed w /\
    dispatch_line c line w =
      (if r then ret true
       else (auth_client_connection_destroy c ;; ret false))
        (scrubbed c x1 w1).
Proof.
  intros H Hh Hctx Hrc.
  destruct (handle_line_frame w c x h line H Hh Hctx Hrc)
    as (r & w1 & Hl & (x1 & Hx1 & Hsame) & _ & Hu & _).
  exists r, w1, x1. repeat (split; [assumption|]).
  unfold dispatch_line. rewrite (bind_ok _ _ _ _ _ Hl).
  rewrite (bind_ok _ _ _ _ _ (safe_memset_spec _ _ _ Hx1)).
  now destruct r.
Qed.

Lemma scrubbed_lookup w c x :
  heap (scrubbed c x w) !! c = Some (scrub_conn x).
Proof. destruct w. unfold scrubbed. norm. apply lookup_insert_eq. Qed.

Lemma scrub_conn_fields x :
  fd (scrub_conn x) = fd x /\ refcount (scrub_conn x) = refcount x /\
  request_handler (scrub_conn x) = request_handler x /\
  i_lines (input (scrub_conn x)) = i_lines (input x).
Proof.
  unfold scrub_conn. destruct x as [? ? ? ? ? ? ? [? [|l m] ? ?] ?];
    repeat split.
Qed.

Lemma scrub_conn_mem x l m :
  i_mem (input x) = l :: m ->
  i_mem (input (scrub_conn x)) = zeros (String.length l) :: m.
Proof.
  unfold scrub_conn. destruct x as [? ? ? ? ? ? ? [? ? ? ?] ?]. cbn.
  now intros ->.
Qed.

(** The loop, one batch: every line it hands out is scrubbed, whether the
    handler accepted it or not, and the connection object outlives the
    loop. *)
Lemma dispatch_loop_scrubs lines : forall n w c x h,
  heap w !! c = Some x ->
  request_handler x = Some h ->
  h_ctx h = c ->
  2 < refcount x ->
  i_lines (input x) = lines ->
  (length lines < n)%nat ->
  exists w' x' k,
    dispatch_loop n c w = Ok tt w' /\
    heap w' !! c = Some x' /\
    (k <= length lines)%nat /\
    i_lines (input x') = drop k lines /\
    i_mem (input x') =
      rev (map (fun l => zeros (String.length l)) (take k lines))
      ++ i_mem (input x) /\
    0 < refcount x'.
Proof.
  induction lines as [|l ls IH]; intros n w c x h H Hh Hctx Hrc Hl Hn.
  - destruct n as [|n]; [cbn in Hn; lia|]. cbn [dispatch_loop].
    rewrite (bind_ok _ _ _ _ _ (next_line_none _ _ _ H Hl)).
    exists w, x, 0%nat. repeat split; [exact H | lia | exact Hl | lia].
  - destruct n as [|n]; [cbn in Hn; lia|]. cbn [dispatch_loop].
    rewrite (bind_ok _ _ _ _ _ (next_line_spec _ _ _ _ _ H Hl)).
    set (xA := set_input _ x).
    set (wA := set_heap _ w).
    assert (HA : heap wA !! c = Some xA)
      by (subst wA; destruct w; norm; apply lookup_insert_eq).
    assert (HhA : request_handler xA = Some h) by (destruct x; exact Hh).
    assert (HrA : refcount xA = refcount x) by (now destruct x).
    destruct (dispatch_line_spec wA c xA h l HA HhA Hctx)
      as (r & w1 & x1 & _ & Hx1 & Hsame & Hu & Hd); [lia|].
    rewrite (bind_ok _ _ _ _ _ Hd)
      || (unfold bind at 1; rewrite Hd).
    destruct Hsame as (Hs1 & Hs2 & _ & _ & _ & Hs6 & Hs7).
    pose proof (scrub_conn_fields x1) as (Hc1 & Hc2 & Hc3 & Hc4).
    pose proof (scrubbed_lookup w1 c x1) as H2.
    assert (Hmem : i_mem (input (scrub_conn x1))
                   = zeros (String.length l) :: i_mem (input x)).
    { apply scrub_conn_mem. rewrite Hs7. subst xA. now destruct x. }
    assert (Hlines : i_lines (input (scrub_conn x1)) = ls).
    { rewrite Hc4, Hs7. subst xA. now destruct x. }
    destruct r.
    + destruct (IH n (scrubbed c x1 w1) c (scrub_conn x1) h H2)
        as (w' & x' & k & Hloop & Hx' & Hk & Hli & Hme & Hpos);
        [congruence | exact Hctx | lia | exact Hlines | cbn in Hn; lia |].
      unfold ret at 1.
      exists w', x', (S k). split; [exact Hloop|]. split; [exact Hx'|].
      split; [cbn; lia|]. split; [exact Hli|]. split; [|exact Hpos].
      rewrite Hme, Hmem. cbn [take map rev]. now rewrite <- app_assoc.
    + assert (Hfin : exists w' x',
                auth_client_connection_destroy c (scrubbed c x1 w1) = Ok tt w' /\
                heap w' !! c = Some x' /\
                i_lines (input x') = i_lines (input (scrub_conn x1)) /\
                i_mem (input x') = i_mem (input (scrub_conn x1)) /\
                0 < refcount x').
      { destruct (decide (fd (scrub_conn x1) = -1)) as [Hfd|Hfd].
        - exists (scrubbed c x1 w1), (scrub_conn x1).
          split; [now apply (destroy_closed _ _ _ H2)|].
          split; [exact H2|]. repeat split. lia.
        - eexists. eexists. split.
          { apply (destroy_spec _ _ _ H2 Hfd).
            - unfold own_ctx. rewrite Hc3, Hs6, HhA.
              now apply Nat.eqb_eq.
            - intros _. lia. }
          assert (Hcnt : 0 < count_after_destroy (scrub_conn x1)
                               (scrubbed c x1 w1)).
          { unfold count_after_destroy. destruct (sync_teardown _ _); lia. }
          unfold destroyed. norm.
          replace (_ >? 0) with true by lia.
          rewrite lookup_insert_eq. split; [reflexivity|].
          destruct (scrub_conn x1) as [? ? ? ? ? ? ? [? ? ? ?] ?].
          cbn [closed_conn set_refcount input i_lines i_mem refcount].
          now repeat split. }
      destruct Hfin as (w' & x' & Hw' & Hx' & Hli & Hme & Hpos).
      rewrite (bind_ok _ _ _ _ _ Hw'). unfold ret.
      exists w', x', 1%nat. split; [reflexivity|]. split; [exact Hx'|].
      split; [cbn; lia|]. split; [now rewrite Hli, Hlines|].
      split; [|exact Hpos]. now rewrite Hme, Hmem.
Qed.

(** The read callback of a bound connection whose read brought data: the
    handshake loop is skipped, the batch takes its reference, the dispatch
    loop runs and the reference is given back. *)
Lemma input_active_unfold MAJOR w c x h :
  heap w !! c = Some x ->
  request_handler x = Some h ->
  read_ret x <> 0 -> read_ret x <> -1 -> read_ret x <> -2 ->
  auth_client_input MAJOR c w =
  (dispatch_loop (S (length (i_lines (input (read_conn x))))) c ;;
   auth_client_connection_unref c) (batch_state c x w).
Proof.
  intros H Hh H0 H1 H2. unfold auth_client_input.
  rewrite (bind_ok _ _ _ _ _ (i_stream_read_spec _ _ _ H)).
  replace (read_ret x =? 0) with false by lia.
  replace (read_ret x =? -1) with false by lia.
  replace (read_ret x =? -2) with false by lia.
  pose proof (after_read_lookup w c x) as Hr.
  pose proof (read_conn_fields x) as (_ & Hf2 & _ & Hf4).
  rewrite (bind_ok _ _ _ _ _ (buffered_lines_spec _ _ _ Hr)).
  rewrite (bind_ok _ _ _ true (after_read c x w)).
  2:{ cbn [handshake_loop]. step_deref Hr. now rewrite Hf4, Hh. }
  step_deref Hr.
  rewrite (bind_ok _ _ _ _ _ (modify_ok _ _ _ _ Hr)).
  rewrite Hf2. fold (batch_state c x w).
  assert (Hb : heap (batch_state c x w) !! c
               = Some (set_refcount (refcount x + 1) (read_conn x))).
  { unfold batch_state. destruct (after_read c x w). norm.
    apply lookup_insert_eq. }
  rewrite (bind_ok _ _ _ _ _ (buffered_lines_spec _ _ _ Hb)).
  now destruct (read_conn x).
Qed.

(** C6: in the dispatch loop of a bound connection, the buffer of each
    line handed out is overwritten with zeros right after the handler has
    returned and before anything else: the loop goes on, or the connection
    is destroyed, from the scrubbed state, whatever the handler returned.
    When the loop of one batch is over, the buffers of all the lines it
    handed out hold zeros only, and the object is still allocated: the
    read callback releases its reference (and with it, possibly, the
    object) only after that. *)
Theorem dispatch_scrubs_every_line w c x h :
  heap w !! c = Some x ->
  request_handler x = Some h ->
  h_ctx h = c ->
  1 < refcount x ->
  (forall l m, i_mem (input x) = l :: m ->
   exists r w1 x1,
     auth_client_handle_line c l w = Ok r w1 /\
     heap w1 !! c = Some x1 /\ i_mem (input x1) = l :: m /\
     (exists x2, heap (scrubbed c x1 w1) !! c = Some x2 /\
        i_mem (input x2) = zeros (String.length l) :: m /\
        all_zero (zeros (String.length l)) = true) /\
     trace (scrubbed c x1 w1)
       = trace w1 ++ [EvSafeMemset c (String.length l)] /\
     dispatch_line c l w =
       if r then Ok true (scrubbed c x1 w1)
       else (auth_client_connection_destroy c ;; ret false)
              (scrubbed c x1 w1)) /\
  (forall n, 2 < refcount x -> (length (i_lines (input x)) < n)%nat ->
   exists w' x' k,
     dispatch_loop n c w = Ok tt w' /\
     heap w' !! c = Some x' /\
     (k <= length (i_lines (input x)))%nat /\
     i_lines (input x') = drop k (i_lines (input x)) /\
     i_mem (input x') =
       rev (map (fun l => zeros (String.length l))
              (take k (i_lines (input x))))
       ++ i_mem (input x) /\
     Forall (fun s => all_zero s = true) (take k (i_mem (input x')))) /\
  (forall MAJOR,
     read_ret x <> 0 -> read_ret x <> -1 -> read_ret x <> -2 ->
     exists w' x' k,
       dispatch_loop (S (length (i_lines (input (read_conn x))))) c
         (batch_state c x w) = Ok tt w' /\
       heap w' !! c = Some x' /\
       i_lines (input x') = drop k (i_lines (input (read_conn x))) /\
       i_mem (input x') =
         rev (map (fun l => zeros (String.length l))
                (take k (i_lines (input (read_conn x)))))
         ++ i_mem (input x) /\
       auth_client_input MAJOR c w = auth_client_connection_unref c w').
Proof.
  intros H Hh Hctx Hrc. split; [|split].
  - intros l m Hm.
    destruct (dispatch_line_spec w c x h l H Hh Hctx)
      as (r & w1 & x1 & Hl & Hx1 & Hsame & _ & Hd); [lia|].
    assert (Hm1 : i_mem (input x1) = l :: m).
    { destruct Hsame as (_ & _ & _ & _ & _ & _ & ->). exact Hm. }
    exists r, w1, x1. split; [exact Hl|]. split; [exact Hx1|].
    split; [exact Hm1|]. split; [|split].
    + exists (scrub_conn x1). split; [apply scrubbed_lookup|].
      split; [now apply scrub_conn_mem | apply zeros_all_zero].
    + destruct w1. unfold scrubbed, scrub_events. norm. now rewrite Hm1.
    + rewrite Hd. now destruct r.
  - intros n Hrc3 Hn.
    destruct (dispatch_loop_scrubs (i_lines (input x)) n w c x h
                H Hh Hctx Hrc3 eq_refl Hn)
      as (w' & x' & k & Hloop & Hx' & Hk & Hli & Hme & _).
    exists w', x', k. repeat (split; [assumption|]).
    rewrite Hme.
    assert (Hlen : length (rev (map (fun l => zeros (String.length l))
                                 (take k (i_lines (input x))))) = k).
    { rewrite length_rev, length_map, length_take. lia. }
    rewrite take_app_length' by (symmetry; exact Hlen).
    apply Forall_forall. intros s Hs.
    apply list_elem_of_In in Hs. apply (proj2 (in_rev _ _)) in Hs.
    apply in_map_iff in Hs as (l0 & <- & _).
    apply zeros_all_zero.
  - intros MAJOR H0 H1 H2.
    set (xb := set_refcount (refcount x + 1) (read_conn x)).
    assert (Hb : heap (batch_state c x w) !! c = Some xb).
    { unfold batch_state. destruct (after_read c x w). norm.
      apply lookup_insert_eq. }
    pose proof (read_conn_fields x) as (_ & Hf2 & _ & Hf4).
    assert (Hxb : request_handler xb = Some h /\ refcount xb = refcount x + 1
                  /\ input xb = input (read_conn x)).
    { subst xb. destruct (read_conn x); cbn in *. now rewrite Hf4. }
    destruct Hxb as (Hb1 & Hb2 & Hb3).
    destruct (dispatch_loop_scrubs (i_lines (input xb))
                (S (length (i_lines (input (read_conn x)))))
                (batch_state c x w) c xb h Hb Hb1 Hctx)
      as (w' & x' & k & Hloop & Hx' & _ & Hli & Hme & _);
      [lia | reflexivity | rewrite Hb3; lia |].
    exists w', x', k. split; [exact Hloop|]. split; [exact Hx'|].
    rewrite Hb3 in Hli, Hme. split; [exact Hli|]. split.
    + rewrite Hme. f_equal. unfold read_conn.
      destruct x as [? ? ? ? ? ? ? [? ? ? [|[r ls] f]] ?]; reflexivity.
    + rewrite (input_active_unfold MAJOR w c x h H Hh H0 H1 H2).
      now rewrite (bind_ok _ _ _ _ _ Hloop).
Qed.

(** A bound, registered connection receives one AUTH line that the
    engine rejects: the loop ends with the connection destroyed and the
    line's buffer zeroed. *)
Lemma dispatch_scrubs_every_line_witness :
  let x := ex_active 100 5 2 555 [] [(12, [tabbed "AUTH" "secret"])] in
  let w := ex_world [(100%nat, x)] [100%nat] [(false, [])] [] [] in
  exists w' x', dispatch_loop 2 100 (batch_state 100 x w) = Ok tt w' /\
    heap w' !! 100%nat = Some x' /\
    i_mem (input x') = [zeros 11].
Proof.
  intros x w.
  destruct (dispatch_scrubs_every_line w 100%nat x (Handler 100 100 false))
    as (_ & _ & Hin); [reflexivity | reflexivity | reflexivity | reflexivity |].
  destruct (Hin 1) as (w' & x' & k & Hw' & Hx' & _ & _ & _);
    [discriminate | discriminate | discriminate |].
  exists w', x'. split; [exact Hw'|]. split; [exact Hx'|].
  assert (Hr : dispatch_loop 2 100 (batch_state 100 x w) = Ok tt w')
    by exact Hw'.
  vm_compute in Hr. injection Hr as <-.
  vm_compute in Hx'. injection Hx' as <-.
  reflexivity.
Defined.

(** ** The timeout sweep (C7, C8) *)

Lemma check_timeouts_quiet w c h :
  quiet_timeouts w = true ->
  auth_request_handler_check_timeouts c h w =
  Ok tt (set_timeout_feed (tail (timeout_feed w))
           (set_trace (trace w ++ [EvCheckTimeouts c h]) w)).
Proof.
  unfold quiet_timeouts, auth_request_handler_check_timeouts, next_timeout,
    bind, emit.
  destruct w as [hp cl ms lp mh tc cu np nh tr af uf tf]. norm.
  destruct tf as [|[|d ds] tf]; cbn [forallb andb]; [reflexivity| |discriminate].
  intros _. reflexivity.
Qed.

Lemma quiet_tail w t :
  quiet_timeouts w = true ->
  quiet_timeouts (set_timeout_feed (tail (timeout_feed w)) (set_trace t w))
  = true.
Proof.
  unfold quiet_timeouts. destruct w. norm.
  destruct timeout_feed0 as [|d tf]; [easy|].
  cbn [forallb tail]. now intros [_ ?]%andb_true_iff.
Qed.

Lemma checks_app w l1 l2 : checks w (l1 ++ l2) = checks w l1 ++ checks w l2.
Proof. unfold checks. apply flat_map_app. Qed.

Lemma checks_cons w c l : checks w (c :: l) = checks w [c] ++ checks w l.
Proof. apply (checks_app w [c] l). Qed.

Lemma checks_one w c :
  checks w [c] = match heap w !! c with
                 | Some x => match request_handler x with
                             | Some h => [EvCheckTimeouts c h]
                             | None => []
                             end
                 | None => []
                 end.
Proof. unfold checks. cbn [flat_map]. apply app_nil_r. Qed.

(** A scan of the slots [mid] of the registry [pre ++ mid ++ rest], with
    no timeout check destroying a connection. *)
Lemma sweep_quiet mid : forall pre rest w,
  clients w = pre ++ mid ++ rest ->
  Forall (fun c => is_Some (heap w !! c)) mid ->
  quiet_timeouts w = true ->
  sweep (length mid) (length pre) w =
  Ok tt (set_timeout_feed
           (drop (length (checks w mid)) (timeout_feed w))
           (set_trace (trace w ++ checks w mid) w)).
Proof.
  induction mid as [|c mid IH]; intros pre rest w Hcl Halive Hq.
  - cbn. destruct w. norm. now rewrite app_nil_r.
  - apply Forall_cons in Halive as [[x Hx] Halive].
    cbn [length sweep].
    assert (Hslot : read_slot (length pre) w = Ok c w).
    { unfold read_slot. rewrite Hcl.
      change ((c :: mid) ++ rest) with (c :: (mid ++ rest)).
      now rewrite list_lookup_middle. }
    rewrite (bind_ok _ _ _ _ _ Hslot). step_deref Hx.
    assert (Hcl' : clients w = (pre ++ [c]) ++ mid ++ rest)
      by (rewrite Hcl, <- app_assoc; reflexivity).
    assert (Hlen : S (length pre) = length (pre ++ [c]))
      by (rewrite length_app; cbn; lia).
    rewrite (checks_cons w c mid).
    rewrite (checks_one w c), Hx.
    destruct (request_handler x) as [h|].
    + rewrite (bind_ok _ _ _ _ _ (check_timeouts_quiet _ c h Hq)).
      rewrite Hlen.
      rewrite (IH (pre ++ [c]) rest).
      * destruct w as [hp cl ms lp mh tc cu np nh tr af uf tf]. norm.
        unfold checks. norm. rewrite <- app_assoc.
        destruct tf as [|d tf]; cbn [tail]; rewrite ?drop_nil; reflexivity.
      * destruct w; exact Hcl'.
      * destruct w; exact Halive.
      * apply quiet_tail, Hq.
    + unfold bind at 1, ret at 1. rewrite Hlen.
      rewrite (IH (pre ++ [c]) rest _ Hcl' Halive Hq). reflexivity.
Qed.

Lemma registered_alive_Forall w :
  registered_alive w = true ->
  Forall (fun c => is_Some (heap w !! c)) (clients w).
Proof.
  unfold registered_alive. intros Hall. apply Forall_forall. intros c Hc.
  apply list_elem_of_In in Hc.
  pose proof (proj1 (forallb_forall _ _) Hall c Hc) as Hb. cbv beta in Hb.
  destruct (heap w !! c); [eauto | discriminate].
Qed.

Lemma count_checks_absent w c l :
  c ∉ l -> count_ev (is_check_of c) (checks w l) = 0%nat.
Proof.
  induction l as [|q l IH]; [reflexivity|].
  intros [Hq Hl]%not_elem_of_cons.
  rewrite (checks_cons w q l).
  rewrite count_ev_app, (IH Hl), checks_one.
  destruct (heap w !! q) as [z|]; [|reflexivity].
  destruct (request_handler z); [|reflexivity].
  cbn. replace (Nat.eqb q c) with false; [reflexivity|].
  symmetry. apply Nat.eqb_neq. congruence.
Qed.

Lemma count_checks_unbound w c x l :
  heap w !! c = Some x -> request_handler x = None ->
  count_ev (is_check_of c) (checks w l) = 0%nat.
Proof.
  intros Hx Hh. induction l as [|q l IH]; [reflexivity|].
  rewrite (checks_cons w q l).
  rewrite count_ev_app, IH, checks_one.
  destruct (heap w !! q) as [z|] eqn:Hz; [|reflexivity].
  destruct (request_handler z) eqn:Hhz; [|reflexivity].
  cbn. destruct (Nat.eqb q c) eqn:E; [|reflexivity].
  apply Nat.eqb_eq in E. subst q. congruence.
Qed.

Lemma count_checks_bound w c x h l :
  heap w !! c = Some x -> request_handler x = Some h ->
  NoDup l -> c ∈ l ->
  count_ev (is_check_of c) (checks w l) = 1%nat /\
  EvCheckTimeouts c h ∈ checks w l.
Proof.
  intros Hx Hh. induction l as [|q l IH]; intros Hnd Hin.
  - now apply elem_of_nil in Hin.
  - apply NoDup_cons in Hnd as [Hq Hnd].
    rewrite (checks_cons w q l).
    rewrite count_ev_app.
    apply elem_of_cons in Hin as [->|Hin].
    + rewrite (count_checks_absent _ _ _ Hq).
      rewrite checks_one, Hx, Hh. cbn.
      rewrite Nat.eqb_refl. split; [reflexivity | apply list_elem_of_here].
    + destruct (IH Hnd Hin) as [Hc He]. rewrite Hc.
      assert (Hne : q <> c) by (intros ->; contradiction).
      split.
      * rewrite checks_one.
        destruct (heap w !! q) as [z|]; [|reflexivity].
        destruct (request_handler z); [|reflexivity].
        cbn. replace (Nat.eqb q c) with false; [reflexivity|].
        symmetry. now apply Nat.eqb_neq.
      * apply elem_of_app. now right.
Qed.

Lemma count_checks_perm w c l l' :
  l ≡ₚ l' ->
  count_ev (is_check_of c) (checks w l) = count_ev (is_check_of c) (checks w l').
Proof.
  induction 1 as [|q l l' _ IH|q q' l|l l' l'' _ IH1 _ IH2].
  - reflexivity.
  - rewrite (checks_cons w q l), (checks_cons w q l').
    now rewrite !count_ev_app, IH.
  - rewrite (checks_cons w q' (q :: l)), (checks_cons w q l),
      (checks_cons w q (q' :: l)), (checks_cons w q' l).
    rewrite !count_ev_app. lia.
  - congruence.
Qed.

Lemma request_timeout_quiet w :
  registered_alive w = true ->
  quiet_timeouts w = true ->
  request_timeout w =
  Ok tt (set_timeout_feed
           (drop (length (checks w (clients w))) (timeout_feed w))
           (set_trace (trace w ++ checks w (clients w)) w)).
Proof.
  intros Ha Hq. unfold request_timeout.
  apply (sweep_quiet (clients w) [] []); [now rewrite app_nil_r| |exact Hq].
  now apply registered_alive_Forall.
Qed.

(** C8: the listener registers the sweep as a timer of 5000 ms.  One
    firing, with no timeout check destroying a connection meanwhile: the
    sweep asks for the timeout check of the engine of each registered
    connection that has one, once, in registry order, and of nothing else;
    the registry and the objects are untouched.  The count per connection
    does not depend on the order of the registry, and the sweep reads the
    registry and the engine bindings as they are when the timer fires. *)
Theorem timer_checks_every_bound_engine_once w :
  registered_alive w = true ->
  quiet_timeouts w = true ->
  (exists w0, auth_client_connections_init w = Ok tt w0 /\
     trace w0 = trace w ++ [EvTimeoutAdd 5000] /\ to_clients w0 = true) /\
  exists w',
    request_timeout w = Ok tt w' /\
    trace w' = trace w ++ checks w (clients w) /\
    clients w' = clients w /\ heap w' = heap w /\
    (forall c x h, NoDup (clients w) -> c ∈ clients w ->
       heap w !! c = Some x -> request_handler x = Some h ->
       count_ev (is_check_of c) (checks w (clients w)) = 1%nat /\
       EvCheckTimeouts c h ∈ checks w (clients w)) /\
    (forall c x, heap w !! c = Some x -> request_handler x = None ->
       count_ev (is_check_of c) (checks w (clients w)) = 0%nat) /\
    (forall c, c ∉ clients w ->
       count_ev (is_check_of c) (checks w (clients w)) = 0%nat) /\
    (forall l c, l ≡ₚ clients w ->
       count_ev (is_check_of c) (checks w l)
       = count_ev (is_check_of c) (checks w (clients w))).
Proof.
  intros Ha Hq. split.
  { eexists. split; [reflexivity|]. split; destruct w; reflexivity. }
  eexists. split; [apply (request_timeout_quiet _ Ha Hq)|].
  split; [destruct w; reflexivity|].
  split; [destruct w; reflexivity|].
  split; [destruct w; reflexivity|].
  split; [|split; [|split]].
  - intros c x h Hnd Hin Hx Hh.
    now apply (count_checks_bound w c x h).
  - intros c x Hx Hh. now apply (count_checks_unbound w c x).
  - intros c Hc. now apply count_checks_absent.
  - intros l c Hp. now apply count_checks_perm.
Qed.

(** Three bound connections and one that is still handshaking. *)
Lemma timer_checks_every_bound_engine_once_witness :
  let w := ex_world [(100%nat, ex_active 100 5 2 1 [] []);
                     (101%nat, ex_active 101 6 2 2 [] []);
                     (102%nat, ex_waiting 7 []);
                     (103%nat, ex_active 103 8 2 3 [] [])]
                    [103%nat; 100%nat; 102%nat; 101%nat] [] [] [] in
  exists w', request_timeout w = Ok tt w' /\
    trace w' = [EvCheckTimeouts 103 (Handler 103 103 false);
                EvCheckTimeouts 100 (Handler 100 100 false);
                EvCheckTimeouts 101 (Handler 101 101 false)].
Proof.
  intros w.
  destruct (timer_checks_every_bound_engine_once w)
    as (_ & w' & Hw' & Htr & _); [reflexivity | reflexivity |].
  exists w'. split; [exact Hw' | exact Htr].
Defined.

(** One firing over four registered connections, three of them bound,
    when the timeout check of the first destroys that connection: the
    registry closes up under the scan, the bound connection 101 moves into
    the slot just visited and gets no timeout check in this firing, though
    it is registered and bound when the timer fires and still is
    afterwards. *)
Lemma timer_misses_engine_after_removal :
  let w := ex_world [(100%nat, ex_active 100 5 2 1 [] []);
                     (101%nat, ex_active 101 6 2 2 [] []);
                     (102%nat, ex_waiting 7 []);
                     (103%nat, ex_active 103 8 2 3 [] [])]
                    [100%nat; 101%nat; 102%nat; 103%nat] [] [] [[100%nat]] in
  registered_alive w = true /\
  101%nat ∈ clients w /\
  request_handler <$> (heap w !! 101%nat)
    = Some (Some (Handler 101 101 false)) /\
  exists w', request_timeout w = Fault (StaleSlot 3) w' /\
    101%nat ∈ clients w' /\
    request_handler <$> (heap w' !! 101%nat)
      = Some (Some (Handler 101 101 false)) /\
    count_ev (is_check_of 100) (trace w') = 1%nat /\
    count_ev (is_check_of 103) (trace w') = 1%nat /\
    count_ev (is_check_of 101) (trace w') = 0%nat.
Proof.
  intros w. split; [reflexivity|].
  split; [apply list_elem_of_further, list_elem_of_here|].
  split; [reflexivity|].
  eexists. split; [vm_compute; reflexivity|].
  split; [apply list_elem_of_here|].
  repeat split.
Qed.

Lemma delete_first_middle c pre suf :
  c ∉ pre -> array_delete_first c (pre ++ c :: suf) = pre ++ suf.
Proof.
  induction pre as [|q pre IH]; cbn [array_delete_first app].
  - intros _. now rewrite Nat.eqb_refl.
  - intros [Hq Hpre]%not_elem_of_cons.
    replace (Nat.eqb q c) with false
      by (symmetry; apply Nat.eqb_neq; congruence).
    now rewrite IH.
Qed.

(** C7, as the code has it: the sweep walks the slots up to the count it
    read before the loop.  While no timeout check destroys a connection,
    every read is inside the array, the scan of the first [k] slots asks
    for the checks of exactly those slots, in order, and the registry is
    what it was.  The scan in destroy deletes the first slot that holds
    the connection and reads no slot after it. *)
Theorem sweep_valid_without_removal w :
  registered_alive w = true ->
  quiet_timeouts w = true ->
  (exists w', request_timeout w = Ok tt w' /\
     clients w' = clients w /\ heap w' = heap w) /\
  (forall k, (k <= length (clients w))%nat ->
     exists wk, sweep k 0 w = Ok tt wk /\
       trace wk = trace w ++ checks w (take k (clients w)) /\
       clients wk = clients w) /\
  (forall c pre suf, c ∉ pre ->
     array_delete_first c (pre ++ c :: suf) = pre ++ suf).
Proof.
  intros Ha Hq. split; [|split].
  - eexists. split; [apply (request_timeout_quiet _ Ha Hq)|].
    split; destruct w; reflexivity.
  - intros k Hk.
    pose proof (sweep_quiet (take k (clients w)) [] (drop k (clients w)) w)
      as Hs.
    rewrite length_take, Nat.min_l in Hs by exact Hk.
    eexists. split.
    + apply Hs; [now rewrite app_nil_l, take_drop| |exact Hq].
      apply Forall_take. now apply registered_alive_Forall.
    + split; destruct w; reflexivity.
  - intros c pre suf Hc. now apply delete_first_middle.
Qed.

Lemma sweep_valid_without_removal_witness :
  let w := ex_world [(100%nat, ex_active 100 5 2 1 [] []);
                     (101%nat, ex_active 101 6 2 2 [] []);
                     (102%nat, ex_active 102 7 2 3 [] [])]
                    [100%nat; 101%nat; 102%nat] [] [] [[]; []] in
  exists w', request_timeout w = Ok tt w' /\
    clients w' = [100%nat; 101%nat; 102%nat].
Proof.
  intros w.
  destruct (sweep_valid_without_removal w)
    as ((w' & Hw' & Hcl & _) & _); [reflexivity | reflexivity |].
  exists w'. split; [exact Hw' | exact Hcl].
Defined.

(** The same three connections when the timeout check of the first one
    destroys that connection: the array shrinks under the scan, the
    connection that moved into slot 0 is never checked, and the last read,
    at index 2, is beyond the array. *)
Lemma sweep_breaks_on_removal :
  let w := ex_world [(100%nat, ex_active 100 5 2 1 [] []);
                     (101%nat, ex_active 101 6 2 2 [] []);
                     (102%nat, ex_active 102 7 2 3 [] [])]
                    [100%nat; 101%nat; 102%nat] [] [] [[100%nat]] in
  registered_alive w = true /\
  exists w', request_timeout w = Fault (StaleSlot 2) w' /\
    clients w' = [101%nat; 102%nat] /\
    request_handler <$> (heap w' !! 101%nat)
      = Some (Some (Handler 101 101 false)) /\
    count_ev (is_check_of 101) (trace w') = 0%nat.
Proof.
  intros w. split; [reflexivity|].
  eexists. split; [vm_compute; reflexivity|].
  repeat split.
Qed.

(** ** Replies and the reference count (C10) *)

(** While a connection is held by someone besides its engine (count
    above 1), a reply goes through. *)
Lemma reply_passes_assertion w c x s :
  heap w !! c = Some x ->
  1 < refcount x ->
  is_ok (auth_callback (Some s) c w) = true.
Proof.
  intros H Hrc. cbn [auth_callback].
  destruct (send_frame w c x s H Hrc) as (w1 & -> & _). reflexivity.
Qed.

(** C10, at the failing input: a client completes the handshake, sends one
    AUTH command and disconnects while the engine is still working on it.
    Destroy gives up the registry's reference and releases the engine,
    which tears down later; the object is left with the engine's reference
    only.  The reply the engine then delivers reaches [auth_client_send]
    with a count of 1 and the assertion [conn->refcount > 1] fails. *)
Theorem reply_after_disconnect_fails_assertion :
  (exists w1 x,
     session_until_disconnect idle_listener = Ok (Some 100%nat) w1 /\
     heap w1 !! 100%nat = Some x /\
     refcount x = 1 /\ fd x = -1 /\
     request_handler x = Some (Handler 0 100 false) /\
     clients w1 = [] /\
     count_ev (fun e => match e with EvFree _ => true | _ => false end)
              (trace w1) = 0%nat /\
     auth_callback (Some (tabbed "OK" "1")) 100 w1
       = Fault (AssertFailed "conn->refcount > 1") w1) /\
  exists w', reply_after_disconnect idle_listener
             = Fault (AssertFailed "conn->refcount > 1") w'.
Proof.
  split.
  - eexists. eexists. split; [vm_compute; reflexivity|].
    split; [vm_compute; reflexivity|].
    repeat split.
  - eexists. vm_compute. reflexivity.
Qed.

(** * Beyond the claims *)

(** ** Accepting a connection *)

Lemma delete_first_last c (l : list nat) :
  c ∉ l -> array_delete_first c (l ++ [c]) = l.
Proof.
  intros Hc. rewrite (delete_first_middle c l [] Hc). apply app_nil_r.
Qed.

Section Create.

Variable MAJOR MINOR : Z.

Lemma create_runs w f ifeed ofeed :
  let c := next_ptr w in
  let uid := to_uint (connect_uid_counter w + 1) in
  let w1 :=
    World (<[c := accepted f uid ifeed ofeed]> (heap w)) (clients w ++ [c])
          (masters w) (listener_pid w) (mech_handshake w) (to_clients w)
          uid (S c) (next_hid w)
          (trace w ++ [EvIoAdd c f;
                       EvSend c (mech_handshake w ++
                                 handshake_text MAJOR MINOR uid (listener_pid w))])
          (auth_feed w) (unref_feed w) (timeout_feed w) in
  auth_client_connection_create MAJOR MINOR f ifeed ofeed w =
  if feed_ret ofeed <? 0
  then (auth_client_connection_destroy c ;; ret None) w1
  else Ok (Some c) w1.
Proof.
  unfold auth_client_connection_create, o_stream_send, o_stream_step,
    accepted, first_output, feed_ret.
  destruct w as [hp cl ms lp mh tc cu np nh tr af uf tf]. norm. cbv zeta.
  unfold bind at 1. norm.
  assert (H : (<[np := Conn f false 1 0 (to_uint (cu + 1)) false None
                        (IStream [] [] false ifeed) (OStream 0 false ofeed)]> hp)
              !! np = Some (Conn f false 1 0 (to_uint (cu + 1)) false None
                        (IStream [] [] false ifeed) (OStream 0 false ofeed)))
    by apply lookup_insert_eq.
  destruct ofeed as [|[r u] ofeed]; run_prims H.
  - change (0 <? 0) with false. cbv iota. f_equal. f_equal; heap_eq; reflexivity.
  - destruct (r <? 0); f_equal; f_equal; heap_eq; reflexivity.
Qed.

(** X1: when the handshake announcement can be written, create returns a
    new object at a fresh address, held by the registry alone (count 1),
    subscribed for reading, with no pid, no version and no engine yet; it
    is appended to the registry, its connect uid is the incremented
    counter (modulo 2^32), the announcement is the mechanism blob followed
    by the VERSION, SPID, CUID and DONE lines, written in one send, and no
    other object changes. *)
Theorem create_registers_connection w f ifeed ofeed :
  0 <= feed_ret ofeed ->
  let c := next_ptr w in
  let uid := to_uint (connect_uid_counter w + 1) in
  exists w',
    auth_client_connection_create MAJOR MINOR f ifeed ofeed w = Ok (Some c) w' /\
    heap w' !! c = Some (accepted f uid ifeed ofeed) /\
    clients w' = clients w ++ [c] /\
    connect_uid_counter w' = uid /\
    next_ptr w' = S c /\
    next_hid w' = next_hid w /\
    trace w' = trace w ++
      [EvIoAdd c f;
       EvSend c (mech_handshake w ++
                 VERSION_KW ++ dec MAJOR ++ String TAB (dec MINOR) ++ String NL
                 ("SPID" ++ String TAB (dec (listener_pid w)) ++ String NL
                 ("CUID" ++ String TAB (dec uid) ++ String NL
                 ("DONE" ++ String NL ""))))] /\
    (forall q, q <> c -> heap w' !! q = heap w !! q).
Proof.
  intros Hr c uid. rewrite create_runs.
  replace (feed_ret ofeed <? 0) with false by lia.
  eexists. split; [reflexivity|]. norm.
  split; [apply lookup_insert_eq|].
  repeat (split; [reflexivity|]).
  intros q Hq. unfold c in Hq. apply lookup_insert_ne. congruence.
Qed.

(** X2: when the announcement cannot be written (the send fails), create
    returns NULL and leaves nothing behind: the registry is what it was,
    the new object has been closed and freed, and the other objects are
    untouched.  The connect uid has been used up all the same. *)
Theorem create_failure_leaves_nothing w f ifeed ofeed :
  feed_ret ofeed < 0 ->
  f <> -1 ->
  next_ptr w ∉ clients w ->
  let c := next_ptr w in
  exists w',
    auth_client_connection_create MAJOR MINOR f ifeed ofeed w = Ok None w' /\
    clients w' = clients w /\
    heap w' !! c = None /\
    (forall q, q <> c -> heap w' !! q = heap w !! q) /\
    connect_uid_counter w' = to_uint (connect_uid_counter w + 1) /\
    next_hid w' = next_hid w /\
    unref_feed w' = unref_feed w /\
    exists sent, trace w' = trace w ++
      [EvIoAdd c f; EvSend c sent; EvIStreamClose c; EvOStreamClose c;
       EvIoRemove c; EvNetDisconnect f;
       EvIStreamUnref c; EvOStreamUnref c; EvFree c].
Proof.
  intros Hr Hf Hfresh c. rewrite create_runs.
  replace (feed_ret ofeed <? 0) with true by lia.
  erewrite bind_ok; cycle 1.
  { eapply (destroy_spec _ (next_ptr w) (accepted f _ ifeed ofeed)).
    - norm. apply lookup_insert_eq.
    - exact Hf.
    - reflexivity.
    - discriminate. }
  eexists. split; [reflexivity|].
  unfold destroyed, destroy_events, count_after_destroy, sync_teardown,
    teardown_events, engine_release_events, release_events, accepted.
  norm. change (1 - 0 - 1 >? 0) with false. cbv iota.
  split; [now apply delete_first_last|].
  split; [apply lookup_delete_eq|].
  split.
  { intros q Hq. unfold c in Hq. rewrite lookup_delete_ne by congruence.
    apply lookup_insert_ne. congruence. }
  repeat (split; [reflexivity|]).
  eexists. rewrite <- app_assoc. reflexivity.
Qed.

End Create.

(** A listener with one connection accepts a second one. *)
Lemma create_registers_connection_witness :
  let w := ex_world [(199%nat, ex_waiting 4 [])] [199%nat] [] [] [] in
  exists w',
    auth_client_connection_create 1 0 5 [] [(40, 0)] w = Ok (Some 200%nat) w' /\
    clients w' = [199%nat; 200%nat].
Proof.
  intros w.
  destruct (create_registers_connection 1 0 w 5 [] [(40, 0)])
    as (w' & Hw' & _ & Hcl & _); [discriminate|].
  exists w'. split; [exact Hw' | exact Hcl].
Defined.

(** The same listener when the peer has already gone and the send fails. *)
Lemma create_failure_leaves_nothing_witness :
  let w := ex_world [(199%nat, ex_waiting 4 [])] [199%nat] [] [] [] in
  exists w',
    auth_client_connection_create 1 0 5 [] [(-1, 0)] w = Ok None w' /\
    clients w' = [199%nat] /\ heap w' !! 200%nat = None.
Proof.
  intros w.
  destruct (create_failure_leaves_nothing 1 0 w 5 [] [(-1, 0)])
    as (w' & Hw' & Hcl & Hfree & _).
  - reflexivity.
  - discriminate.
  - apply not_elem_of_cons. split; [discriminate | apply not_elem_of_nil].
  - exists w'. split; [exact Hw'|]. split; [exact Hcl | exact Hfree].
Defined.

(** ** Lookup by pid *)

Lemma lookup_from_spec l p w :
  Forall (fun c => is_Some (heap w !! c)) l ->
  exists r, lookup_from l p w = Ok r w /\
    match r with
    | Some c =>
        exists pre suf x, l = pre ++ c :: suf /\
          heap w !! c = Some x /\ pid x = p /\
          Forall (fun q => exists z, heap w !! q = Some z /\ pid z <> p) pre
    | None =>
        Forall (fun q => exists z, heap w !! q = Some z /\ pid z <> p) l
    end.
Proof.
  induction l as [|q l IH]; intros Hall.
  - exists None. split; [reflexivity | constructor].
  - apply Forall_cons in Hall as [[z Hz] Hall]. cbn [lookup_from].
    step_deref Hz. destruct (pid z =? p) eqn:E.
    + exists (Some q). split; [reflexivity|].
      exists [], l, z. repeat split; [exact Hz | lia | constructor].
    + destruct (IH Hall) as (r & Hr & Hspec). exists r. split; [exact Hr|].
      assert (Hq : exists z0, heap w !! q = Some z0 /\ pid z0 <> p)
        by (exists z; split; [exact Hz | lia]).
      destruct r as [c|].
      * destruct Hspec as (pre & suf & x & -> & Hx & Hp & Hpre).
        exists (q :: pre), suf, x. repeat split; try assumption.
        now constructor.
      * now constructor.
Qed.

(** X3: on a registry whose entries are allocated, the lookup by pid
    returns without changing anything; its result is the first registered
    connection that holds the pid, and NULL exactly when no registered
    connection holds it. *)
Theorem lookup_returns_first_holder w p :
  registered_alive w = true ->
  exists r, auth_client_connection_lookup p w = Ok r w /\
    match r with
    | Some c =>
        exists pre suf x, clients w = pre ++ c :: suf /\
          heap w !! c = Some x /\ pid x = p /\
          Forall (fun q => exists z, heap w !! q = Some z /\ pid z <> p) pre
    | None =>
        Forall (fun q => exists z, heap w !! q = Some z /\ pid z <> p)
               (clients w)
    end.
Proof.
  intros Ha. unfold auth_client_connection_lookup.
  apply lookup_from_spec. now apply registered_alive_Forall.
Qed.

(** Two connections hold pid 7 (a state the handshake never produces):
    the lookup returns the one registered first. *)
Lemma lookup_returns_first_holder_witness :
  let w := ex_world [(100%nat, ex_active 100 5 2 3 [] []);
                     (101%nat, ex_active 101 6 2 7 [] []);
                     (102%nat, ex_active 102 7 2 7 [] [])]
                    [100%nat; 101%nat; 102%nat] [] [] [] in
  auth_client_connection_lookup 7 w = Ok (Some 101%nat) w /\
  auth_client_connection_lookup 9 w = Ok None w.
Proof.
  intros w.
  destruct (lookup_returns_first_holder w 7) as (r & Hr & _); [reflexivity|].
  destruct (lookup_returns_first_holder w 9) as (r' & Hr' & _); [reflexivity|].
  split.
  - rewrite Hr. assert (E : auth_client_connection_lookup 7 w = Ok r w) by exact Hr.
    vm_compute in E. congruence.
  - rewrite Hr'. assert (E : auth_client_connection_lookup 9 w = Ok r' w) by exact Hr'.
    vm_compute in E. congruence.
Defined.

(** ** Commands *)

Lemma unknown_command_ignored w c x line :
  heap w !! c = Some x ->
  unknown_command line = true ->
  auth_client_handle_line c line w = Ok true w.
Proof.
  intros H [Ha Hc]%andb_true_iff. unfold auth_client_handle_line.
  step_deref H.
  apply negb_true_iff in Ha. apply negb_true_iff in Hc.
  now rewrite Ha, Hc.
Qed.

Lemma dispatch_unknown w c x line :
  heap w !! c = Some x ->
  unknown_command line = true ->
  dispatch_line c line w = Ok true (scrubbed c x w).
Proof.
  intros H Hu. unfold dispatch_line.
  rewrite (bind_ok _ _ _ _ _ (unknown_command_ignored _ _ _ _ H Hu)).
  now rewrite (bind_ok _ _ _ _ _ (safe_memset_spec _ _ _ H)).
Qed.

Lemma unknown_commands_loop lines : forall n w c x,
  heap w !! c = Some x ->
  i_lines (input x) = lines ->
  Forall (fun l => unknown_command l = true) lines ->
  (length lines < n)%nat ->
  dispatch_loop n c w =
  Ok tt (set_trace
           (trace w ++ map (fun l => EvSafeMemset c (String.length l)) lines)
           (set_heap (<[c := drained x (map scrub_of lines)]> (heap w)) w)).
Proof.
  induction lines as [|l ls IH]; intros n w c x H Hl Hall Hn.
  - destruct n as [|n]; [cbn in Hn; lia|]. cbn [dispatch_loop].
    rewrite (bind_ok _ _ _ _ _ (next_line_none _ _ _ H Hl)).
    unfold ret, drained. cbn [map rev app].
    destruct w as [hp cl ms lp mh tc cu np nh tr af uf tf]. norm in H. norm.
    rewrite app_nil_r. f_equal. f_equal.
    destruct x as [? ? ? ? ? ? ? [il im ic ife] ?]. cbn in Hl. subst il.
    norm. symmetry. now apply insert_id.
  - apply Forall_cons in Hall as [Hu Hall].
    destruct n as [|n]; [cbn in Hn; lia|]. cbn [dispatch_loop].
    rewrite (bind_ok _ _ _ _ _ (next_line_spec _ _ _ _ _ H Hl)).
    set (xA := set_input _ x). set (wA := set_heap _ w).
    assert (HA : heap wA !! c = Some xA)
      by (subst wA; destruct w; norm; apply lookup_insert_eq).
    rewrite (bind_ok _ _ _ _ _ (dispatch_unknown _ _ _ _ HA Hu)).
    rewrite (IH n (scrubbed c xA wA) c (scrub_conn xA)).
    + subst wA xA. unfold scrubbed, scrub_events, scrub_conn, drained, scrub_of.
      destruct w as [hp cl ms lp mh tc cu np nh tr af uf tf].
      destruct x as [? ? ? ? ? ? ? [il im ic ife] ?]. cbn in Hl. subst il.
      norm. cbn [map rev]. f_equal. f_equal; heap_eq; reflexivity.
    + apply scrubbed_lookup.
    + subst xA. destruct x as [? ? ? ? ? ? ? [il im ic ife] ?].
      cbn in Hl. subst il. reflexivity.
    + exact Hall.
    + cbn in Hn. lia.
Qed.

(** X4: a batch of lines that are neither AUTH nor CONT commands is
    consumed by the dispatch loop without any effect but the scrubbing:
    every line is handed out and overwritten with zeros, the engine is not
    called (the connection need not even have one), the connection is not
    destroyed and nothing else in the state changes. *)
Theorem unknown_commands_are_only_scrubbed w c x n :
  heap w !! c = Some x ->
  Forall (fun l => unknown_command l = true) (i_lines (input x)) ->
  (length (i_lines (input x)) < n)%nat ->
  exists w',
    dispatch_loop n c w = Ok tt w' /\
    heap w' !! c = Some (drained x (map scrub_of (i_lines (input x)))) /\
    trace w' = trace w ++
      map (fun l => EvSafeMemset c (String.length l)) (i_lines (input x)) /\
    clients w' = clients w /\
    auth_feed w' = auth_feed w /\ unref_feed w' = unref_feed w /\
    (forall q, q <> c -> heap w' !! q = heap w !! q).
Proof.
  intros H Hall Hn. eexists.
  split; [apply (unknown_commands_loop _ n w c x H eq_refl Hall Hn)|].
  destruct w as [hp cl ms lp mh tc cu np nh tr af uf tf]. norm.
  split; [apply lookup_insert_eq|].
  repeat (split; [reflexivity|]).
  intros q Hq. now apply lookup_insert_ne.
Qed.

(** A connection without an engine and two buffered lines: a command of a
    later protocol version and an AUTH keyword without its tab. *)
Lemma unknown_commands_are_only_scrubbed_witness :
  let x := ex_waiting 5 [tabbed "PING" "1"; "AUTH"%string] in
  let w := ex_world [(100%nat, x)] [100%nat] [] [] [] in
  exists w' x',
    dispatch_loop 3 100 w = Ok tt w' /\
    heap w' !! 100%nat = Some x' /\
    i_lines (input x') = [] /\ i_mem (input x') = [zeros 4; zeros 6].
Proof.
  intros x w.
  destruct (unknown_commands_are_only_scrubbed w 100%nat x 3)
    as (w' & Hw' & Hx' & _).
  - reflexivity.
  - repeat constructor.
  - cbn. lia.
  - exists w'. eexists. split; [exact Hw'|]. split; [exact Hx'|].
    split; reflexivity.
Defined.

Lemma sends_app e1 e2 : sends (e1 ++ e2) = sends e1 ++ sends e2.
Proof. apply List.filter_app. Qed.

Lemma send_trace w c x s :
  heap w !! c = Some x ->
  1 < refcount x ->
  exists w1 evs,
    auth_client_send c s w = Ok tt w1 /\
    trace w1 = trace w ++ evs /\ sends evs = [reply_sent c s] /\
    auth_feed w1 = auth_feed w.
Proof.
  intros H Hrc.
  destruct w as [hp cl ms lp mh tc cu np nh tr af uf tf].
  destruct x as [xfd xio xrc xpid xuid xv xh xin [ou oc ofe]].
  norm in H. norm in Hrc.
  unfold auth_client_send, i_assert, o_stream_send, o_stream_step,
    o_stream_get_buffer_used_size, reply_sent.
  run_prims H. replace (xrc >? 1) with true by lia. run_prims H.
  destruct ofe as [|[r u] ofe]; run_prims H;
    [destruct (ou >=? OUTBUF_THROTTLE_SIZE)
    |destruct (u >=? OUTBUF_THROTTLE_SIZE)];
    run_prims H; try (destruct xio; run_prims H);
    eexists; eexists; (split; [reflexivity|]); norm;
    (split; [rewrite <- ?app_assoc; reflexivity|]);
    split; reflexivity.
Qed.

Lemma replies_trace c replies : forall w x,
  heap w !! c = Some x ->
  1 < refcount x ->
  exists w1 evs,
    iter (fun s => auth_callback (Some s) c) replies w = Ok tt w1 /\
    trace w1 = trace w ++ evs /\ sends evs = map (reply_sent c) replies /\
    auth_feed w1 = auth_feed w.
Proof.
  induction replies as [|s replies IH]; intros w x H Hrc.
  - exists w, []. split; [reflexivity|]. rewrite app_nil_r. now repeat split.
  - cbn [iter auth_callback].
    destruct (send_trace w c x s H Hrc) as (w1 & e1 & Hs & Ht1 & Hs1 & Ha1).
    destruct (send_frame w c x s H Hrc) as (w1' & Hs' & (x1 & Hx1 & Hsame) & _).
    assert (w1' = w1) by congruence. subst w1'.
    rewrite (bind_ok _ _ _ _ _ Hs).
    destruct (IH w1 x1 Hx1) as (w2 & e2 & Hit & Ht2 & Hs2 & Ha2).
    { destruct Hsame as (_ & -> & _). exact Hrc. }
    exists w2, (e1 ++ e2). split; [exact Hit|].
    split; [rewrite Ht2, Ht1; now rewrite app_assoc|].
    split; [rewrite sends_app, Hs1, Hs2; reflexivity | congruence].
Qed.

Lemma engine_auth_trace w c x h ev :
  heap w !! c = Some x ->
  h_ctx h = c ->
  1 < refcount x ->
  exists w1 evs,
    (emit ev ;; engine_auth h) w = Ok (fst (engine_answer w)) w1 /\
    trace w1 = trace w ++ ev :: evs /\
    sends evs = map (reply_sent c) (snd (engine_answer w)) /\
    auth_feed w1 = tail (auth_feed w).
Proof.
  intros H Hctx Hrc. unfold engine_auth, engine_answer. rewrite Hctx.
  unfold bind at 1. unfold emit at 1.
  destruct w as [hp cl ms lp mh tc cu np nh tr af uf tf]. norm in H. norm.
  unfold bind at 1. unfold next_auth. norm.
  destruct af as [|r af].
  - cbn [iter snd fst]. unfold bind, ret. eexists. exists [].
    repeat split.
  - norm.
    destruct (replies_trace c (snd r)
                (World hp cl ms lp mh tc cu np nh (tr ++ [ev]) af uf tf) x)
      as (w1 & evs & Hit & Ht & Hs & Ha); [exact H | exact Hrc |].
    rewrite (bind_ok _ _ _ _ _ Hit). unfold ret.
    exists w1, evs. split; [reflexivity|].
    norm in Ht. norm in Ha. rewrite Ht, <- app_assoc.
    now repeat split.
Qed.

(** X5: a line that starts with AUTH and a tab goes to the engine's begin
    entry, one that starts with CONT and a tab to its continue entry, each
    with exactly what follows the tab.  The handler returns what the engine
    returned, and the replies the engine delivers meanwhile are written to
    the connection in order, each followed by a newline, and nothing else
    is written. *)
Theorem commands_reach_the_engine w c x h args :
  heap w !! c = Some x ->
  request_handler x = Some h ->
  h_ctx h = c ->
  1 < refcount x ->
  (exists w1 evs,
     auth_client_handle_line c (AUTH_KW ++ args) w
       = Ok (fst (engine_answer w)) w1 /\
     trace w1 = trace w ++ EvAuthBegin h args :: evs /\
     sends evs = map (reply_sent c) (snd (engine_answer w)) /\
     auth_feed w1 = tail (auth_feed w)) /\
  (exists w1 evs,
     auth_client_handle_line c (CONT_KW ++ args) w
       = Ok (fst (engine_answer w)) w1 /\
     trace w1 = trace w ++ EvAuthContinue h args :: evs /\
     sends evs = map (reply_sent c) (snd (engine_answer w)) /\
     auth_feed w1 = tail (auth_feed w)).
Proof.
  intros H Hh Hctx Hrc. split.
  - unfold auth_client_handle_line. step_deref H. rewrite Hh.
    rewrite starts_with_app.
    change 5%nat with (String.length AUTH_KW). rewrite skip_app.
    now apply (engine_auth_trace w c x h).
  - unfold auth_client_handle_line. step_deref H. rewrite Hh.
    change (starts_with AUTH_KW (CONT_KW ++ args)) with false. cbv iota.
    rewrite starts_with_app.
    change 5%nat with (String.length CONT_KW). rewrite skip_app.
    now apply (engine_auth_trace w c x h).
Qed.

(** The engine fails a request with two reply lines. *)
Lemma commands_reach_the_engine_witness :
  let x := ex_active 100 5 3 555 [] [] in
  let w := ex_world [(100%nat, x)] [100%nat]
             [(false, ["FAIL"%string; "BYE"%string])] [] [] in
  exists w1,
    auth_client_handle_line 100 (tabbed "AUTH" "1") w = Ok false w1 /\
    trace w1 = [EvAuthBegin (Handler 100 100 false) "1";
                reply_sent 100 "FAIL"; reply_sent 100 "BYE"].
Proof.
  intros x w.
  destruct (commands_reach_the_engine w 100%nat x (Handler 100 100 false) "1")
    as ((w1 & evs & Hw1 & _) & _);
    [reflexivity | reflexivity | reflexivity | reflexivity |].
  exists w1. split; [exact Hw1|].
  assert (E : auth_client_handle_line 100 (tabbed "AUTH" "1") w = Ok false w1)
    by exact Hw1.
  vm_compute in E. injection E as <-. reflexivity.
Defined.

(** ** What a read brings *)

Lemma destroy_events_no_error c x w :
  count_ev is_error (destroy_events c x w) = 0%nat.
Proof.
  unfold destroy_events, teardown_events, engine_release_events.
  destruct (io x), (request_handler x), (count_after_destroy x w >? 0);
    reflexivity.
Qed.

Lemma destroy_events_no_io_add c x w :
  count_ev is_io_add (destroy_events c x w) = 0%nat.
Proof.
  unfold destroy_events, teardown_events, engine_release_events.
  destruct (io x), (request_handler x), (count_after_destroy x w >? 0);
    reflexivity.
Qed.

Lemma sync_teardown_bound x w :
  sync_teardown x w = true -> request_handler x <> None.
Proof. unfold sync_teardown. now destruct (request_handler x). Qed.

Lemma heap_set_trace t w : heap (set_trace t w) = heap w.
Proof. now destruct w. Qed.

Section Reads.

Variable MAJOR : Z.

(** X6: what the read callback does with the result of its read on a live
    connection.  0 (nothing new): it returns at once and looks at no line,
    buffered or not.  -1 (the peer is gone): the connection is destroyed
    and nothing is logged.  -2 (the line buffer is full): an error is
    logged and the connection is destroyed.  In the last two cases no line
    is handed out and the engine gets no command. *)
Theorem read_result_decides w c x :
  heap w !! c = Some x ->
  fd x <> -1 ->
  own_ctx c x = true ->
  (request_handler x <> None -> 1 < refcount x) ->
  (read_ret x = 0 ->
   auth_client_input MAJOR c w = Ok tt (after_read c x w)) /\
  (read_ret x = -1 ->
   auth_client_input MAJOR c w
     = Ok tt (destroyed c (read_conn x) (after_read c x w)) /\
   trace (destroyed c (read_conn x) (after_read c x w))
     = trace w ++ EvRead c (-1)
         :: destroy_events c (read_conn x) (after_read c x w) /\
   count_ev is_error (destroy_events c (read_conn x) (after_read c x w))
     = 0%nat) /\
  (read_ret x = -2 ->
   let w1 := set_trace (trace (after_read c x w) ++ [error_too_long])
               (after_read c x w) in
   auth_client_input MAJOR c w = Ok tt (destroyed c (read_conn x) w1) /\
   trace (destroyed c (read_conn x) w1)
     = trace w ++ EvRead c (-2) :: error_too_long
         :: destroy_events c (read_conn x) w1) /\
  (read_ret x = 0 \/ read_ret x = -1 \/ read_ret x = -2 ->
   exists w', auth_client_input MAJOR c w = Ok tt w' /\
     auth_feed w' = auth_feed w /\
     forall x', heap w' !! c = Some x' ->
       i_lines (input x') = i_lines (input (read_conn x)) /\
       i_mem (input x') = i_mem (input x)).
Proof.
  intros H Hfd Hctx Hrc.
  pose proof (read_conn_fields x) as (Hf1 & Hf2 & Hf3 & Hf4).
  pose proof (after_read_lookup w c x) as Hr.
  assert (Hctx' : own_ctx c (read_conn x) = true)
    by (unfold own_ctx in *; now rewrite Hf4).
  assert (Hin : forall e,
    let w1 := set_trace (trace (after_read c x w) ++ e) (after_read c x w) in
    auth_client_connection_destroy c w1
      = Ok tt (destroyed c (read_conn x) w1)).
  { intros e w1. apply destroy_spec.
    - subst w1. now rewrite heap_set_trace.
    - now rewrite Hf1.
    - exact Hctx'.
    - intros Hs. rewrite Hf2. apply Hrc. rewrite <- Hf4.
      now apply (sync_teardown_bound _ w1). }
  assert (Hnil : set_trace (trace (after_read c x w) ++ []) (after_read c x w)
                 = after_read c x w)
    by (destruct (after_read c x w); norm; now rewrite app_nil_r).
  assert (H0 : read_ret x = 0 ->
    auth_client_input MAJOR c w = Ok tt (after_read c x w)).
  { intros E. unfold auth_client_input.
    rewrite (bind_ok _ _ _ _ _ (i_stream_read_spec _ _ _ H)).
    now rewrite E. }
  assert (H1 : read_ret x = -1 ->
    auth_client_input MAJOR c w
      = Ok tt (destroyed c (read_conn x) (after_read c x w))).
  { intros E. unfold auth_client_input.
    rewrite (bind_ok _ _ _ _ _ (i_stream_read_spec _ _ _ H)).
    rewrite E. cbn [Z.eqb]. specialize (Hin []). cbv zeta in Hin.
    now rewrite Hnil in Hin. }
  assert (H2 : read_ret x = -2 ->
    auth_client_input MAJOR c w
      = Ok tt (destroyed c (read_conn x)
                 (set_trace (trace (after_read c x w) ++ [error_too_long])
                    (after_read c x w)))).
  { intros E. unfold auth_client_input.
    rewrite (bind_ok _ _ _ _ _ (i_stream_read_spec _ _ _ H)).
    rewrite E. cbn [Z.eqb]. unfold bind at 1, emit at 1.
    apply (Hin [error_too_long]). }
  assert (Hfr : forall w1 x',
    heap w1 !! c = Some (read_conn x) ->
    heap (destroyed c (read_conn x) w1) !! c = Some x' ->
    i_lines (input x') = i_lines (input (read_conn x)) /\
    i_mem (input x') = i_mem (input x)).
  { intros w1 x' _. unfold destroyed. norm.
    destruct (count_after_destroy (read_conn x) w1 >? 0).
    - rewrite lookup_insert_eq. intros [= <-]. unfold read_conn.
      destruct x as [? ? ? ? ? ? ? [? ? ? [|[r ls] f]] ?]; now split.
    - now rewrite lookup_delete_eq. }
  split; [exact H0|]. split; [|split].
  - intros E. split; [now apply H1|]. split.
    + unfold destroyed, after_read. rewrite E. destruct w. norm.
      now rewrite <- app_assoc.
    + apply destroy_events_no_error.
  - intros E w1. split; [now apply H2|].
    subst w1. unfold destroyed, after_read. rewrite E. destruct w. norm.
    now rewrite <- !app_assoc.
  - intros [E|[E|E]].
    + exists (after_read c x w). split; [now apply H0|].
      split; [destruct w; reflexivity|].
      intros x'. rewrite Hr. intros [= <-]. split; [reflexivity|].
      unfold read_conn.
      destruct x as [? ? ? ? ? ? ? [? ? ? [|[r ls] f]] ?]; reflexivity.
    + eexists. split; [now apply H1|].
      split; [destruct w; reflexivity|].
      intros x'. now apply Hfr.
    + eexists. split; [now apply H2|].
      split; [destruct w; reflexivity|].
      intros x'. apply Hfr. now rewrite heap_set_trace.
Qed.

End Reads.

(** A bound connection whose peer has gone, with a command still in its
    buffer: the read callback destroys the connection and the command
    never reaches the engine. *)
Lemma read_result_decides_witness :
  let x := ex_active 100 5 2 555 [tabbed "AUTH" "1"] [(-1, [])] in
  let w := ex_world [(100%nat, x)] [100%nat] [] [] [] in
  exists w', auth_client_input 1 100 w = Ok tt w' /\
    clients w' = [] /\
    trace w' = [EvRead 100 (-1); EvIStreamClose 100; EvOStreamClose 100;
                EvIoRemove 100; EvNetDisconnect 5;
                EvHandlerUnref (Handler 100 100 false)].
Proof.
  intros x w.
  destruct (read_result_decides 1 w 100%nat x) as (_ & Hgone & _);
    [reflexivity | discriminate | reflexivity | intros _; reflexivity |].
  destruct (Hgone eq_refl) as (Hw' & _).
  eexists. split; [exact Hw'|]. split; reflexivity.
Defined.

(** ** Handshake lines *)

Section Waiting.

Variable MAJOR : Z.

Lemma handshake_line_passed_over w c x line :
  heap w !! c = Some x ->
  version_received x = true ->
  starts_with CPID_KW line = false ->
  handshake_line MAJOR c line w = Ok true w.
Proof.
  intros H Hv Hl. unfold handshake_line. step_deref H.
  now rewrite Hv, Hl.
Qed.

Lemma handshake_loop_passes_over lines : forall n w x c,
  heap w !! c = Some x ->
  version_received x = true ->
  request_handler x = None ->
  i_lines (input x) = lines ->
  Forall (fun l => starts_with CPID_KW l = false) lines ->
  (length lines < n)%nat ->
  handshake_loop MAJOR n c w =
  Ok false (set_heap (<[c := drained x lines]> (heap w)) w).
Proof.
  induction lines as [|l ls IH]; intros n w x c H Hv Hh Hl Hall Hn.
  - destruct n as [|n]; [cbn in Hn; lia|]. cbn [handshake_loop].
    step_deref H. rewrite Hh.
    rewrite (bind_ok _ _ _ _ _ (next_line_none _ _ _ H Hl)).
    unfold ret, drained. cbn [rev app].
    destruct w as [hp cl ms lp mh tc cu np nh tr af uf tf]. norm in H. norm.
    f_equal. f_equal.
    destruct x as [? ? ? ? ? ? ? [il im ic ife] ?]. cbn in Hl. subst il.
    norm. symmetry. now apply insert_id.
  - apply Forall_cons in Hall as [Hu Hall].
    destruct n as [|n]; [cbn in Hn; lia|]. cbn [handshake_loop].
    step_deref H. rewrite Hh.
    rewrite (bind_ok _ _ _ _ _ (next_line_spec _ _ _ _ _ H Hl)).
    set (xA := set_input _ x). set (wA := set_heap _ w).
    assert (HA : heap wA !! c = Some xA)
      by (subst wA; destruct w; norm; apply lookup_insert_eq).
    assert (HvA : version_received xA = true) by (now destruct x).
    rewrite (bind_ok _ _ _ _ _ (handshake_line_passed_over _ _ _ _ HA HvA Hu)).
    rewrite (IH n wA xA c HA HvA).
    + subst wA xA. unfold drained.
      destruct w as [hp cl ms lp mh tc cu np nh tr af uf tf].
      destruct x as [? ? ? ? ? ? ? [il im ic ife] ?]. cbn in Hl. subst il.
      norm. cbn [rev]. rewrite <- app_assoc. cbn [app].
      f_equal. f_equal. now heap_eq.
    + now destruct x.
    + subst xA. destruct x as [? ? ? ? ? ? ? [il im ic ife] ?].
      cbn in Hl. subst il. reflexivity.
    + exact Hall.
    + cbn in Hn. lia.
Qed.

(** X7: a connection that has passed the version check and waits for its
    client pid passes over every line that does not start with CPID and a
    tab (a repeated VERSION line included): the handshake loop hands these
    lines out one after the other and changes nothing else, the read
    callback returns when the buffer is empty, and the lines stay in the
    buffer as they came (the handshake loop scrubs nothing). *)
Theorem waiting_connection_passes_over_lines w c x :
  heap w !! c = Some x ->
  version_received x = true ->
  request_handler x = None ->
  (forall n,
     Forall (fun l => starts_with CPID_KW l = false) (i_lines (input x)) ->
     (length (i_lines (input x)) < n)%nat ->
     handshake_loop MAJOR n c w =
     Ok false (set_heap (<[c := drained x (i_lines (input x))]> (heap w)) w)) /\
  (read_ret x <> 0 -> read_ret x <> -1 -> read_ret x <> -2 ->
   Forall (fun l => starts_with CPID_KW l = false)
          (i_lines (input (read_conn x))) ->
   let w1 := after_read c x w in
   auth_client_input MAJOR c w =
   Ok tt (set_heap (<[c := drained (read_conn x)
                             (i_lines (input (read_conn x)))]> (heap w1)) w1)).
Proof.
  intros H Hv Hh. split.
  - intros n Hall Hn.
    now apply (handshake_loop_passes_over (i_lines (input x)) n w x c).
  - intros H0 H1 H2 Hall w1. unfold auth_client_input.
    rewrite (bind_ok _ _ _ _ _ (i_stream_read_spec _ _ _ H)).
    replace (read_ret x =? 0) with false by lia.
    replace (read_ret x =? -1) with false by lia.
    replace (read_ret x =? -2) with false by lia.
    pose proof (after_read_lookup w c x) as Hr.
    pose proof (read_conn_fields x) as (_ & _ & _ & Hf4).
    rewrite (bind_ok _ _ _ _ _ (buffered_lines_spec _ _ _ Hr)).
    assert (Hv' : version_received (read_conn x) = true).
    { unfold read_conn.
      destruct x as [? ? ? ? ? ? ? [? ? ? [|[r ls] f]] ?]; exact Hv. }
    assert (Hloop : handshake_loop MAJOR
                      (S (length (i_lines (input (read_conn x))))) c
                      (after_read c x w)
                    = Ok false (set_heap
                        (<[c := drained (read_conn x)
                                  (i_lines (input (read_conn x)))]>
                           (heap (after_read c x w))) (after_read c x w))).
    { apply (handshake_loop_passes_over _ _ _ (read_conn x) c Hr Hv');
        [congruence | reflexivity | exact Hall | lia]. }
    now rewrite (bind_ok _ _ _ _ _ Hloop).
Qed.

(** X8: a CPID line with a nonzero pid that no registered connection
    holds completes the handshake: the connection takes one more reference
    for the engine, a new engine is created with the connection as its
    callback context, with the master relay callback exactly when the
    listener has master peers, and is told the connect uid and the pid;
    the pid is stored.  No read is attempted on any connection, no other
    object and no registry slot changes, and the handshake loop goes on to
    find the engine bound. *)
Theorem fresh_cpid_binds_engine w c x args :
  heap w !! c = Some x ->
  version_received x = true ->
  request_handler x = None ->
  pid x = 0 ->
  to_uint (strtoul args) <> 0 ->
  no_claimant w (to_uint (strtoul args)) = true ->
  let p := to_uint (strtoul args) in
  let h := Handler (next_hid w) c (negb (Nat.eqb (masters w) 0)) in
  exists w',
    handshake_line MAJOR c (CPID_KW ++ args) w = Ok true w' /\
    heap w' !! c = Some (set_pid p (set_request_handler (Some h)
                                      (set_refcount (refcount x + 1) x))) /\
    trace w' = trace w ++ [EvHandlerCreate h; EvHandlerSet h (connect_uid x) p] /\
    clients w' = clients w /\
    next_hid w' = S (next_hid w) /\
    (forall q, q <> c -> heap w' !! q = heap w !! q) /\
    (c ∈ clients w ->
     auth_client_connection_lookup p w' = Ok (Some c) w').
Proof.
  intros H Hv Hh Hp Hnz Hnone p h.
  assert (Hall : Forall (fun q => exists z, heap w !! q = Some z /\ pid z <> p)
                        (clients w)).
  { apply Forall_forall. intros q Hq. apply list_elem_of_In in Hq.
    pose proof (proj1 (forallb_forall _ _) Hnone q Hq) as Hb. cbv beta in Hb.
    destruct (heap w !! q) as [z|]; [|discriminate].
    exists z. split; [reflexivity|]. apply negb_true_iff in Hb. fold p in Hb. lia. }
  assert (Hlook : auth_client_connection_lookup p w = Ok None w).
  { unfold auth_client_connection_lookup.
    destruct (lookup_from_spec (clients w) p w) as (r & Hr & Hspec).
    { apply Forall_forall. intros q Hq.
      rewrite Forall_forall in Hall. destruct (Hall q Hq) as (z & -> & _).
      eauto. }
    destruct r as [o|]; [|exact Hr].
    destruct Hspec as (pre & suf & y & Hcl & Hy & Hpy & _).
    rewrite Forall_forall in Hall.
    destruct (Hall o) as (z & Hz & Hne).
    { rewrite Hcl. apply elem_of_app. right. apply list_elem_of_here. }
    congruence. }
  assert (Hcpid : auth_client_input_cpid c args w = Ok true (bound c x p w)).
  { unfold auth_client_input_cpid. step_deref H. rewrite Hp.
    cbn [Z.eqb i_assert]. unfold bind at 1. unfold ret at 1. cbv zeta.
    fold p. replace (p =? 0) with false by lia.
    rewrite (bind_ok _ _ _ _ _ Hlook).
    unfold bind at 1. unfold ret at 1.
    apply (cpid_binds w c x p None H). }
  exists (bound c x p w). split.
  { unfold handshake_line. step_deref H. rewrite Hv. cbn [negb].
    rewrite starts_with_app.
    change 5%nat with (String.length CPID_KW). rewrite skip_app.
    now rewrite (bind_ok _ _ _ _ _ Hcpid). }
  unfold bound. norm.
  split; [apply lookup_insert_eq|].
  repeat (split; [reflexivity|]).
  split; [intros q Hq; now apply lookup_insert_ne|].
  intros Hc. unfold auth_client_connection_lookup. norm.
  eapply lookup_from_found.
  - norm. apply lookup_insert_eq.
  - now destruct x.
  - exact Hc.
  - apply Forall_forall. intros q Hq.
    destruct (decide (q = c)) as [->|Hqc]; [now left|]. right.
    rewrite Forall_forall in Hall. destruct (Hall q Hq) as (z & Hz & Hne).
    exists z. split; [|exact Hne]. norm. now rewrite lookup_insert_ne.
Qed.

End Waiting.

(** A waiting connection is sent a second VERSION line and a line of a
    later protocol version. *)
Lemma waiting_connection_passes_over_lines_witness :
  let x := ex_waiting 5 [tabbed "VERSION" "9"; tabbed "SPID" "4"] in
  let w := ex_world [(100%nat, x)] [100%nat] [] [] [] in
  handshake_loop 1 3 100 w =
  Ok false (set_heap (<[100%nat := drained x (i_lines (input x))]> (heap w)) w).
Proof.
  intros x w.
  destruct (waiting_connection_passes_over_lines 1 w 100%nat x)
    as (Hloop & _); [reflexivity | reflexivity | reflexivity |].
  apply Hloop; [repeat constructor | cbn; lia].
Defined.

(** A listener with a master peer: the new engine gets the relay
    callback. *)
Lemma fresh_cpid_binds_engine_witness :
  let x := ex_waiting 5 [] in
  let w := World (list_to_map [(100%nat, x)]) [100%nat] 1 77 "" true 9 200 50
             [] [] [] [] in
  exists w', handshake_line 1 100 (CPID_KW ++ "555") w = Ok true w' /\
    trace w' = [EvHandlerCreate (Handler 50 100 true);
                EvHandlerSet (Handler 50 100 true) 9 555].
Proof.
  intros x w.
  destruct (fresh_cpid_binds_engine 1 w 100%nat x "555")
    as (w' & Hw' & _ & Htr & _);
    [reflexivity | reflexivity | reflexivity | reflexivity | discriminate
    | reflexivity |].
  exists w'. split; [exact Hw' | exact Htr].
Defined.

(** ** The flush callback *)

Lemma flush_spec w c x :
  heap w !! c = Some x ->
  o_stream_flush c w = Ok (ret_after x) (after_flush c x w).
Proof.
  intros H. unfold o_stream_flush, o_stream_step, ret_after, after_flush,
    stepped.
  destruct w as [hp cl ms lp mh tc cu np nh tr af uf tf]. norm in H.
  destruct x as [? ? ? ? ? ? ? ? [ou oc [|[r u] ofe]]]; run_prims H.
  - now rewrite (insert_id _ _ _ H).
  - reflexivity.
Qed.

Lemma stepped_fields x :
  fd (stepped x) = fd x /\ refcount (stepped x) = refcount x /\
  io (stepped x) = io x /\
  request_handler (stepped x) = request_handler x.
Proof.
  unfold stepped. destruct x as [? ? ? ? ? ? ? ? [? ? [|[r u] f]]];
    repeat split.
Qed.

(** X9: when the flush of the output stream fails, the flush callback
    destroys the connection and returns 1; it does not look at the
    backlog and adds no read subscription. *)
Theorem flush_failure_destroys w c x :
  heap w !! c = Some x ->
  fd x <> -1 ->
  own_ctx c x = true ->
  (request_handler x <> None -> 1 < refcount x) ->
  ret_after x < 0 ->
  exists w',
    auth_client_output c w = Ok 1 w' /\
    clients w' = array_delete_first c (clients w) /\
    (NoDup (clients w) -> c ∉ clients w') /\
    (exists evs, trace w' = trace w ++ EvFlush c :: evs /\
       count_ev is_io_add evs = 0%nat) /\
    (forall x', heap w' !! c = Some x' -> fd x' = -1 /\ io x' = false) /\
    (forall q, q <> c -> heap w' !! q = heap w !! q).
Proof.
  intros H Hfd Hctx Hrc Hret.
  pose proof (stepped_fields x) as (Hf1 & Hf2 & _ & Hf4).
  assert (Hs : heap (after_flush c x w) !! c = Some (stepped x))
    by (destruct w; unfold after_flush; norm; apply lookup_insert_eq).
  exists (destroyed c (stepped x) (after_flush c x w)). split.
  { unfold auth_client_output.
    rewrite (bind_ok _ _ _ _ _ (flush_spec _ _ _ H)).
    replace (ret_after x <? 0) with true by lia.
    erewrite bind_ok; [reflexivity|].
    apply (destroy_spec _ _ _ Hs).
    - now rewrite Hf1.
    - unfold own_ctx in *. now rewrite Hf4.
    - intros Hsync. rewrite Hf2. apply Hrc. rewrite <- Hf4.
      now apply (sync_teardown_bound _ (after_flush c x w)). }
  split; [destruct w; reflexivity|]. split.
  { intros Hnd. unfold destroyed. norm.
    replace (clients (after_flush c x w)) with (clients w) by (now destruct w).
    now apply delete_first_not_in. }
  split.
  { exists (destroy_events c (stepped x) (after_flush c x w)). split.
    - unfold destroyed, after_flush. destruct w. norm.
      rewrite <- app_assoc. reflexivity.
    - apply destroy_events_no_io_add. }
  split.
  { intros x' Hx'. split; [now apply (destroyed_lookup _ _ _ _ Hx')|].
    revert Hx'. unfold destroyed. norm.
    destruct (count_after_destroy _ _ >? 0).
    - rewrite lookup_insert_eq. intros [= <-]. now destruct (stepped x).
    - now rewrite lookup_delete_eq. }
  intros q Hq. rewrite destroyed_lookup_ne by exact Hq.
  destruct w. unfold after_flush. norm. now apply lookup_insert_ne.
Qed.

Lemma flush_failure_destroys_witness :
  let x := Conn 5 false 2 555 1 true (Some (Handler 0 100 false))
             (IStream [] [] false []) (OStream 60000 false [(-1, 60000)]) in
  let w := ex_world [(100%nat, x)] [100%nat] [] [] [] in
  exists w', auth_client_output 100 w = Ok 1 w' /\ clients w' = [].
Proof.
  intros x w.
  destruct (flush_failure_destroys w 100%nat x) as (w' & Hw' & Hcl & _);
    [reflexivity | discriminate | reflexivity | intros _; reflexivity
    | reflexivity |].
  exists w'. split; [exact Hw' | exact Hcl].
Defined.

(** ** From destroy to the release of the storage *)

Lemma count_free_release c :
  count_ev (is_free_of c) (release_events c) = 1%nat.
Proof. cbn. now rewrite Nat.eqb_refl. Qed.

Lemma count_free_teardown c x :
  count_ev (is_free_of c) (teardown_events c x ++ engine_release_events x)
  = 0%nat.
Proof.
  unfold teardown_events, engine_release_events.
  destruct (io x), (request_handler x); reflexivity.
Qed.

(** X10: a live connection with an engine is destroyed, and the engine
    gives its reference back, either inside the release (synchronously) or
    by a later null-sentinel callback.  Whichever it is, the outcome is the
    same: the connection has left the registry, the count has gone down by
    two, and the object is freed, once, exactly when no one else (a batch
    in progress) holds it; otherwise it stays allocated, closed, and
    nothing is freed. *)
Theorem destroy_and_teardown_release_once w c x h :
  heap w !! c = Some x ->
  fd x <> -1 ->
  request_handler x = Some h ->
  h_ctx h = c ->
  2 <= refcount x ->
  exists w' evs,
    (auth_client_connection_destroy c ;;
     if sync_teardown x w then ret tt else auth_callback None c) w
      = Ok tt w' /\
    clients w' = array_delete_first c (clients w) /\
    trace w' = trace w ++ evs /\
    if refcount x =? 2
    then heap w' !! c = None /\ count_ev (is_free_of c) evs = 1%nat
    else (exists x', heap w' !! c = Some x' /\
            refcount x' = refcount x - 2 /\ fd x' = -1) /\
         count_ev (is_free_of c) evs = 0%nat.
Proof.
  intros H Hfd Hh Hctx Hrc.
  assert (Hown : own_ctx c x = true)
    by (unfold own_ctx; rewrite Hh; now apply Nat.eqb_eq).
  rewrite (bind_ok _ _ _ _ _
             (destroy_spec _ _ _ H Hfd Hown ltac:(intros _; lia))).
  unfold destroyed, destroy_events, count_after_destroy.
  destruct (sync_teardown x w) eqn:Es.
  - unfold ret. eexists. eexists. split; [reflexivity|]. norm.
    split; [reflexivity|]. split; [reflexivity|].
    destruct (refcount x =? 2) eqn:E2.
    + replace (refcount x - 1 - 1 >? 0) with false by lia.
      split; [apply lookup_delete_eq|].
      rewrite app_assoc, count_ev_app, count_free_teardown.
      apply count_free_release.
    + replace (refcount x - 1 - 1 >? 0) with true by lia.
      split.
      * eexists. split; [apply lookup_insert_eq|].
        destruct x; cbn. split; [lia | reflexivity].
      * rewrite app_nil_r. apply count_free_teardown.
  - replace (refcount x - 0 - 1 >? 0) with true by lia.
    cbn [auth_callback].
    erewrite unref_spec by (norm; apply lookup_insert_eq).
    assert (Hr : refcount (set_refcount (refcount x - 0 - 1) (closed_conn x))
                 = refcount x - 1) by (destruct x; cbn; lia).
    rewrite Hr.
    destruct (refcount x =? 2) eqn:E2.
    + replace (refcount x - 1 - 1 >? 0) with false by lia.
      eexists. eexists. split; [reflexivity|]. norm.
      split; [reflexivity|]. split; [rewrite <- app_assoc; reflexivity|].
      split; [apply lookup_delete_eq|].
      rewrite app_nil_r, count_ev_app, count_free_teardown.
      apply count_free_release.
    + replace (refcount x - 1 - 1 >? 0) with true by lia.
      eexists. eexists. split; [reflexivity|]. norm.
      split; [reflexivity|]. split; [reflexivity|]. split.
      * eexists. split; [apply lookup_insert_eq|].
        destruct x; cbn. split; [lia | reflexivity].
      * rewrite app_nil_r. apply count_free_teardown.
Qed.

(** The registry and the engine hold the connection; the engine tears
    down later. *)
Lemma destroy_and_teardown_release_once_witness :
  let x := ex_active 100 5 2 555 [] [] in
  let w := ex_world [(100%nat, x)] [100%nat] [] [false] [] in
  exists w',
    (auth_client_connection_destroy 100 ;; auth_callback None 100) w
      = Ok tt w' /\
    clients w' = [] /\ heap w' !! 100%nat = None.
Proof.
  intros x w.
  destruct (destroy_and_teardown_release_once w 100%nat x
              (Handler 100 100 false))
    as (w' & evs & Hw' & Hcl & _ & Hres);
    [reflexivity | discriminate | reflexivity | reflexivity | discriminate |].
  exists w'. split; [exact Hw'|]. split; [exact Hcl|].
  change (refcount x =? 2) with true in Hres. apply Hres.
Defined.

(** ** The timer of the sweep *)

(** X11: shutting the sweep down removes the timer exactly when one is
    registered and leaves none: after init it is removed once, a second
    shutdown and a shutdown without init change nothing. *)
Theorem deinit_removes_timer_once w :
  (exists w', auth_client_connections_deinit w = Ok tt w' /\
     to_clients w' = false /\
     trace w' = trace w ++ (if to_clients w then [EvTimeoutRemove] else []) /\
     auth_client_connections_deinit w' = Ok tt w') /\
  (to_clients w = false -> auth_client_connections_deinit w = Ok tt w) /\
  (exists w2,
     (auth_client_connections_init ;; auth_client_connections_deinit ;;
      auth_client_connections_deinit) w = Ok tt w2 /\
     trace w2 = trace w ++ [EvTimeoutAdd 5000; EvTimeoutRemove] /\
     to_clients w2 = false /\ heap w2 = heap w /\ clients w2 = clients w).
Proof.
  destruct w as [hp cl ms lp mh tc cu np nh tr af uf tf].
  unfold auth_client_connections_deinit, auth_client_connections_init,
    bind, emit. norm.
  split; [|split].
  - destruct tc; norm; eexists; (split; [reflexivity|]); norm;
      rewrite ?app_nil_r; repeat split.
  - intros ->. reflexivity.
  - eexists. split; [reflexivity|]. norm. rewrite <- app_assoc.
    repeat split.
Qed.

(** ** The registry invariant *)

Lemma conn_ok_core c x x1 :
  core x1 = core x -> conn_ok c x = true -> conn_ok c x1 = true.
Proof.
  unfold core, conn_ok, own_ctx. intros [= H1 H2 H3 H4].
  now rewrite H1, H2, H3, H4.
Qed.

Lemma conn_ok_facts c x :
  conn_ok c x = true ->
  fd x <> -1 /\ own_ctx c x = true /\ 0 < refcount x /\
  (request_handler x <> None -> 1 < refcount x /\ pid x <> 0) /\
  (request_handler x = None -> pid x = 0).
Proof.
  unfold conn_ok. intros H.
  apply andb_prop in H as [H H3]. apply andb_prop in H as [H1 H2].
  apply negb_true_iff, Z.eqb_neq in H1.
  split; [exact H1|]. split; [exact H2|].
  destruct (request_handler x);
    apply andb_prop in H3 as [Ha Hb]; apply Z.ltb_lt in Ha.
  - apply negb_true_iff, Z.eqb_neq in Hb.
    split; [lia|]. split; [intros _; split; [exact Ha | exact Hb]|].
    discriminate.
  - apply Z.eqb_eq in Hb. split; [exact Ha|]. split; [congruence|].
    intros _. exact Hb.
Qed.

Lemma registry_check_sound w : registry_check w = true -> registry_ok w.
Proof.
  unfold registry_check. intros H.
  apply andb_prop in H as [Hnd Hall].
  apply bool_decide_eq_true in Hnd.
  rewrite forallb_forall in Hall.
  split; [exact Hnd| | |].
  - intros c Hc%list_elem_of_In. specialize (Hall c Hc).
    destruct (heap w !! c) as [x|]; [|discriminate].
    exists x. split; [reflexivity|].
    now apply andb_prop in Hall as [[? ?]%andb_prop _].
  - intros c Hc%list_elem_of_In. specialize (Hall c Hc).
    destruct (heap w !! c) as [x|]; [|discriminate].
    apply andb_prop in Hall as [[_ Hlt]%andb_prop _].
    now apply Nat.ltb_lt in Hlt.
  - intros c1 c2 x1 x2 Hc1%list_elem_of_In Hc2%list_elem_of_In H1 H2 Hp Hnz.
    specialize (Hall c1 Hc1). rewrite H1 in Hall.
    apply andb_prop in Hall as [_ Hu].
    rewrite forallb_forall in Hu. specialize (Hu c2 Hc2).
    rewrite H2 in Hu.
    apply orb_prop in Hu as [Hu|Hu]; [apply orb_prop in Hu as [Hu|Hu]|].
    + apply Z.eqb_eq in Hu. contradiction.
    + apply negb_true_iff, Z.eqb_neq in Hu. contradiction.
    + now apply Nat.eqb_eq in Hu.
Qed.

(** The invariant looks at the registry, the allocation mark and the
    cores of the registered objects only. *)
Lemma registry_ok_core w w1 :
  registry_ok w ->
  clients w1 = clients w ->
  next_ptr w1 = next_ptr w ->
  (forall q x, q ∈ clients w -> heap w !! q = Some x ->
     exists x1, heap w1 !! q = Some x1 /\ core x1 = core x) ->
  registry_ok w1.
Proof.
  intros [Hnd Hconn Hfresh Hpids] Hcl Hnp Hcore.
  split; rewrite ?Hcl, ?Hnp; [exact Hnd | | exact Hfresh |].
  - intros c Hc. destruct (Hconn c Hc) as (x & Hx & Hok).
    destruct (Hcore c x Hc Hx) as (x1 & Hx1 & Hc1).
    exists x1. split; [exact Hx1|]. now apply (conn_ok_core c x).
  - intros c1 c2 y1 y2 Hc1 Hc2 Hy1 Hy2 Hp Hnz.
    destruct (Hconn c1 Hc1) as (x1 & Hx1 & _).
    destruct (Hconn c2 Hc2) as (x2 & Hx2 & _).
    destruct (Hcore c1 x1 Hc1 Hx1) as (y1' & Hy1' & [= _ _ Hp1 _]).
    destruct (Hcore c2 x2 Hc2 Hx2) as (y2' & Hy2' & [= _ _ Hp2 _]).
    assert (y1' = y1) by congruence. assert (y2' = y2) by congruence.
    subst. apply (Hpids c1 c2 x1 x2); congruence.
Qed.

Lemma touches_refl c w : touches c w w.
Proof. repeat split. intros x Hx. now exists x. Qed.

Lemma touches_trans c w w1 w2 :
  touches c w w1 -> touches c w1 w2 -> touches c w w2.
Proof.
  intros (Hc1 & Hn1 & Hq1 & Hx1) (Hc2 & Hn2 & Hq2 & Hx2).
  split; [congruence|]. split; [congruence|].
  split; [intros q Hq; rewrite Hq2, Hq1; auto|].
  intros x Hx. destruct (Hx1 x Hx) as (x1 & Hx1' & Hco1 & Hl1).
  destruct (Hx2 x1 Hx1') as (x2 & Hx2' & Hco2 & Hl2).
  exists x2. split; [exact Hx2'|]. split; congruence.
Qed.

Lemma registry_ok_touches c w w1 :
  registry_ok w -> touches c w w1 -> registry_ok w1.
Proof.
  intros Hok (Hcl & Hnp & Hq & Hx).
  apply (registry_ok_core w w1 Hok Hcl Hnp).
  intros q x _ Hqx. destruct (decide (q = c)) as [->|Hne].
  - destruct (Hx x Hqx) as (x1 & Hx1 & Hco & _). now exists x1.
  - exists x. now rewrite Hq.
Qed.

(** A change of the object [c] alone that keeps its core and lines. *)
Lemma touches_insert c w x x1 :
  heap w !! c = Some x ->
  core x1 = core x ->
  i_lines (input x1) = i_lines (input x) ->
  touches c w (set_heap (<[c := x1]> (heap w)) w).
Proof.
  intros H Hco Hl. destruct w. unfold touches. norm.
  split; [reflexivity|]. split; [reflexivity|].
  split; [intros q Hq; now apply lookup_insert_ne|].
  intros x' Hx'. exists x1. rewrite lookup_insert_eq.
  norm in H. split; [reflexivity|]. split; congruence.
Qed.

Lemma touches_trace c w t : touches c w (set_trace t w).
Proof.
  destruct w. unfold touches. norm. repeat split.
  intros x Hx. now exists x.
Qed.

Lemma lines_of_touches c w w1 :
  touches c w w1 -> is_Some (heap w !! c) -> lines_of c w1 = lines_of c w.
Proof.
  intros (_ & _ & _ & Hx) [x H]. unfold lines_of.
  destruct (Hx x H) as (x1 & Hx1 & _ & Hl). now rewrite H, Hx1, Hl.
Qed.

Lemma touches_other c q w w1 :
  q <> c -> touches c w w1 -> heap w1 !! q = heap w !! q.
Proof. intros Hq (_ & _ & H & _). now apply H. Qed.

(** ** Leaving the registry *)

Lemma delete_first_NoDup c (l : list nat) :
  NoDup l -> NoDup (array_delete_first c l).
Proof.
  induction l as [|p l IH]; intros Hnd; [exact Hnd|].
  apply NoDup_cons in Hnd as [Hp Hnd]. cbn.
  destruct (Nat.eqb p c); [exact Hnd|].
  apply NoDup_cons. split; [|now apply IH].
  intros Hin. apply Hp. now apply (delete_first_subset c).
Qed.

Lemma registry_ok_removed c w w1 :
  registry_ok w ->
  clients w1 = array_delete_first c (clients w) ->
  next_ptr w1 = next_ptr w ->
  (forall q, q <> c -> heap w1 !! q = heap w !! q) ->
  registry_ok w1 /\ c ∉ clients w1.
Proof.
  intros [Hnd Hconn Hfresh Hpids] Hcl Hnp Hq.
  assert (Hsub : forall q, q ∈ clients w1 -> q ∈ clients w /\ q <> c).
  { intros q Hin. rewrite Hcl in Hin. split.
    - now apply (delete_first_subset c).
    - now apply (delete_first_other c q (clients w)). }
  split; [|rewrite Hcl; now apply delete_first_not_in].
  split.
  - rewrite Hcl. now apply delete_first_NoDup.
  - intros q [Hin Hne]%Hsub. rewrite Hq by exact Hne. now apply Hconn.
  - intros q [Hin Hne]%Hsub. rewrite Hnp. now apply Hfresh.
  - intros c1 c2 x1 x2 [Hi1 Hn1]%Hsub [Hi2 Hn2]%Hsub.
    rewrite !Hq by assumption. now apply Hpids.
Qed.

Lemma destroyed_next_ptr c x w : next_ptr (destroyed c x w) = next_ptr w.
Proof. reflexivity. Qed.

Lemma destroyed_clients c x w :
  clients (destroyed c x w) = array_delete_first c (clients w).
Proof. reflexivity. Qed.

(** Destroying an open connection in a consistent registry. *)
Lemma destroy_safe w c x :
  registry_ok w ->
  heap w !! c = Some x ->
  fd x <> -1 ->
  own_ctx c x = true ->
  (request_handler x <> None -> 1 < refcount x) ->
  auth_client_connection_destroy c w = Ok tt (destroyed c x w) /\
  registry_ok (destroyed c x w) /\ c ∉ clients (destroyed c x w).
Proof.
  intros Hok H Hfd Hctx Hrc. split.
  - apply (destroy_spec _ _ _ H Hfd Hctx).
    intros Hs. apply Hrc. now apply (sync_teardown_bound _ w).
  - apply (registry_ok_removed c w); [exact Hok | reflexivity | reflexivity |].
    intros q Hq. now apply destroyed_lookup_ne.
Qed.

Lemma destroy_registered w c :
  registry_ok w ->
  c ∈ clients w ->
  exists x, heap w !! c = Some x /\ conn_ok c x = true /\
    auth_client_connection_destroy c w = Ok tt (destroyed c x w) /\
    registry_ok (destroyed c x w) /\ c ∉ clients (destroyed c x w).
Proof.
  intros Hok Hc. destruct (reg_conn w Hok c Hc) as (x & Hx & Hcok).
  exists x. split; [exact Hx|]. split; [exact Hcok|].
  destruct (conn_ok_facts c x Hcok) as (Hfd & Hctx & _ & Hb & _).
  apply (destroy_safe w c x Hok Hx Hfd Hctx). intros Hh. now apply Hb.
Qed.

(** ** Changes of one registered object *)

Lemma registry_ok_update c w x x1 :
  registry_ok w ->
  heap w !! c = Some x ->
  pid x1 = pid x ->
  (c ∈ clients w -> conn_ok c x1 = true) ->
  registry_ok (set_heap (<[c := x1]> (heap w)) w).
Proof.
  intros [Hnd Hconn Hfresh Hpids] H Hp Hcok.
  assert (Hcl : clients (set_heap (<[c := x1]> (heap w)) w) = clients w)
    by now destruct w.
  assert (Hnp : next_ptr (set_heap (<[c := x1]> (heap w)) w) = next_ptr w)
    by now destruct w.
  assert (Hh : heap (set_heap (<[c := x1]> (heap w)) w) = <[c := x1]> (heap w))
    by now destruct w.
  assert (Hpid : forall q y, <[c := x1]> (heap w) !! q = Some y ->
            exists z, heap w !! q = Some z /\ pid z = pid y).
  { intros q y. destruct (decide (q = c)) as [->|Hne].
    - rewrite lookup_insert_eq. intros [= <-]. now exists x.
    - rewrite lookup_insert_ne by congruence. intros Hy. now exists y. }
  split; rewrite ?Hcl, ?Hnp, ?Hh; [exact Hnd | | exact Hfresh |].
  - intros q Hq. destruct (decide (q = c)) as [->|Hne].
    + exists x1. rewrite lookup_insert_eq. split; [reflexivity | now apply Hcok].
    + rewrite lookup_insert_ne by congruence. now apply Hconn.
  - intros c1 c2 y1 y2 Hc1 Hc2 Hy1 Hy2 Hpp Hnz.
    destruct (Hpid c1 y1 Hy1) as (z1 & Hz1 & Hp1).
    destruct (Hpid c2 y2 Hy2) as (z2 & Hz2 & Hp2).
    apply (Hpids c1 c2 z1 z2); congruence.
Qed.

Lemma registry_alive w :
  registry_ok w -> Forall (fun c => is_Some (heap w !! c)) (clients w).
Proof.
  intros Hok. apply Forall_forall. intros c Hc.
  destruct (reg_conn w Hok c Hc) as (x & Hx & _). now exists x.
Qed.

(** Binding an engine to a waiting connection whose new pid no registered
    connection holds. *)
Lemma registry_ok_bound w c x p :
  registry_ok w ->
  c ∈ clients w ->
  heap w !! c = Some x ->
  request_handler x = None ->
  p <> 0 ->
  (forall q z, q ∈ clients w -> heap w !! q = Some z -> pid z <> p) ->
  registry_ok (bound c x p w).
Proof.
  intros [Hnd Hconn Hfresh Hpids] Hc H Hh Hp Hfree.
  destruct (Hconn c Hc) as (x' & Hx' & Hcok).
  assert (x' = x) by congruence. subst x'.
  destruct (conn_ok_facts c x Hcok) as (Hfd & _ & Hrc & _ & _).
  unfold bound. split; norm; [exact Hnd | | exact Hfresh |].
  - intros q Hq. destruct (decide (q = c)) as [->|Hne].
    + eexists. rewrite lookup_insert_eq. split; [reflexivity|].
      unfold conn_ok, own_ctx. destruct x; norm. cbn [h_ctx].
      norm in Hfd. norm in Hrc.
      rewrite Nat.eqb_refl.
      replace (fd0 =? -1) with false by lia.
      replace (1 <? refcount0 + 1) with true by lia.
      replace (p =? 0) with false by lia. reflexivity.
    + rewrite lookup_insert_ne by congruence. now apply Hconn.
  - intros c1 c2 y1 y2 Hc1 Hc2.
    destruct (decide (c1 = c)) as [->|Hn1];
      destruct (decide (c2 = c)) as [->|Hn2]; [reflexivity | | |].
    + rewrite lookup_insert_eq, lookup_insert_ne by congruence.
      intros [= <-] Hy2 Hpp _. exfalso.
      apply (Hfree c2 y2 Hc2 Hy2). rewrite <- Hpp. now destruct x.
    + rewrite lookup_insert_eq, lookup_insert_ne by congruence.
      intros Hy1 [= <-] Hpp _. exfalso.
      apply (Hfree c1 y1 Hc1 Hy1). rewrite Hpp. now destruct x.
    + rewrite !lookup_insert_ne by congruence. now apply Hpids.
Qed.

Lemma bound_lookup w c x p :
  exists x', heap (bound c x p w) !! c = Some x' /\
    request_handler x' <> None /\ input x' = input x.
Proof.
  unfold bound. norm. eexists. rewrite lookup_insert_eq.
  split; [reflexivity|]. destruct x. now split.
Qed.

Lemma lines_of_eq c w w1 x x1 :
  heap w !! c = Some x -> heap w1 !! c = Some x1 ->
  i_lines (input x1) = i_lines (input x) ->
  lines_of c w1 = lines_of c w.
Proof. intros H H1 Hl. unfold lines_of. now rewrite H, H1, Hl. Qed.

Lemma registry_ok_after_read o y w :
  registry_ok w -> heap w !! o = Some y -> registry_ok (after_read o y w).
Proof.
  intros Hok Ho.
  apply (registry_ok_core w); [exact Hok | now destruct w | now destruct w |].
  intros q x _ Hq. destruct (decide (q = o)) as [->|Hne].
  - exists (read_conn y). rewrite after_read_lookup. split; [reflexivity|].
    assert (x = y) by congruence. subst x.
    pose proof (read_conn_fields y) as (H1 & H2 & H3 & H4).
    unfold core. now rewrite H1, H2, H3, H4.
  - exists x. now rewrite after_read_lookup_ne.
Qed.

Lemma registry_ok_trace t w : registry_ok w -> registry_ok (set_trace t w).
Proof.
  intros Hok. apply (registry_ok_touches 0%nat w); [exact Hok|].
  apply touches_trace.
Qed.

(** ** The client pid line *)

Lemma cpid_fresh w c x args :
  heap w !! c = Some x ->
  pid x = 0 ->
  to_uint (strtoul args) <> 0 ->
  auth_client_connection_lookup (to_uint (strtoul args)) w = Ok None w ->
  auth_client_input_cpid c args w
  = Ok true (bound c x (to_uint (strtoul args)) w).
Proof.
  intros H Hp Hnz Hlook. unfold auth_client_input_cpid. step_deref H.
  rewrite Hp. cbn [Z.eqb i_assert]. unfold bind at 1. unfold ret at 1.
  cbv zeta.
  replace (to_uint (strtoul args) =? 0) with false by lia.
  rewrite (bind_ok _ _ _ _ _ Hlook).
  unfold bind at 1. unfold ret at 1.
  now apply (cpid_binds _ c x _ None).
Qed.

(** In a consistent registry the pid line never fails an assertion and
    never reaches a freed object, and leaves the registry consistent. *)
Lemma cpid_safe w c x args :
  registry_ok w ->
  c ∈ clients w ->
  heap w !! c = Some x ->
  request_handler x = None ->
  exists ok w',
    auth_client_input_cpid c args w = Ok ok w' /\
    registry_ok w' /\ c ∈ clients w' /\ lines_of c w' = lines_of c w.
Proof.
  intros Hok Hc H Hh.
  destruct (reg_conn w Hok c Hc) as (x' & Hx' & Hcok).
  assert (x' = x) by congruence. subst x'.
  destruct (conn_ok_facts c x Hcok) as (_ & _ & _ & _ & Hpid).
  specialize (Hpid Hh).
  destruct (decide (to_uint (strtoul args) = 0)) as [Hz|Hnz].
  { rewrite (cpid_zero _ _ _ _ H Hpid Hz). eexists. eexists.
    split; [reflexivity|]. split; [now apply registry_ok_trace|].
    split; [now destruct w|]. unfold lines_of. now destruct w. }
  set (p := to_uint (strtoul args)) in *.
  destruct (lookup_from_spec (clients w) p w (registry_alive w Hok))
    as ([o|] & Hlook & Hr).
  - destruct Hr as (pre & suf & y & Hl & Ho & Hpy & _).
    assert (Hoin : o ∈ clients w).
    { rewrite Hl. apply elem_of_app. right. apply list_elem_of_here. }
    assert (Hoc : o <> c) by (intros ->; congruence).
    destruct (reg_conn w Hok o Hoin) as (y' & Hy' & Hyok).
    assert (y' = y) by congruence. subst y'.
    destruct (conn_ok_facts o y Hyok) as (Hyfd & Hyctx & Hyrc & Hyb & Hyn).
    assert (Hyrc1 : 1 < refcount y).
    { apply Hyb. intros Hnone. apply Hyn in Hnone. congruence. }
    rewrite (cpid_duplicate w c x args o y H Hpid Hnz Hlook Hoc Ho Hyfd
               Hyctx Hyrc1).
    pose proof (registry_ok_after_read o y w Hok Ho) as Hok1.
    pose proof (read_conn_fields y) as (Hf1 & Hf2 & Hf3 & Hf4).
    destruct (read_ret y =? -1).
    + destruct (destroy_safe (after_read o y w) o (read_conn y) Hok1)
        as (_ & Hok2 & Hout).
      { apply after_read_lookup. }
      { now rewrite Hf1. }
      { unfold own_ctx in *. now rewrite Hf4. }
      { intros _. now rewrite Hf2. }
      set (w2 := destroyed o (read_conn y) (after_read o y w)) in *.
      assert (Hcl2 : clients w2 = array_delete_first o (clients w))
        by (subst w2; now destruct w).
      assert (Hq2 : forall q, q <> o -> heap w2 !! q = heap w !! q).
      { intros q Hq. subst w2. rewrite destroyed_lookup_ne by exact Hq.
        now apply after_read_lookup_ne. }
      assert (Hc2 : c ∈ clients w2).
      { rewrite Hcl2. apply delete_first_keeps; [exact Hc | congruence]. }
      assert (Hx2 : heap w2 !! c = Some x) by (rewrite Hq2; auto).
      eexists. eexists. split; [reflexivity|].
      split; [|split].
      * apply registry_ok_bound; try assumption.
        intros q z Hq Hz Hpz.
        assert (Hqo : q <> o).
        { intros ->. now apply Hout. }
        assert (Hqin : q ∈ clients w).
        { rewrite Hcl2 in Hq. now apply (delete_first_subset o). }
        rewrite Hq2 in Hz by exact Hqo.
        apply Hqo. apply (reg_pids w Hok q o z y Hqin Hoin Hz Ho);
          [now rewrite Hpz, Hpy | now rewrite Hpz].
      * exact Hc2.
      * destruct (bound_lookup w2 c x p) as (xb & Hxb & _ & Hin).
        apply (lines_of_eq c w _ x xb H Hxb). now rewrite Hin.
    + eexists. eexists. split; [reflexivity|].
      split; [now apply registry_ok_trace|].
      split; [now destruct w|].
      unfold lines_of. rewrite heap_set_trace.
      now rewrite after_read_lookup_ne by congruence.
  - assert (Hfree : forall q z, q ∈ clients w -> heap w !! q = Some z ->
                      pid z <> p).
    { intros q z Hq Hz. rewrite Forall_forall in Hr.
      destruct (Hr q Hq) as (z' & Hz' & Hne). congruence. }
    rewrite (cpid_fresh w c x args H Hpid Hnz Hlook).
    eexists. eexists. split; [reflexivity|].
    split; [now apply registry_ok_bound|]. split; [exact Hc|].
    destruct (bound_lookup w c x p) as (xb & Hxb & _ & Hin).
    apply (lines_of_eq c w _ x xb H Hxb). now rewrite Hin.
Qed.

(** ** The handshake loop *)

Lemma emit_then {A} (e : event) (m : M A) w :
  (emit e ;; m) w = m (set_trace (trace w ++ [e]) w).
Proof. reflexivity. Qed.

Lemma destroy_then_false w c :
  registry_ok w ->
  c ∈ clients w ->
  exists w', (auth_client_connection_destroy c ;; ret false) w = Ok false w' /\
    registry_ok w' /\ c ∉ clients w'.
Proof.
  intros Hok Hc.
  destruct (destroy_registered w c Hok Hc) as (x & _ & _ & Hd & Hok' & Hout).
  eexists. rewrite (bind_ok _ _ _ _ _ Hd). split; [reflexivity|]. now split.
Qed.

Section Safety.

Variable MAJOR MINOR : Z.

Lemma handshake_line_safe w c x line :
  registry_ok w ->
  c ∈ clients w ->
  heap w !! c = Some x ->
  request_handler x = None ->
  exists go w',
    handshake_line MAJOR c line w = Ok go w' /\
    registry_ok w' /\
    (go = true -> c ∈ clients w' /\ lines_of c w' = lines_of c w).
Proof.
  intros Hok Hc H Hh. unfold handshake_line. step_deref H.
  destruct (version_received x) eqn:Ev; cbn [negb].
  - destruct (starts_with CPID_KW line).
    + destruct (cpid_safe w c x (skip 5 line) Hok Hc H Hh)
        as (ok & w1 & Hrun & Hok1 & Hc1 & Hl1).
      rewrite (bind_ok _ _ _ _ _ Hrun). destruct ok.
      * exists true, w1. split; [reflexivity|]. now split.
      * destruct (destroy_then_false w1 c Hok1 Hc1) as (w2 & Hd & Hok2 & _).
        exists false, w2. split; [exact Hd|]. split; [exact Hok2|].
        discriminate.
    + exists true, w. split; [reflexivity|]. now split.
  - destruct (version_mismatch MAJOR line).
    + rewrite emit_then.
      destruct (destroy_then_false (set_trace (trace w ++ [EvError
                  "Authentication client not compatible with this server (mixed old and new binaries?)"]) w) c)
        as (w2 & Hd & Hok2 & _);
        [now apply registry_ok_trace | now destruct w |].
      exists false, w2. split; [exact Hd|]. split; [exact Hok2|].
      discriminate.
    + rewrite (bind_ok _ _ _ _ _ (modify_ok _ _ _ _ H)).
      eexists. eexists. split; [reflexivity|].
      assert (Ht : touches c w
                (set_heap (<[c := set_version_received true x]> (heap w)) w))
        by (apply (touches_insert c w x); [exact H | now destruct x ..]).
      split; [now apply (registry_ok_touches c w)|].
      intros _. split; [now destruct w|].
      apply lines_of_touches; [exact Ht | now exists x].
Qed.

Lemma handshake_loop_safe c : forall n w,
  registry_ok w ->
  c ∈ clients w ->
  (lines_of c w < n)%nat ->
  exists go w',
    handshake_loop MAJOR n c w = Ok go w' /\
    registry_ok w' /\
    (go = true ->
     c ∈ clients w' /\
     exists x h, heap w' !! c = Some x /\ request_handler x = Some h).
Proof.
  induction n as [|n IH]; intros w Hok Hc Hn; [lia|].
  destruct (reg_conn w Hok c Hc) as (x & H & Hcok).
  cbn [handshake_loop]. step_deref H.
  destruct (request_handler x) as [h|] eqn:Hh.
  { exists true, w. split; [reflexivity|]. split; [exact Hok|].
    intros _. split; [exact Hc|]. now exists x, h. }
  destruct (i_lines (input x)) as [|l ls] eqn:El.
  { rewrite (bind_ok _ _ _ _ _ (next_line_none _ _ _ H El)).
    exists false, w. split; [reflexivity|]. split; [exact Hok|].
    discriminate. }
  rewrite (bind_ok _ _ _ _ _ (next_line_spec _ _ _ _ _ H El)).
  set (x1 := set_input (IStream ls (l :: i_mem (input x))
                          (i_closed (input x)) (i_feed (input x))) x).
  set (w1 := set_heap (<[c := x1]> (heap w)) w).
  assert (Hx1 : heap w1 !! c = Some x1)
    by (subst w1; destruct w; norm; apply lookup_insert_eq).
  assert (Hok1 : registry_ok w1).
  { apply (registry_ok_update c w x x1 Hok H); [now destruct x|].
    intros _. apply (conn_ok_core c x); [now destruct x | exact Hcok]. }
  assert (Hc1 : c ∈ clients w1) by (subst w1; now destruct w).
  assert (Hl1 : lines_of c w1 = length ls).
  { unfold lines_of. rewrite Hx1. subst x1. now destruct x. }
  destruct (handshake_line_safe w1 c x1 l Hok1 Hc1 Hx1)
    as (go & w2 & Hrun & Hok2 & Hgo);
    [subst x1; now destruct x|].
  rewrite (bind_ok _ _ _ _ _ Hrun). destruct go.
  - destruct (Hgo eq_refl) as (Hc2 & Hl2).
    apply (IH w2 Hok2 Hc2).
    rewrite Hl2, Hl1. unfold lines_of in Hn. rewrite H, El in Hn.
    cbn [length] in Hn. lia.
  - exists false, w2. split; [reflexivity|]. split; [exact Hok2|].
    discriminate.
Qed.

End Safety.

(** ** The dispatch loop *)

Lemma send_touches w c x s :
  heap w !! c = Some x ->
  1 < refcount x ->
  exists w1, auth_client_send c s w = Ok tt w1 /\ touches c w w1.
Proof.
  intros H Hrc.
  destruct w as [hp cl ms lp mh tc cu np nh tr af uf tf].
  destruct x as [xfd xio xrc xpid xuid xv xh xin [ou oc ofe]].
  norm in H. norm in Hrc.
  unfold auth_client_send, i_assert, o_stream_send, o_stream_step,
    o_stream_get_buffer_used_size, touches.
  run_prims H. replace (xrc >? 1) with true by lia. run_prims H.
  destruct ofe as [|[r u] ofe]; run_prims H;
    [destruct (ou >=? OUTBUF_THROTTLE_SIZE)
    |destruct (u >=? OUTBUF_THROTTLE_SIZE)];
    run_prims H; try (destruct xio; run_prims H);
    eexists; (split; [reflexivity|]); norm;
    (split; [reflexivity|]); (split; [reflexivity|]);
    (split; [intros q Hq; now rewrite ?lookup_insert_ne by congruence|]);
    intros x' Hx'; try rewrite H in Hx'; injection Hx' as <-;
    rewrite ?lookup_insert_eq;
    eexists; (split; [first [reflexivity | exact H]|]); now split.
Qed.

Lemma touches_refcount c w w1 x :
  touches c w w1 -> heap w !! c = Some x ->
  exists x1, heap w1 !! c = Some x1 /\ core x1 = core x /\
    i_lines (input x1) = i_lines (input x).
Proof. intros (_ & _ & _ & Hx) H. now apply Hx. Qed.

Lemma replies_touches c replies : forall w x,
  heap w !! c = Some x ->
  1 < refcount x ->
  exists w1, iter (fun s => auth_callback (Some s) c) replies w = Ok tt w1 /\
    touches c w w1.
Proof.
  induction replies as [|s replies IH]; intros w x H Hrc.
  - exists w. split; [reflexivity | apply touches_refl].
  - cbn [iter auth_callback].
    destruct (send_touches w c x s H Hrc) as (w1 & Hs & Ht).
    rewrite (bind_ok _ _ _ _ _ Hs).
    destruct (touches_refcount c w w1 x Ht H) as (x1 & Hx1 & [= _ Hr _ _] & _).
    destruct (IH w1 x1 Hx1) as (w2 & Hit & Ht2); [now rewrite Hr|].
    exists w2. split; [exact Hit|]. now apply (touches_trans c w w1).
Qed.

Lemma touches_auth_feed c w l : touches c w (set_auth_feed l w).
Proof.
  destruct w. unfold touches. norm. repeat split.
  intros x Hx. now exists x.
Qed.

Lemma engine_auth_touches w c x h ev :
  heap w !! c = Some x ->
  h_ctx h = c ->
  1 < refcount x ->
  exists r w1, (emit ev ;; engine_auth h) w = Ok r w1 /\ touches c w w1.
Proof.
  intros H Hctx Hrc. rewrite emit_then. unfold engine_auth. rewrite Hctx.
  set (w0 := set_trace (trace w ++ [ev]) w).
  assert (Ht0 : touches c w w0) by apply touches_trace.
  assert (Hnext : exists r wn, next_auth w0 = Ok r wn /\ touches c w0 wn).
  { unfold next_auth. destruct (auth_feed w0) as [|r l].
    - eexists. eexists. split; [reflexivity | apply touches_refl].
    - eexists. eexists. split; [reflexivity | apply touches_auth_feed]. }
  destruct Hnext as (r & wn & Hn & Htn).
  rewrite (bind_ok _ _ _ _ _ Hn).
  pose proof (touches_trans c w w0 wn Ht0 Htn) as Ht.
  destruct (touches_refcount c w wn x Ht H) as (xn & Hxn & [= _ Hr _ _] & _).
  destruct (replies_touches c (snd r) wn xn Hxn) as (w1 & Hit & Ht1);
    [now rewrite Hr|].
  rewrite (bind_ok _ _ _ _ _ Hit).
  exists (fst r), w1. split; [reflexivity|].
  now apply (touches_trans c w wn).
Qed.

Lemma handle_line_touches w c x h line :
  heap w !! c = Some x ->
  request_handler x = Some h ->
  h_ctx h = c ->
  1 < refcount x ->
  exists r w1, auth_client_handle_line c line w = Ok r w1 /\ touches c w w1.
Proof.
  intros H Hh Hctx Hrc. unfold auth_client_handle_line.
  step_deref H. rewrite Hh.
  destruct (starts_with AUTH_KW line).
  - apply (engine_auth_touches _ _ _ _ _ H Hctx Hrc).
  - destruct (starts_with CONT_KW line).
    + apply (engine_auth_touches _ _ _ _ _ H Hctx Hrc).
    + exists true, w. split; [reflexivity | apply touches_refl].
Qed.

Lemma scrubbed_touches c x w :
  heap w !! c = Some x -> touches c w (scrubbed c x w).
Proof.
  intros H. unfold scrubbed.
  apply (touches_trans c w (set_heap (<[c := scrub_conn x]> (heap w)) w)).
  - apply (touches_insert c w x _ H).
    + unfold scrub_conn. now destruct x as [? ? ? ? ? ? ? [? [|l m] ? ?] ?].
    + apply scrub_conn_fields.
  - apply touches_trace.
Qed.

(** What holds of [c] through a batch: registered, served by its own
    engine, and held by the registry, the engine and the batch. *)
Lemma dispatch_line_safe w c x line :
  registry_ok w ->
  c ∈ clients w ->
  heap w !! c = Some x ->
  2 < refcount x ->
  request_handler x <> None ->
  exists go w',
    dispatch_line c line w = Ok go w' /\
    registry_ok w' /\
    exists x', heap w' !! c = Some x' /\
      (if go then (c ∈ clients w') /\ core x' = core x /\
                  lines_of c w' = lines_of c w
       else (c ∉ clients w') /\ 0 < refcount x').
Proof.
  intros Hok Hc H Hrc Hb.
  destruct (reg_conn w Hok c Hc) as (x' & Hx' & Hcok).
  assert (x' = x) by congruence. subst x'.
  destruct (conn_ok_facts c x Hcok) as (Hfd & Hctx & _ & _ & _).
  destruct (request_handler x) as [h|] eqn:Hh; [|congruence].
  assert (Hhc : h_ctx h = c).
  { unfold own_ctx in Hctx. rewrite Hh in Hctx. now apply Nat.eqb_eq. }
  destruct (handle_line_touches w c x h line H Hh Hhc) as (r & w1 & Hrun & Ht1);
    [lia|].
  unfold dispatch_line. rewrite (bind_ok _ _ _ _ _ Hrun).
  destruct (touches_refcount c w w1 x Ht1 H) as (x1 & Hx1 & Hco1 & Hl1).
  rewrite (bind_ok _ _ _ _ _ (safe_memset_spec _ _ _ Hx1)).
  pose proof (scrubbed_touches c x1 w1 Hx1) as Ht2.
  pose proof (touches_trans c w w1 _ Ht1 Ht2) as Ht.
  destruct (touches_refcount c w _ x Ht H) as (x2 & Hx2 & Hco2 & Hl2).
  pose proof (registry_ok_touches c w _ Hok Ht) as Hok2.
  assert (Hc2 : c ∈ clients (scrubbed c x1 w1)).
  { destruct Ht as (-> & _). exact Hc. }
  destruct r.
  - exists true. eexists. split; [reflexivity|]. split; [exact Hok2|].
    exists x2. split; [exact Hx2|]. split; [exact Hc2|].
    split; [exact Hco2|].
    apply lines_of_touches; [exact Ht | now exists x].
  - injection Hco2 as Hf2 Hr2 Hp2 Hh2.
    destruct (destroy_safe _ c x2 Hok2 Hx2) as (Hd & Hok3 & Hout).
    { now rewrite Hf2. }
    { unfold own_ctx. rewrite Hh2, Hh, Hhc. apply Nat.eqb_refl. }
    { intros _. rewrite Hr2. lia. }
    exists false. eexists. rewrite (bind_ok _ _ _ _ _ Hd).
    split; [reflexivity|]. split; [exact Hok3|].
    unfold destroyed at 1. norm.
    assert (Hcnt : count_after_destroy x2 (scrubbed c x1 w1) > 0).
    { unfold count_after_destroy.
      destruct (sync_teardown x2 (scrubbed c x1 w1)); lia. }
    replace (count_after_destroy x2 (scrubbed c x1 w1) >? 0) with true by lia.
    eexists. rewrite lookup_insert_eq. split; [reflexivity|].
    split; [exact Hout|]. unfold closed_conn. norm. lia.
Qed.

Lemma dispatch_loop_safe c : forall n w x,
  registry_ok w ->
  c ∈ clients w ->
  heap w !! c = Some x ->
  2 < refcount x ->
  request_handler x <> None ->
  (lines_of c w < n)%nat ->
  exists w' x',
    dispatch_loop n c w = Ok tt w' /\
    registry_ok w' /\
    heap w' !! c = Some x' /\
    (((c ∈ clients w') /\ 2 < refcount x' /\ pid x' = pid x /\
      request_handler x' <> None)
     \/ ((c ∉ clients w') /\ 0 < refcount x')).
Proof.
  induction n as [|n IH]; intros w x Hok Hc H Hrc Hb Hn; [lia|].
  cbn [dispatch_loop].
  destruct (i_lines (input x)) as [|l ls] eqn:El.
  { rewrite (bind_ok _ _ _ _ _ (next_line_none _ _ _ H El)).
    exists w, x. split; [reflexivity|]. split; [exact Hok|].
    split; [exact H|]. left. now repeat split. }
  rewrite (bind_ok _ _ _ _ _ (next_line_spec _ _ _ _ _ H El)).
  set (x1 := set_input (IStream ls (l :: i_mem (input x))
                          (i_closed (input x)) (i_feed (input x))) x).
  set (w1 := set_heap (<[c := x1]> (heap w)) w).
  destruct (reg_conn w Hok c Hc) as (x0 & Hx0 & Hcok).
  assert (x0 = x) by congruence. subst x0.
  assert (Hx1 : heap w1 !! c = Some x1)
    by (subst w1; destruct w; norm; apply lookup_insert_eq).
  assert (Hco : core x1 = core x) by (subst x1; now destruct x).
  assert (Hok1 : registry_ok w1).
  { apply (registry_ok_update c w x x1 Hok H); [now destruct x|].
    intros _. now apply (conn_ok_core c x). }
  assert (Hc1 : c ∈ clients w1) by (subst w1; now destruct w).
  assert (Hl1 : lines_of c w1 = length ls).
  { unfold lines_of. rewrite Hx1. subst x1. now destruct x. }
  injection Hco as Hf1 Hr1 Hp1 Hh1.
  destruct (dispatch_line_safe w1 c x1 l Hok1 Hc1 Hx1)
    as (go & w2 & Hrun & Hok2 & x2 & Hx2 & Hgo);
    [now rewrite Hr1 | now rewrite Hh1 |].
  rewrite (bind_ok _ _ _ _ _ Hrun). destruct go.
  - destruct Hgo as (Hc2 & [= Hf2 Hr2 Hp2 Hh2] & Hl2).
    destruct (IH w2 x2 Hok2 Hc2 Hx2) as (w' & x' & Hloop & Hok' & Hx' & Hend).
    { rewrite Hr2, Hr1. exact Hrc. }
    { rewrite Hh2, Hh1. exact Hb. }
    { rewrite Hl2, Hl1. unfold lines_of in Hn. rewrite H, El in Hn.
      cbn [length] in Hn. lia. }
    exists w', x'. split; [exact Hloop|]. split; [exact Hok'|].
    split; [exact Hx'|].
    destruct Hend as [(Ha & Hb' & Hc' & Hd')|Hend]; [left|now right].
    repeat split; try assumption. congruence.
  - exists w2, x2. split; [reflexivity|]. split; [exact Hok2|].
    split; [exact Hx2|]. now right.
Qed.

Lemma conn_ok_refcount c x r :
  conn_ok c x = true ->
  match request_handler x with Some _ => 1 < r | None => 0 < r end ->
  conn_ok c (set_refcount r x) = true.
Proof.
  unfold conn_ok, own_ctx. destruct x as [? ? ? ? ? ? [h|] ? ?]; norm;
    intros H Hr; apply andb_prop in H as [H1 [_ H2]%andb_prop];
    rewrite H1, H2; cbn [andb]; rewrite andb_true_r; lia.
Qed.

(** Giving back a reference that is not the last one of a registered
    connection, or any reference of an unregistered one. *)
Lemma unref_safe w c x :
  registry_ok w ->
  heap w !! c = Some x ->
  (c ∈ clients w -> match request_handler x with
                    | Some _ => 2 < refcount x
                    | None => 1 < refcount x
                    end) ->
  exists w', auth_client_connection_unref c w = Ok tt w' /\
    registry_ok w' /\ clients w' = clients w.
Proof.
  intros Hok H Hreg. rewrite (unref_spec _ _ _ H).
  eexists. split; [reflexivity|].
  destruct (decide (c ∈ clients w)) as [Hc|Hc].
  - specialize (Hreg Hc).
    destruct (reg_conn w Hok c Hc) as (x' & Hx' & Hcok).
    assert (x' = x) by congruence. subst x'.
    assert (Hgt : refcount x - 1 > 0)
      by (destruct (request_handler x); lia).
    replace (refcount x - 1 >? 0) with true by lia.
    split; [|now destruct w].
    apply (registry_ok_update c w x _ Hok H); [now destruct x|].
    intros _. apply conn_ok_refcount; [exact Hcok|].
    destruct (request_handler x); lia.
  - assert (Hkeep : forall w1, clients w1 = clients w ->
              next_ptr w1 = next_ptr w ->
              (forall q, q <> c -> heap w1 !! q = heap w !! q) ->
              registry_ok w1).
    { intros w1 Hcl Hnp Hq.
      apply (registry_ok_core w w1 Hok Hcl Hnp).
      intros q y Hin Hy. exists y. rewrite Hq; [now split|].
      intros ->. contradiction. }
    destruct (refcount x - 1 >? 0); (split; [|now destruct w]);
      apply Hkeep; try (now destruct w);
      intros q Hq; destruct w; norm;
      [now apply lookup_insert_ne | now apply lookup_delete_ne].
Qed.

(** ** Finding a pid *)

Lemma lookup_exact w p c x :
  registry_ok w ->
  c ∈ clients w ->
  heap w !! c = Some x ->
  pid x = p ->
  p <> 0 ->
  auth_client_connection_lookup p w = Ok (Some c) w.
Proof.
  intros Hok Hc H Hp Hnz. unfold auth_client_connection_lookup.
  destruct (lookup_from_spec (clients w) p w (registry_alive w Hok))
    as ([o|] & Hlook & Hr).
  - destruct Hr as (pre & suf & y & Hl & Ho & Hpy & _).
    assert (Hoin : o ∈ clients w).
    { rewrite Hl. apply elem_of_app. right. apply list_elem_of_here. }
    assert (o = c)
      by (apply (reg_pids w Hok o c y x Hoin Hc Ho H); congruence).
    now subst o.
  - rewrite Forall_forall in Hr.
    destruct (Hr c Hc) as (z & Hz & Hne). congruence.
Qed.

Lemma lookup_free w p :
  registry_ok w ->
  (forall q z, q ∈ clients w -> heap w !! q = Some z -> pid z <> p) ->
  auth_client_connection_lookup p w = Ok None w.
Proof.
  intros Hok Hfree. unfold auth_client_connection_lookup.
  destruct (lookup_from_spec (clients w) p w (registry_alive w Hok))
    as ([o|] & Hlook & Hr); [|exact Hlook].
  destruct Hr as (pre & suf & y & Hl & Ho & Hpy & _).
  exfalso. apply (Hfree o y); [|exact Ho | exact Hpy].
  rewrite Hl. apply elem_of_app. right. apply list_elem_of_here.
Qed.

(** X12: in a consistent registry the lookup of a nonzero pid never
    reaches a freed object and is exact: it returns a connection exactly
    when that connection is registered with this pid, whichever slot it
    is in, and NULL exactly when no registered connection has it. *)
Theorem lookup_is_exact w p :
  registry_ok w ->
  p <> 0 ->
  (exists r, auth_client_connection_lookup p w = Ok r w) /\
  (forall c,
     auth_client_connection_lookup p w = Ok (Some c) w <->
     c ∈ clients w /\ exists x, heap w !! c = Some x /\ pid x = p) /\
  (auth_client_connection_lookup p w = Ok None w <->
   forall q z, q ∈ clients w -> heap w !! q = Some z -> pid z <> p).
Proof.
  intros Hok Hnz.
  pose proof (lookup_from_spec (clients w) p w (registry_alive w Hok))
    as (r & Hlook & Hr).
  split; [now exists r|]. split.
  - intros c. split.
    + intros Hc. unfold auth_client_connection_lookup in Hc.
      rewrite Hlook in Hc. injection Hc as ->.
      destruct Hr as (pre & suf & y & Hl & Ho & Hpy & _).
      split; [|now exists y].
      rewrite Hl. apply elem_of_app. right. apply list_elem_of_here.
    + intros (Hc & x & Hx & Hp). now apply (lookup_exact w p c x).
  - split.
    + intros Hn. unfold auth_client_connection_lookup in Hn.
      rewrite Hlook in Hn. injection Hn as ->.
      rewrite Forall_forall in Hr. intros q z Hq Hz.
      destruct (Hr q Hq) as (z' & Hz' & Hne). congruence.
    + now apply lookup_free.
Qed.

Lemma lookup_is_exact_witness :
  let w := ex_world [(100%nat, ex_active 100 5 2 555 [] []);
                     (101%nat, ex_active 101 6 2 777 [] [])]
             [100%nat; 101%nat] [] [] [] in
  auth_client_connection_lookup 777 w = Ok (Some 101%nat) w /\
  auth_client_connection_lookup 888 w = Ok None w.
Proof.
  intros w. split.
  - apply (lookup_is_exact w 777); [apply registry_check_sound; reflexivity
                                   | discriminate |].
    split; [apply list_elem_of_further, list_elem_of_here|].
    eexists. split; reflexivity.
  - reflexivity.
Defined.

Lemma used_size_spec w c x :
  heap w !! c = Some x ->
  o_stream_get_buffer_used_size c w = Ok (o_used (output x)) w.
Proof. intros H. unfold o_stream_get_buffer_used_size. now step_deref H. Qed.

(** ** The entry points keep the registry consistent *)

Section Entry.

Variable MAJOR MINOR : Z.

(** X13: the read callback on a registered connection of a consistent
    registry runs to its end, whatever the peer sent and whatever the
    engine answers: no assertion fails, no freed object is reached, no
    command finds the engine missing, and the loops end within the lines
    buffered.  The registry is consistent again when it returns. *)
Theorem input_keeps_registry w c :
  registry_ok w ->
  c ∈ clients w ->
  exists w', auth_client_input MAJOR c w = Ok tt w' /\ registry_ok w'.
Proof.
  intros Hok Hc.
  destruct (reg_conn w Hok c Hc) as (x & H & Hcok).
  unfold auth_client_input.
  rewrite (bind_ok _ _ _ _ _ (i_stream_read_spec _ _ _ H)).
  pose proof (registry_ok_after_read c x w Hok H) as Hok1.
  assert (Hc1 : c ∈ clients (after_read c x w)) by now destruct w.
  pose proof (after_read_lookup w c x) as Hx1.
  destruct (read_ret x =? 0); [now exists (after_read c x w)|].
  destruct (read_ret x =? -1).
  { destruct (destroy_registered _ c Hok1 Hc1) as (y & _ & _ & Hd & Hok2 & _).
    eexists. split; [exact Hd | exact Hok2]. }
  destruct (read_ret x =? -2).
  { rewrite emit_then.
    destruct (destroy_registered
                (set_trace (trace (after_read c x w) ++ [EvError
                   "BUG: Auth client sent us more than AUTH_CLIENT_MAX_LINE_LENGTH bytes"])
                   (after_read c x w)) c)
      as (y & _ & _ & Hd & Hok2 & _);
      [now apply registry_ok_trace | now destruct w |].
    eexists. split; [exact Hd | exact Hok2]. }
  rewrite (bind_ok _ _ _ _ _ (buffered_lines_spec _ _ _ Hx1)).
  destruct (handshake_loop_safe MAJOR c
              (S (length (i_lines (input (read_conn x))))) _ Hok1 Hc1)
    as (go & w2 & Hloop & Hok2 & Hgo).
  { unfold lines_of. rewrite Hx1. lia. }
  rewrite (bind_ok _ _ _ _ _ Hloop).
  destruct go; [|now exists w2].
  destruct (Hgo eq_refl) as (Hc2 & x2 & h & Hx2 & Hh2).
  step_deref Hx2.
  rewrite (bind_ok _ _ _ _ _ (modify_ok _ _ _ _ Hx2)).
  set (x3 := set_refcount (refcount x2 + 1) x2).
  set (w3 := set_heap (<[c := x3]> (heap w2)) w2).
  destruct (reg_conn w2 Hok2 c Hc2) as (x2' & Hx2' & Hcok2).
  assert (x2' = x2) by congruence. subst x2'.
  destruct (conn_ok_facts c x2 Hcok2) as (_ & _ & _ & Hb2 & _).
  destruct Hb2 as (Hrc2 & _); [congruence|].
  assert (Hx3 : heap w3 !! c = Some x3)
    by (subst w3; destruct w2; norm; apply lookup_insert_eq).
  assert (Hok3 : registry_ok w3).
  { apply (registry_ok_update c w2 x2 x3 Hok2 Hx2); [now destruct x2|].
    intros _. apply conn_ok_refcount; [exact Hcok2|]. rewrite Hh2. lia. }
  assert (Hc3 : c ∈ clients w3) by (subst w3; now destruct w2).
  rewrite (bind_ok _ _ _ _ _ (buffered_lines_spec _ _ _ Hx3)).
  destruct (dispatch_loop_safe c (S (length (i_lines (input x3)))) w3 x3
              Hok3 Hc3 Hx3)
    as (w4 & x4 & Hd & Hok4 & Hx4 & Hend).
  { subst x3. destruct x2; norm. norm in Hrc2. lia. }
  { subst x3. destruct x2; norm. norm in Hh2. congruence. }
  { unfold lines_of. rewrite Hx3. lia. }
  rewrite (bind_ok _ _ _ _ _ Hd).
  destruct (unref_safe w4 c x4 Hok4 Hx4) as (w5 & Hu & Hok5 & _).
  { intros Hin. destruct Hend as [(_ & Hr4 & _ & Hh4)|(Hout & _)];
      [|contradiction].
    destruct (request_handler x4); [exact Hr4 | congruence]. }
  now exists w5.
Qed.

(** X14: the flush callback on a registered connection of a consistent
    registry returns 1 with the registry consistent, whether the flush
    failed (the connection is destroyed) or not. *)
Theorem output_keeps_registry w c :
  registry_ok w ->
  c ∈ clients w ->
  exists w', auth_client_output c w = Ok 1 w' /\ registry_ok w'.
Proof.
  intros Hok Hc.
  destruct (reg_conn w Hok c Hc) as (x & H & Hcok).
  unfold auth_client_output.
  rewrite (bind_ok _ _ _ _ _ (flush_spec _ _ _ H)).
  pose proof (stepped_fields x) as (Hf1 & Hf2 & Hf3 & Hf4).
  assert (Hx1 : heap (after_flush c x w) !! c = Some (stepped x))
    by (destruct w; unfold after_flush; norm; apply lookup_insert_eq).
  assert (Hco : core (stepped x) = core x).
  { unfold stepped. now destruct x as [? ? ? ? ? ? ? ? [? ? [|[r u] f]]]. }
  assert (Hok1 : registry_ok (after_flush c x w)).
  { unfold after_flush. apply registry_ok_trace.
    apply (registry_ok_update c w x _ Hok H); [now injection Hco|].
    intros _. now apply (conn_ok_core c x). }
  assert (Hc1 : c ∈ clients (after_flush c x w)) by now destruct w.
  destruct (ret_after x <? 0).
  - destruct (destroy_registered _ c Hok1 Hc1) as (y & _ & _ & Hd & Hok2 & _).
    eexists. rewrite (bind_ok _ _ _ _ _ Hd). split; [reflexivity | exact Hok2].
  - rewrite (bind_ok _ _ _ _ _ (used_size_spec _ _ _ Hx1)).
    step_deref Hx1.
    destruct ((o_used (output (stepped x)) <=? OUTBUF_THROTTLE_SIZE / 3)
              && negb (io (stepped x))).
    + erewrite bind_ok; cycle 1.
      { unfold io_add. rewrite emit_then. apply modify_ok.
        rewrite heap_set_trace. exact Hx1. }
      eexists. split; [reflexivity|].
      apply (registry_ok_update c _ (stepped x)).
      * now apply registry_ok_trace.
      * rewrite heap_set_trace. exact Hx1.
      * now destruct (stepped x).
      * intros _. apply (conn_ok_core c x); [|exact Hcok].
        rewrite <- Hco. now destruct (stepped x).
    + eexists. split; [reflexivity | exact Hok1].
Qed.

(** X15: accepting a connection (an open descriptor) in a consistent
    registry leaves it consistent.  On success the new connection is
    registered and was not before; when the announcement cannot be
    written the registry is the one before the call. *)
Theorem create_keeps_registry w f ifeed ofeed :
  registry_ok w ->
  f <> -1 ->
  exists r w',
    auth_client_connection_create MAJOR MINOR f ifeed ofeed w = Ok r w' /\
    registry_ok w' /\
    match r with
    | Some c => clients w' = clients w ++ [c] /\ c ∉ clients w
    | None => clients w' = clients w
    end.
Proof.
  intros Hok Hf. rewrite create_runs. cbv zeta.
  set (c := next_ptr w).
  set (x := accepted f (to_uint (connect_uid_counter w + 1)) ifeed ofeed).
  match goal with
  | |- context [Ok (Some c) ?w0] => set (w1 := w0)
  end.
  assert (Hfresh : c ∉ clients w).
  { intros Hin. apply (reg_fresh w Hok) in Hin. subst c. lia. }
  assert (Hx : heap w1 !! c = Some x) by apply lookup_insert_eq.
  assert (Hcok : conn_ok c x = true).
  { unfold conn_ok, own_ctx, x, accepted. norm.
    replace (f =? -1) with false by lia. reflexivity. }
  assert (Hok1 : registry_ok w1).
  { destruct Hok as [Hnd Hconn Hfr Hpids]. subst w1. split; norm.
    - apply NoDup_app. split; [exact Hnd|]. split; [|apply NoDup_singleton].
      intros q Hq [->|[]%not_elem_of_nil]%elem_of_cons. contradiction.
    - intros q [Hq|[->|[]%not_elem_of_nil]%elem_of_cons]%elem_of_app.
      + rewrite lookup_insert_ne by (intros <-; contradiction).
        now apply Hconn.
      + exists x. split; [apply lookup_insert_eq | exact Hcok].
    - intros q [Hq|[->|[]%not_elem_of_nil]%elem_of_cons]%elem_of_app.
      + apply Hfr in Hq. fold c. lia.
      + lia.
    - intros c1 c2 y1 y2 Hc1 Hc2.
      assert (Hold : forall q y, q ∈ clients w ++ [c] ->
                <[c := x]> (heap w) !! q = Some y -> pid y <> 0 ->
                q ∈ clients w /\ heap w !! q = Some y).
      { intros q y [Hq|[->|[]%not_elem_of_nil]%elem_of_cons]%elem_of_app.
        - rewrite lookup_insert_ne by (intros <-; contradiction). now split.
        - rewrite lookup_insert_eq. intros [= <-] Hnz. now exfalso. }
      intros Hy1 Hy2 Hp Hnz.
      destruct (Hold c1 y1 Hc1 Hy1 Hnz) as (Hi1 & Hz1).
      destruct (Hold c2 y2 Hc2 Hy2) as (Hi2 & Hz2); [congruence|].
      now apply (Hpids c1 c2 y1 y2). }
  destruct (feed_ret ofeed <? 0).
  - destruct (destroy_safe w1 c x Hok1 Hx Hf) as (Hd & Hok2 & _);
      [reflexivity | intros Hh; now exfalso|].
    exists None. eexists. rewrite (bind_ok _ _ _ _ _ Hd).
    split; [reflexivity|]. split; [exact Hok2|].
    unfold destroyed. norm. now apply delete_first_last.
  - exists (Some c), w1. split; [reflexivity|]. split; [exact Hok1|].
    now split.
Qed.

End Entry.

Lemma input_keeps_registry_witness :
  let x := ex_active 100 5 2 555 []
             [(12, [tabbed "AUTH" "secret"; tabbed "CONT" "more"])] in
  let w := ex_world [(100%nat, x)] [100%nat] [(true, ["OK"%string]); (false, [])]
             [true] [] in
  exists w', auth_client_input 1 100 w = Ok tt w' /\ registry_ok w'.
Proof.
  intros x w.
  apply (input_keeps_registry 1 w 100%nat);
    [apply registry_check_sound; reflexivity | apply list_elem_of_here].
Defined.

Lemma output_keeps_registry_witness :
  let x := Conn 5 false 2 555 1 true (Some (Handler 0 100 false))
             (IStream [] [] false []) (OStream 60000 false [(0, 100)]) in
  let w := ex_world [(100%nat, x)] [100%nat] [] [] [] in
  exists w', auth_client_output 100 w = Ok 1 w' /\ registry_ok w'.
Proof.
  intros x w.
  apply (output_keeps_registry w 100%nat);
    [apply registry_check_sound; reflexivity | apply list_elem_of_here].
Defined.

(** A registry of a serving and a waiting connection accepts a third
    one, once with a send that goes through and once with a send that
    fails. *)
Lemma create_keeps_registry_witness :
  let w := ex_world [(100%nat, ex_active 100 5 2 555 [] []);
                     (101%nat, ex_waiting 6 [])]
             [100%nat; 101%nat] [] [] [] in
  (exists w', auth_client_connection_create 1 0 7 [] [(30, 0)] w
                = Ok (Some 200%nat) w' /\
     registry_ok w' /\ clients w' = [100%nat; 101%nat; 200%nat]) /\
  (exists w', auth_client_connection_create 1 0 7 [] [(-1, 0)] w
                = Ok None w' /\
     registry_ok w' /\ clients w' = [100%nat; 101%nat]).
Proof.
  intros w. split.
  - destruct (create_keeps_registry 1 0 w 7 [] [(30, 0)])
      as (r & w' & Hrun & Hok & Hcl);
      [apply registry_check_sound; reflexivity | discriminate |].
    assert (E : auth_client_connection_create 1 0 7 [] [(30, 0)] w = Ok r w')
      by exact Hrun.
    vm_compute in E. injection E as <- Hw'.
    exists w'. split; [exact Hrun|]. split; [exact Hok|]. apply Hcl.
  - destruct (create_keeps_registry 1 0 w 7 [] [(-1, 0)])
      as (r & w' & Hrun & Hok & Hcl);
      [apply registry_check_sound; reflexivity | discriminate |].
    assert (E : auth_client_connection_create 1 0 7 [] [(-1, 0)] w = Ok r w')
      by exact Hrun.
    vm_compute in E. injection E as <- Hw'.
    exists w'. split; [exact Hrun|]. split; [exact Hok|]. exact Hcl.
Defined.


(** ** Destroy and the registry *)

Lemma lookup_found w p c :
  registry_ok w ->
  auth_client_connection_lookup p w = Ok (Some c) w ->
  c ∈ clients w /\ exists x, heap w !! c = Some x /\ pid x = p.
Proof.
  intros Hok Hc. unfold auth_client_connection_lookup in Hc.
  destruct (lookup_from_spec (clients w) p w (registry_alive w Hok))
    as (r & Hlook & Hr).
  rewrite Hlook in Hc. injection Hc as ->.
  destruct Hr as (pre & suf & y & Hl & Ho & Hpy & _).
  split; [|now exists y].
  rewrite Hl. apply elem_of_app. right. apply list_elem_of_here.
Qed.

(** X16: destroying a registered connection of a consistent registry
    takes exactly this connection out of it and leaves it consistent.  Its
    pid, found by the lookup before, is free afterwards, and every other
    pid is found as before. *)
Theorem destroy_frees_the_pid w c x :
  registry_ok w ->
  c ∈ clients w ->
  heap w !! c = Some x ->
  exists w',
    auth_client_connection_destroy c w = Ok tt w' /\
    registry_ok w' /\
    (forall q, q ∈ clients w' <-> q ∈ clients w /\ q <> c) /\
    (pid x <> 0 ->
     auth_client_connection_lookup (pid x) w = Ok (Some c) w /\
     auth_client_connection_lookup (pid x) w' = Ok None w') /\
    (forall p q, p <> 0 -> q <> c ->
     auth_client_connection_lookup p w = Ok (Some q) w ->
     auth_client_connection_lookup p w' = Ok (Some q) w').
Proof.
  intros Hok Hc H.
  destruct (destroy_registered w c Hok Hc) as (x' & Hx' & _ & Hd & Hok' & Hout).
  assert (x' = x) by congruence. subst x'.
  exists (destroyed c x w). split; [exact Hd|]. split; [exact Hok'|].
  assert (Hmem : forall q, q ∈ clients (destroyed c x w) <->
                   q ∈ clients w /\ q <> c).
  { intros q. rewrite destroyed_clients. split.
    - intros Hq. split; [now apply (delete_first_subset c)|].
      now apply (delete_first_other c q (clients w) (reg_nodup w Hok)).
    - intros [Hq Hne]. now apply delete_first_keeps. }
  split; [exact Hmem|]. split.
  - intros Hnz. split; [now apply (lookup_exact w (pid x) c x)|].
    apply (lookup_free _ _ Hok').
    intros q z [Hq Hne]%Hmem Hz Hp.
    rewrite destroyed_lookup_ne in Hz by exact Hne.
    apply Hne. apply (reg_pids w Hok q c z x Hq Hc Hz H Hp). congruence.
  - intros p q Hp Hne Hlook.
    destruct (lookup_found w p q Hok Hlook) as (Hq & y & Hy & Hpy).
    apply (lookup_exact _ p q y Hok'); [now apply Hmem | | exact Hpy | exact Hp].
    now rewrite destroyed_lookup_ne.
Qed.

Lemma destroy_frees_the_pid_witness :
  let x := ex_active 100 5 2 555 [] [] in
  let w := ex_world [(100%nat, x); (101%nat, ex_active 101 6 2 777 [] [])]
             [100%nat; 101%nat] [] [] [] in
  exists w',
    auth_client_connection_destroy 100 w = Ok tt w' /\
    auth_client_connection_lookup 555 w' = Ok None w' /\
    auth_client_connection_lookup 777 w' = Ok (Some 101%nat) w'.
Proof.
  intros x w.
  destruct (destroy_frees_the_pid w 100%nat x)
    as (w' & Hd & _ & _ & Hfree & Hother);
    [apply registry_check_sound; reflexivity | apply list_elem_of_here
    | reflexivity |].
  exists w'. split; [exact Hd|]. split.
  - apply Hfree. discriminate.
  - apply Hother; [discriminate | discriminate | reflexivity].
Defined.

(** ** A command the engine rejects *)

Lemma handle_line_answer w c x h line :
  heap w !! c = Some x ->
  request_handler x = Some h ->
  h_ctx h = c ->
  1 < refcount x ->
  unknown_command line = false ->
  exists w1, auth_client_handle_line c line w = Ok (fst (engine_answer w)) w1.
Proof.
  intros H Hh Hctx Hrc Hcmd. unfold auth_client_handle_line.
  step_deref H. rewrite Hh. unfold unknown_command in Hcmd.
  destruct (starts_with AUTH_KW line).
  - destruct (engine_auth_trace w c x h (EvAuthBegin h (skip 5 line))
                H Hctx Hrc) as (w1 & _ & Hrun & _).
    now exists w1.
  - destruct (starts_with CONT_KW line); [|discriminate].
    destruct (engine_auth_trace w c x h (EvAuthContinue h (skip 5 line))
                H Hctx Hrc) as (w1 & _ & Hrun & _).
    now exists w1.
Qed.

(** X17: when the engine rejects a command, the batch ends there: the
    line is scrubbed like any other, the connection is destroyed (out of
    the registry, closed, still allocated for the batch), and the lines
    behind the rejected one stay in the buffer; they are neither
    dispatched nor scrubbed. *)
Theorem rejected_command_ends_batch w c x h l rest n :
  heap w !! c = Some x ->
  request_handler x = Some h ->
  h_ctx h = c ->
  fd x <> -1 ->
  2 < refcount x ->
  i_lines (input x) = l :: rest ->
  unknown_command l = false ->
  fst (engine_answer w) = false ->
  exists w' x',
    dispatch_loop (S n) c w = Ok tt w' /\
    clients w' = array_delete_first c (clients w) /\
    heap w' !! c = Some x' /\
    fd x' = -1 /\
    0 < refcount x' /\
    i_lines (input x') = rest /\
    i_mem (input x') = scrub_of l :: i_mem (input x).
Proof.
  intros H Hh Hctx Hfd Hrc Hl Hcmd Hrej. cbn [dispatch_loop].
  rewrite (bind_ok _ _ _ _ _ (next_line_spec _ _ _ _ _ H Hl)).
  set (xA := set_input (IStream rest (l :: i_mem (input x))
                          (i_closed (input x)) (i_feed (input x))) x).
  set (wA := set_heap (<[c := xA]> (heap w)) w).
  assert (HA : heap wA !! c = Some xA)
    by (subst wA; destruct w; norm; apply lookup_insert_eq).
  assert (HhA : request_handler xA = Some h) by (destruct x; exact Hh).
  assert (HrA : refcount xA = refcount x) by (now destruct x).
  assert (HfA : fd xA = fd x) by (now destruct x).
  assert (HclA : clients wA = clients w) by (subst wA; now destruct w).
  assert (HaA : engine_answer wA = engine_answer w)
    by (subst wA; now destruct w).
  destruct (dispatch_line_spec wA c xA h l HA HhA Hctx)
    as (r & w1 & x1 & Hrun & Hx1 & Hsame & _ & Hdl); [lia|].
  destruct (handle_line_answer wA c xA h l HA HhA Hctx) as (w1' & Hans);
    [lia | exact Hcmd |].
  rewrite HaA, Hrej in Hans.
  assert (r = false) by congruence. subst r.
  destruct (handle_line_frame wA c xA h l HA HhA Hctx)
    as (r' & w1'' & Hrun' & _ & Hcl1 & _); [lia|].
  assert (w1'' = w1) by congruence. subst w1''.
  destruct Hsame as (Hf1 & Hr1 & _ & _ & _ & Hh1 & Hin1).
  pose proof (scrub_conn_fields x1) as (Hs1 & Hs2 & Hs3 & Hs4).
  pose proof (scrubbed_lookup w1 c x1) as Hx2.
  assert (Hd : auth_client_connection_destroy c (scrubbed c x1 w1)
               = Ok tt (destroyed c (scrub_conn x1) (scrubbed c x1 w1))).
  { apply (destroy_spec _ _ _ Hx2).
    - rewrite Hs1, Hf1, HfA. exact Hfd.
    - unfold own_ctx. rewrite Hs3, Hh1, HhA, Hctx. apply Nat.eqb_refl.
    - intros _. rewrite Hs2, Hr1, HrA. lia. }
  assert (Hfull : dispatch_line c l wA
            = Ok false (destroyed c (scrub_conn x1) (scrubbed c x1 w1)))
    by (rewrite Hdl; now rewrite (bind_ok _ _ _ _ _ Hd)).
  rewrite (bind_ok _ _ _ _ _ Hfull).
  assert (Hcnt : count_after_destroy (scrub_conn x1) (scrubbed c x1 w1) > 0).
  { unfold count_after_destroy. rewrite Hs2, Hr1, HrA.
    destruct (sync_teardown _ _); lia. }
  eexists. eexists. split; [reflexivity|].
  unfold destroyed at 1 2. norm.
  replace (count_after_destroy (scrub_conn x1) (scrubbed c x1 w1) >? 0)
    with true by lia.
  split.
  { f_equal. rewrite <- HclA, <- Hcl1. now destruct w1. }
  rewrite lookup_insert_eq. split; [reflexivity|].
  unfold closed_conn. norm.
  split; [reflexivity|]. split; [lia|].
  split.
  - rewrite Hs4, Hin1. subst xA. now destruct x.
  - apply scrub_conn_mem. rewrite Hin1. subst xA. now destruct x.
Qed.

(** Two lines are buffered; the engine rejects the first. *)
Lemma rejected_command_ends_batch_witness :
  let x := ex_active 100 5 3 555 [tabbed "AUTH" "1"; tabbed "AUTH" "2"] [] in
  let w := ex_world [(100%nat, x)] [100%nat] [(false, [])] [] [] in
  exists w' x',
    dispatch_loop 3 100 w = Ok tt w' /\
    clients w' = [] /\
    heap w' !! 100%nat = Some x' /\
    i_lines (input x') = [tabbed "AUTH" "2"].
Proof.
  intros x w.
  destruct (rejected_command_ends_batch w 100%nat x (Handler 100 100 false)
              (tabbed "AUTH" "1") [tabbed "AUTH" "2"] 2)
    as (w' & x' & Hrun & Hcl & Hx' & _ & _ & Hl & _);
    [reflexivity | reflexivity | reflexivity | discriminate | reflexivity
    | reflexivity | reflexivity | reflexivity |].
  exists w', x'. split; [exact Hrun|]. split; [exact Hcl|].
  split; [exact Hx' | exact Hl].
Defined.

(** ** A handshake that arrives in one read *)

Lemma lookup_set_heap c y w :
  heap (set_heap (<[c := y]> (heap w)) w) !! c = Some y.
Proof. destruct w. norm. apply lookup_insert_eq. Qed.

Lemma trace_set_heap hp w : trace (set_heap hp w) = trace w.
Proof. now destruct w. Qed.

Section Session.

Variable MAJOR : Z.

Lemma version_line_accepted w c x line :
  heap w !! c = Some x ->
  version_received x = false ->
  version_mismatch MAJOR line = false ->
  handshake_line MAJOR c line w
  = Ok true (set_heap (<[c := set_version_received true x]> (heap w)) w).
Proof.
  intros H Hv Hm. unfold handshake_line. step_deref H.
  rewrite Hv, Hm. cbn [negb].
  now rewrite (bind_ok _ _ _ _ _ (modify_ok _ _ _ _ H)).
Qed.

Lemma cpid_line_binds w c x args :
  heap w !! c = Some x ->
  version_received x = true ->
  pid x = 0 ->
  to_uint (strtoul args) <> 0 ->
  auth_client_connection_lookup (to_uint (strtoul args)) w = Ok None w ->
  handshake_line MAJOR c (CPID_KW ++ args) w
  = Ok true (bound c x (to_uint (strtoul args)) w).
Proof.
  intros H Hv Hp Hnz Hlook. unfold handshake_line. step_deref H.
  rewrite Hv. cbn [negb]. rewrite starts_with_app.
  change 5%nat with (String.length CPID_KW). rewrite skip_app.
  now rewrite (bind_ok _ _ _ _ _ (cpid_fresh w c x args H Hp Hnz Hlook)).
Qed.

Lemma handshake_loop_step n w c x l ls w2 :
  heap w !! c = Some x ->
  request_handler x = None ->
  i_lines (input x) = l :: ls ->
  handshake_line MAJOR c l
    (set_heap (<[c := set_input (IStream ls (l :: i_mem (input x))
                                   (i_closed (input x)) (i_feed (input x))) x]>
                 (heap w)) w) = Ok true w2 ->
  handshake_loop MAJOR (S n) c w = handshake_loop MAJOR n c w2.
Proof.
  intros H Hh Hl Hline. cbn [handshake_loop]. step_deref H. rewrite Hh.
  rewrite (bind_ok _ _ _ _ _ (next_line_spec _ _ _ _ _ H Hl)).
  now rewrite (bind_ok _ _ _ _ _ Hline).
Qed.

Lemma handshake_loop_bound n w c x h :
  heap w !! c = Some x ->
  request_handler x = Some h ->
  handshake_loop MAJOR n c w = Ok true w.
Proof.
  intros H Hh. destruct n; cbn [handshake_loop]; step_deref H;
    now rewrite Hh.
Qed.

(** X18: the VERSION line and the CPID line of a new connection arrive
    in one read, the version matches and the pid is nonzero and free.
    The one read callback completes the handshake: both lines are taken,
    the engine is created and bound with this pid, the count has gone up
    by one (the engine's reference; the reference of the batch is taken
    and given back), nothing is written and nothing is scrubbed, the
    registry is consistent and the lookup of the pid finds the
    connection. *)
Theorem handshake_in_one_read w c x vline args :
  registry_ok w ->
  c ∈ clients w ->
  heap w !! c = Some x ->
  version_received x = false ->
  request_handler x = None ->
  read_ret x <> 0 -> read_ret x <> -1 -> read_ret x <> -2 ->
  i_lines (input (read_conn x)) = [vline; (CPID_KW ++ args)%string] ->
  version_mismatch MAJOR vline = false ->
  to_uint (strtoul args) <> 0 ->
  (forall q z, q ∈ clients w -> heap w !! q = Some z ->
     pid z <> to_uint (strtoul args)) ->
  let p := to_uint (strtoul args) in
  let h := Handler (next_hid w) c (negb (Nat.eqb (masters w) 0)) in
  exists w' x',
    auth_client_input MAJOR c w = Ok tt w' /\
    registry_ok w' /\
    heap w' !! c = Some x' /\
    version_received x' = true /\
    request_handler x' = Some h /\
    pid x' = p /\
    refcount x' = refcount x + 1 /\
    i_lines (input x') = [] /\
    i_mem (input x') = [(CPID_KW ++ args)%string; vline]
                       ++ i_mem (input x) /\
    clients w' = clients w /\
    trace w' = trace w ++ [EvRead c (read_ret x); EvHandlerCreate h;
                           EvHandlerSet h (connect_uid x) p] /\
    auth_client_connection_lookup p w' = Ok (Some c) w'.
Proof.
  intros Hok Hc H Hv Hh H0 H1 H2 Hlines Hm Hnz Hfree p h.
  destruct (reg_conn w Hok c Hc) as (x0 & Hx0 & Hcok).
  assert (x0 = x) by congruence. subst x0.
  destruct (conn_ok_facts c x Hcok) as (_ & _ & Hrc & _ & Hpid).
  specialize (Hpid Hh).
  (* the read *)
  set (w1 := after_read c x w). set (x1 := read_conn x).
  pose proof (after_read_lookup w c x) as Hx1. fold w1 x1 in Hx1.
  pose proof (registry_ok_after_read c x w Hok H) as Hok1. fold w1 in Hok1.
  (* the VERSION line *)
  set (xa := set_input (IStream [(CPID_KW ++ args)%string]
                          (vline :: i_mem (input x1))
                          (i_closed (input x1)) (i_feed (input x1))) x1).
  set (wa := set_heap (<[c := xa]> (heap w1)) w1).
  pose proof (lookup_set_heap c xa w1) as Hxa. fold wa in Hxa.
  set (xb := set_version_received true xa).
  set (wb := set_heap (<[c := xb]> (heap wa)) wa).
  pose proof (lookup_set_heap c xb wa) as Hxb. fold wb in Hxb.
  (* the CPID line *)
  set (xc := set_input (IStream [] ((CPID_KW ++ args)%string
                                    :: i_mem (input xb))
                          (i_closed (input xb)) (i_feed (input xb))) xb).
  set (wc := set_heap (<[c := xc]> (heap wb)) wb).
  pose proof (lookup_set_heap c xc wb) as Hxc. fold wc in Hxc.
  assert (Hfacts : request_handler x1 = None /\
            version_received xa = false /\ request_handler xb = None /\
            i_lines (input xb) = [(CPID_KW ++ args)%string] /\
            version_received xc = true).
  { subst xc xb xa x1. unfold read_conn.
    destruct x as [? ? ? ? ? ? ? [? ? ? [|[r ls] f]] ?]; norm;
      norm in Hh; norm in Hv; now repeat split. }
  destruct Hfacts as (G1 & G2 & G3 & G4 & G5).
  assert (Hcore : core xc = core x).
  { subst xc xb xa x1. unfold read_conn.
    now destruct x as [? ? ? ? ? ? ? [? ? ? [|[r ls] f]] ?]. }
  injection Hcore as Hcf Hcr Hcp Hch.
  assert (Hokc : registry_ok wc /\ clients wc = clients w /\
            (forall q, q <> c -> heap wc !! q = heap w !! q) /\
            trace wc = trace w ++ [EvRead c (read_ret x)] /\
            next_hid wc = next_hid w /\ masters wc = masters w).
  { assert (Hco1 : core x1 = core x).
    { subst x1. unfold read_conn.
      now destruct x as [? ? ? ? ? ? ? [? ? ? [|[r ls] f]] ?]. }
    assert (Hoka : registry_ok wa).
    { apply (registry_ok_update c w1 x1 xa Hok1 Hx1); [now destruct x1|].
      intros _. apply (conn_ok_core c x); [|exact Hcok].
      rewrite <- Hco1. now destruct x1. }
    assert (Hokb : registry_ok wb).
    { apply (registry_ok_update c wa xa xb Hoka Hxa); [now destruct xa|].
      intros _. apply (conn_ok_core c x); [|exact Hcok].
      rewrite <- Hco1. now destruct x1. }
    split.
    { apply (registry_ok_update c wb xb xc Hokb Hxb); [now destruct xb|].
      intros _. apply (conn_ok_core c x); [|exact Hcok].
      rewrite <- Hco1. now destruct x1. }
    subst wc wb wa w1. unfold after_read. destruct w. norm.
    split; [reflexivity|]. split; [|now split].
    intros q Hq. now rewrite !lookup_insert_ne by congruence. }
  destruct Hokc as (Hokc & Hclc & Hqc & Htrc & Hnhc & Hmsc).
  assert (Hlook : auth_client_connection_lookup p wc = Ok None wc).
  { apply (lookup_free _ _ Hokc). intros q z Hq Hz.
    destruct (decide (q = c)) as [->|Hne].
    - assert (z = xc) by congruence. subst z. rewrite Hcp, Hpid.
      intros Hp0. now apply Hnz.
    - rewrite Hqc in Hz by exact Hne. rewrite Hclc in Hq.
      now apply (Hfree q z). }
  (* the handshake loop *)
  assert (Hloop : handshake_loop MAJOR 3 c w1 = Ok true (bound c xc p wc)).
  { rewrite (handshake_loop_step 2 w1 c x1 vline [(CPID_KW ++ args)%string] wb
               Hx1); cycle 1.
    { exact G1. }
    { exact Hlines. }
    { now apply (version_line_accepted wa c xa vline Hxa). }
    rewrite (handshake_loop_step 1 wb c xb (CPID_KW ++ args) []
               (bound c xc p wc) Hxb); cycle 1.
    { exact G3. }
    { exact G4. }
    { apply (cpid_line_binds wc c xc args Hxc);
        [exact G5 | now rewrite Hcp | exact Hnz | exact Hlook]. }
    destruct (bound_lookup wc c xc p) as (y & Hy & Hyh & _).
    destruct (request_handler y) as [hy|] eqn:Ey; [|congruence].
    now apply (handshake_loop_bound 1 _ c y hy). }
  (* the batch *)
  set (x4 := set_pid p (set_request_handler (Some h)
                          (set_refcount (refcount xc + 1) xc))).
  assert (Hx4 : heap (bound c xc p wc) !! c = Some x4).
  { unfold bound. norm. rewrite Hnhc, Hmsc. apply lookup_insert_eq. }
  set (x5 := set_refcount (refcount x4 + 1) x4).
  set (w5 := set_heap (<[c := x5]> (heap (bound c xc p wc))) (bound c xc p wc)).
  pose proof (lookup_set_heap c x5 (bound c xc p wc)) as Hx5. fold w5 in Hx5.
  assert (Hl5 : i_lines (input x5) = []).
  { subst x5 x4 xc. now destruct xb. }
  set (x6 := set_refcount (refcount x5 - 1) x5).
  assert (Hrun : auth_client_input MAJOR c w
                 = Ok tt (set_heap (<[c := x6]> (heap w5)) w5)).
  { unfold auth_client_input.
    rewrite (bind_ok _ _ _ _ _ (i_stream_read_spec _ _ _ H)).
    replace (read_ret x =? 0) with false by lia.
    replace (read_ret x =? -1) with false by lia.
    replace (read_ret x =? -2) with false by lia.
    fold w1.
    rewrite (bind_ok _ _ _ _ _ (buffered_lines_spec _ _ _ Hx1)).
    subst x1. rewrite Hlines. cbn [length].
    rewrite (bind_ok _ _ _ _ _ Hloop).
    step_deref Hx4.
    rewrite (bind_ok _ _ _ _ _ (modify_ok _ _ _ _ Hx4)).
    fold x5 w5.
    rewrite (bind_ok _ _ _ _ _ (buffered_lines_spec _ _ _ Hx5)).
    rewrite Hl5. cbn [length].
    assert (Hdl : dispatch_loop 1 c w5 = Ok tt w5).
    { cbn [dispatch_loop].
      now rewrite (bind_ok _ _ _ _ _ (next_line_none _ _ _ Hx5 Hl5)). }
    rewrite (bind_ok _ _ _ _ _ Hdl).
    rewrite (unref_spec _ _ _ Hx5).
    replace (refcount x5 - 1 >? 0) with true; [reflexivity|].
    subst x5 x4. destruct xc; norm. norm in Hcr. lia. }
  assert (Hokb : registry_ok (bound c xc p wc)).
  { apply registry_ok_bound; try assumption.
    - now rewrite Hclc.
    - now rewrite Hch.
    - intros q z Hq Hz.
      destruct (decide (q = c)) as [->|Hne].
      + assert (z = xc) by congruence. subst z. rewrite Hcp, Hpid.
        intros Hp0. now apply Hnz.
      + rewrite Hqc in Hz by exact Hne. rewrite Hclc in Hq.
        now apply (Hfree q z). }
  assert (Hcb : c ∈ clients (bound c xc p wc)).
  { unfold bound. norm. now rewrite Hclc. }
  destruct (reg_conn _ Hokb c Hcb) as (y4 & Hy4 & Hcok4).
  assert (y4 = x4) by congruence. subst y4.
  assert (Hok5 : registry_ok w5).
  { apply (registry_ok_update c _ x4 x5 Hokb Hx4); [now destruct x4|].
    intros _. apply conn_ok_refcount; [exact Hcok4|].
    subst x4. destruct xc; norm. norm in Hcr. lia. }
  assert (Hcok6 : conn_ok c x6 = true).
  { apply (conn_ok_core c x4); [|exact Hcok4].
    subst x6 x5. destruct x4; unfold core; norm. do 3 f_equal. lia. }
  assert (Hok6 : registry_ok (set_heap (<[c := x6]> (heap w5)) w5)).
  { apply (registry_ok_update c _ x5 x6 Hok5 Hx5); [now destruct x5|].
    intros _. exact Hcok6. }
  exists (set_heap (<[c := x6]> (heap w5)) w5), x6.
  split; [exact Hrun|]. split; [exact Hok6|].
  split; [apply lookup_set_heap|].
  assert (Hfields : version_received x6 = true /\
            request_handler x6 = Some h /\ pid x6 = p /\
            refcount x6 = refcount x + 1 /\ i_lines (input x6) = [] /\
            i_mem (input x6) = [(CPID_KW ++ args)%string; vline]
                               ++ i_mem (input x) /\
            connect_uid xc = connect_uid x).
  { subst x6 x5 x4 xc xb xa x1. unfold read_conn.
    destruct x as [? ? ? ? ? ? ? [? ? ? [|[r ls] f]] ?]; norm;
      repeat split; lia. }
  destruct Hfields as (F1 & F2 & F3 & F4 & F5 & F6 & F7).
  assert (Hcl6 : clients (set_heap (<[c := x6]> (heap w5)) w5) = clients w).
  { rewrite <- Hclc. subst w5. unfold bound. now destruct wc. }
  repeat (split; [assumption|]).
  split.
  - subst w5 h. rewrite !trace_set_heap. unfold bound. norm.
    rewrite Htrc, <- app_assoc, F7, Hnhc, Hmsc. reflexivity.
  - apply (lookup_exact _ p c x6 Hok6);
      [now rewrite Hcl6 | apply lookup_set_heap | exact F3 | exact Hnz].
Qed.

End Session.

(** A new connection of an empty registry sends both lines at once. *)
Lemma handshake_in_one_read_witness :
  let x := ex_fresh 5 [] [(20, [tabbed "VERSION" "1"; tabbed "CPID" "555"])] in
  let w := ex_world [(100%nat, x)] [100%nat] [] [] [] in
  exists w' x',
    auth_client_input 1 100 w = Ok tt w' /\
    heap w' !! 100%nat = Some x' /\
    pid x' = 555 /\ refcount x' = 2 /\
    auth_client_connection_lookup 555 w' = Ok (Some 100%nat) w'.
Proof.
  intros x w.
  destruct (handshake_in_one_read 1 w 100%nat x (tabbed "VERSION" "1") "555")
    as (w' & x' & Hrun & _ & Hx' & _ & _ & Hp & Hr & _ & _ & _ & _ & Hl).
  - apply registry_check_sound. reflexivity.
  - apply list_elem_of_here.
  - reflexivity.
  - reflexivity.
  - reflexivity.
  - discriminate.
  - discriminate.
  - discriminate.
  - reflexivity.
  - reflexivity.
  - discriminate.
  - intros q z [->|[]%not_elem_of_nil]%elem_of_cons [= <-]. discriminate.
  - exists w', x'. split; [exact Hrun|]. split; [exact Hx'|].
    split; [exact Hp|]. split; [exact Hr | exact Hl].
Defined.
